(** * Sales analytics system: validation, aggregation and catalog enrichment

    A shallow embedding of [utils/data_processor.py] and
    [utils/api_handler.py].  Transactions are Python dictionaries with string
    keys; they are modelled as finite maps from strings to dynamically typed
    values.  Operations that raise in Python return [Raise] in the error
    monad [result].

    Modelling conventions:
    - [int] is [Z]; [float] is IEEE binary64 ([PrimFloat.float]); [str] is
      [string] restricted to ASCII characters (code points above 127 are
      outside the model);
    - [int(str)] follows CPython's grammar for base 10 (surrounding
      whitespace, optional sign, digits with single underscores between
      them); the interpreter's configurable bound on the number of digits is
      not modelled;
    - [str(f)] and [float(s)] for a float are parameters of the model of
      [save_enriched_data];
    - a dictionary built by an aggregation loop is an association list in
      insertion order;
    - output to the console ([print]) is not modelled, and the text written
      by [save_enriched_data] is the result of its model. *)

From Stdlib Require Import ZArith Floats Ascii String DecimalString DecimalZ.
From stdpp Require Import gmap strings list sorting.

Local Open Scope string_scope.
Local Open Scope list_scope.
Local Open Scope Z_scope.

(** ** Python values and exceptions *)

Inductive value : Type :=
  | VNone
  | VBool (b : bool)
  | VInt (z : Z)
  | VFloat (f : float)
  | VStr (s : string).

Inductive exn : Type :=
  | ValueError
  | TypeError
  | AttributeError
  | KeyError
  | OverflowError.

Inductive result (A : Type) : Type :=
  | Ok (a : A)
  | Raise (e : exn).
Arguments Ok {A} a.
Arguments Raise {A} e.

#[global] Instance result_ret : MRet result := fun A a => Ok a.
#[global] Instance result_bind : MBind result := fun A B k r =>
  match r with
  | Ok a => k a
  | Raise e => Raise e
  end.

Definition is_ok {A} (r : result A) : bool :=
  match r with Ok _ => true | Raise _ => false end.

Abbreviation dict := (gmap string value).

(** [d[k]]: raises [KeyError] when the key is absent. *)
Definition getitem (d : dict) (k : string) : result value :=
  match d !! k with
  | Some v => Ok v
  | None => Raise KeyError
  end.

(** [d.get(k, dflt)]. *)
Definition dict_get (d : dict) (k : string) (dflt : value) : value :=
  default dflt (d !! k).

(** Truth value of an object, as used by [if], [and], [all]. *)
Definition truthy (v : value) : bool :=
  match v with
  | VNone => false
  | VBool b => b
  | VInt z => negb (Z.eqb z 0)
  | VFloat f => negb (PrimFloat.eqb f 0%float)
  | VStr s => negb (String.eqb s "")
  end.

(** ** Strings *)

(** The whitespace that [int] skips around an ASCII literal: tab, line
    feed, vertical tab, form feed, carriage return and space.  The
    separators 28 to 31, which [str.strip] removes, are not among them. *)
Definition is_space (a : ascii) : bool :=
  let n := N_of_ascii a in
  ((9 <=? n) && (n <=? 13) || (n =? 32))%N.

Definition is_digit (a : ascii) : bool :=
  let n := N_of_ascii a in ((48 <=? n) && (n <=? 57))%N.

Fixpoint lstrip (s : string) : string :=
  match s with
  | EmptyString => EmptyString
  | String a s' => if is_space a then lstrip s' else s
  end.

Fixpoint rstrip (s : string) : string :=
  match s with
  | EmptyString => EmptyString
  | String a s' =>
      match rstrip s' with
      | EmptyString => if is_space a then EmptyString else String a EmptyString
      | r => String a r
      end
  end.

(** The literal without the whitespace around it. *)
Definition strip (s : string) : string := rstrip (lstrip s).

(** [s.replace(c, "")] for a one-character [c]: every occurrence goes. *)
Fixpoint remove_char (c : ascii) (s : string) : string :=
  match s with
  | EmptyString => EmptyString
  | String a s' =>
      if Ascii.eqb a c then remove_char c s' else String a (remove_char c s')
  end.

Definition startswith (s p : string) : bool := String.prefix p s.

(** The digits of an integer literal, underscores dropped; [None] when an
    underscore is not between two digits or another character occurs.
    [prev] tells whether the previous character was a digit. *)
Fixpoint literal_digits (prev : bool) (s : string) : option string :=
  match s with
  | EmptyString => if prev then Some EmptyString else None
  | String a s' =>
      if is_digit a then option_map (String a) (literal_digits true s')
      else if Ascii.eqb a "_" then
        (if prev then literal_digits false s' else None)
      else None
  end.

(** [int(s)] for a string [s]. *)
Definition py_int (s : string) : result Z :=
  let body := strip s in
  let '(neg, digits) :=
    match body with
    | String "-" r => (true, r)
    | String "+" r => (false, r)
    | _ => (false, body)
    end in
  match literal_digits false digits with
  | Some ds =>
      match NilEmpty.uint_of_string ds with
      | Some d => Ok (if neg then - Z.of_uint d else Z.of_uint d)
      | None => Raise ValueError
      end
  | None => Raise ValueError
  end.

(** ** Catalog enrichment ([utils/api_handler.py]) *)

Record api_product : Type := {
  category : value;
  brand : value;
  rating : value
}.

Abbreviation product_mapping := (gmap Z api_product).

(** The part of the [try] block that can raise: the catalog key of a
    transaction.  [tx.get("ProductID", "")] may hold any object; only a
    string has [replace]. *)
Definition api_id_of (tx : dict) : result Z :=
  match dict_get tx "ProductID" (VStr "") with
  | VStr product_id_str =>
      numeric_id ← py_int (remove_char "P" product_id_str);
      Ok (numeric_id - 100)
  | _ => Raise AttributeError
  end.

Definition set_api_fields (tx : dict) (c b r : value) (m : bool) : dict :=
  <["API_Match" := VBool m]>
    (<["API_Rating" := r]> (<["API_Brand" := b]> (<["API_Category" := c]> tx))).

(** One iteration of the loop: [tx.copy()], the [try] block and its
    handler.  Every operation that can raise comes before the first
    assignment, so the handler starts from the untouched copy. *)
Definition enrich_tx (mapping : product_mapping) (tx : dict) : dict :=
  let enriched_tx := tx in
  match api_id_of tx with
  | Ok api_id =>
      match mapping !! api_id with
      | Some p => set_api_fields enriched_tx (category p) (brand p) (rating p) true
      | None => set_api_fields enriched_tx VNone VNone VNone false
      end
  | Raise _ => set_api_fields enriched_tx VNone VNone VNone false
  end.

Definition enrich_sales_data (transactions : list dict)
    (mapping : product_mapping) : list dict :=
  fold_left (fun enriched_transactions tx =>
               enriched_transactions ++ [enrich_tx mapping tx])
            transactions [].


(** A string made of decimal digits only. *)
Definition all_digits (s : string) : Prop :=
  Forall (fun a => is_digit a = true) (list_ascii_of_string s).

(** The four catalog fields of an enriched record. *)
Definition api_fields_are (e : dict) (c b r : value) (m : bool) : Prop :=
  e !! "API_Category" = Some c /\ e !! "API_Brand" = Some b /\
  e !! "API_Rating" = Some r /\ e !! "API_Match" = Some (VBool m).

Definition api_keys : list string :=
  ["API_Category"; "API_Brand"; "API_Rating"; "API_Match"].


(** ** Numbers *)

(** The numeric tower: [bool] is a subclass of [int]. *)
Inductive num : Type :=
  | NInt (z : Z)
  | NFloat (f : float).

Definition as_num (v : value) : option num :=
  match v with
  | VBool b => Some (NInt (Z.b2z b))
  | VInt z => Some (NInt z)
  | VFloat f => Some (NFloat f)
  | _ => None
  end.

(** [float(z)]: the nearest binary64 value, ties to even; an integer too
    large for the format raises [OverflowError]. *)
Definition float_of_int (z : Z) : result float :=
  match binary_normalize prec emax z 0 false with
  | S754_infinity _ => Raise OverflowError
  | sf => Ok (SF2Prim sf)
  end.

(** Comparison of an integer with a float is exact in Python: the float is
    not rounded to an integer nor the integer to a float.  [None] when the
    float is not a number. *)
Definition int_compare_float (z : Z) (f : float) : option comparison :=
  match Prim2SF f with
  | S754_nan => None
  | S754_infinity s => Some (if s then Gt else Lt)
  | S754_zero _ => Some (z ?= 0)
  | S754_finite s m e =>
      let fm := if s then Z.neg m else Z.pos m in
      Some (if 0 <=? e then z ?= fm * 2 ^ e else z * 2 ^ (- e) ?= fm)
  end.

(** [v <= 0]. *)
Definition py_le_zero (v : value) : result bool :=
  match as_num v with
  | Some (NInt z) => Ok (z <=? 0)
  | Some (NFloat f) => Ok (PrimFloat.leb f 0%float)
  | None => Raise TypeError
  end.

(** [v * w] on numbers.  (Python also repeats a sequence [str * int]; every
    function below adds the product to a number next, which raises the
    [TypeError] reported here.) *)
Definition py_mul (v w : value) : result value :=
  match as_num v, as_num w with
  | Some (NInt a), Some (NInt b) => Ok (VInt (a * b))
  | Some (NInt a), Some (NFloat g) =>
      f ← float_of_int a; Ok (VFloat (PrimFloat.mul f g))
  | Some (NFloat f), Some (NInt b) =>
      g ← float_of_int b; Ok (VFloat (PrimFloat.mul f g))
  | Some (NFloat f), Some (NFloat g) => Ok (VFloat (PrimFloat.mul f g))
  | _, _ => Raise TypeError
  end.

(** [v + w] on numbers. *)
Definition py_add (v w : value) : result value :=
  match as_num v, as_num w with
  | Some (NInt a), Some (NInt b) => Ok (VInt (a + b))
  | Some (NInt a), Some (NFloat g) =>
      f ← float_of_int a; Ok (VFloat (PrimFloat.add f g))
  | Some (NFloat f), Some (NInt b) =>
      g ← float_of_int b; Ok (VFloat (PrimFloat.add f g))
  | Some (NFloat f), Some (NFloat g) => Ok (VFloat (PrimFloat.add f g))
  | _, _ => Raise TypeError
  end.

(** [v >= bound] and [v <= bound] for a float [bound]. *)
Definition py_ge_float (v : value) (bound : float) : result bool :=
  match as_num v with
  | Some (NFloat a) => Ok (PrimFloat.leb bound a)
  | Some (NInt z) =>
      Ok (match int_compare_float z bound with
          | Some (Gt | Eq) => true
          | _ => false
          end)
  | None => Raise TypeError
  end.

Definition py_le_float (v : value) (bound : float) : result bool :=
  match as_num v with
  | Some (NFloat a) => Ok (PrimFloat.leb a bound)
  | Some (NInt z) =>
      Ok (match int_compare_float z bound with
          | Some (Lt | Eq) => true
          | _ => false
          end)
  | None => Raise TypeError
  end.

(** [v.startswith(p)]: only a string has the method. *)
Definition py_startswith (v : value) (p : string) : result bool :=
  match v with
  | VStr s => Ok (startswith s p)
  | _ => Raise AttributeError
  end.

(** [v == r] for a string [r]: an object of another type is unequal. *)
Definition py_eq_str (v : value) (r : string) : bool :=
  match v with
  | VStr s => String.eqb s r
  | _ => false
  end.

(** A list comprehension [[x for x in l if p x]] whose test may raise. *)
Fixpoint filter_r {A} (p : A -> result bool) (l : list A) : result (list A) :=
  match l with
  | [] => Ok []
  | x :: l' =>
      b ← p x;
      kept ← filter_r p l';
      Ok (if b : bool then x :: kept else kept)
  end.

Definition len {A} (l : list A) : Z := Z.of_nat (length l).

(** ** Validation and filtering ([utils/data_processor.py]) *)

(** The dictionary built by [parse_transactions] for one line. *)
Definition transaction_of (transaction_id date product_id product_name : string)
    (quantity : Z) (unit_price : float) (customer_id region : string) : dict :=
  <["TransactionID" := VStr transaction_id]>
  (<["Date" := VStr date]>
  (<["ProductID" := VStr product_id]>
  (<["ProductName" := VStr product_name]>
  (<["Quantity" := VInt quantity]>
  (<["UnitPrice" := VFloat unit_price]>
  (<["CustomerID" := VStr customer_id]>
  (<["Region" := VStr region]> ∅))))))).

Definition required_fields : list string :=
  ["TransactionID"; "Date"; "ProductID"; "ProductName";
   "Quantity"; "UnitPrice"; "CustomerID"; "Region"].

(** [all(field in tx and tx[field] for field in required_fields)] *)
Definition has_required_fields (tx : dict) : bool :=
  forallb (fun field =>
             match tx !! field with
             | Some v => truthy v
             | None => false
             end) required_fields.

(** The body of the validation loop for one transaction: [None] when the
    transaction is counted as invalid, the transaction with its [Amount]
    when it is kept.  The rules are tried from left to right and the first
    one that holds rejects. *)
Definition validate_tx (tx : dict) : result (option dict) :=
  if negb (has_required_fields tx) then Ok None else
  quantity ← getitem tx "Quantity";
  bad_quantity ← py_le_zero quantity;
  if bad_quantity : bool then Ok None else
  unit_price ← getitem tx "UnitPrice";
  bad_price ← py_le_zero unit_price;
  if bad_price : bool then Ok None else
  transaction_id ← getitem tx "TransactionID";
  t ← py_startswith transaction_id "T";
  if negb t then Ok None else
  product_id ← getitem tx "ProductID";
  p ← py_startswith product_id "P";
  if negb p then Ok None else
  customer_id ← getitem tx "CustomerID";
  c ← py_startswith customer_id "C";
  if negb c then Ok None else
  amount ← py_mul quantity unit_price;
  Ok (Some (<["Amount" := amount]> tx)).

(** The validation loop, threading [valid_transactions] and
    [invalid_count]. *)
Fixpoint validation_loop (transactions valid_transactions : list dict)
    (invalid_count : Z) : result (list dict * Z) :=
  match transactions with
  | [] => Ok (valid_transactions, invalid_count)
  | tx :: rest =>
      v ← validate_tx tx;
      match v with
      | None => validation_loop rest valid_transactions (invalid_count + 1)
      | Some tx' => validation_loop rest (valid_transactions ++ [tx']) invalid_count
      end
  end.

Record filter_summary : Type := {
  total_input : Z;
  invalid : Z;
  filtered_by_region : Z;
  filtered_by_amount : Z;
  final_count : Z
}.

Definition region_matches (region : string) (tx : dict) : result bool :=
  r ← getitem tx "Region"; Ok (py_eq_str r region).

Definition amount_at_least (min_amount : float) (tx : dict) : result bool :=
  a ← getitem tx "Amount"; py_ge_float a min_amount.

Definition amount_at_most (max_amount : float) (tx : dict) : result bool :=
  a ← getitem tx "Amount"; py_le_float a max_amount.

(** The region pass: [if region:] guards it, so it runs for a non-empty
    string only.  Returns the remaining list and [filtered_by_region]. *)
Definition filter_by_region (region : option string)
    (valid_transactions : list dict) : result (list dict * Z) :=
  match region with
  | Some r =>
      if negb (String.eqb r "") then
        let before := len valid_transactions in
        kept ← filter_r (region_matches r) valid_transactions;
        Ok (kept, before - len kept)
      else Ok (valid_transactions, 0)
  | None => Ok (valid_transactions, 0)
  end.

(** The two amount passes, each adding to [filtered_by_amount]. *)
Definition filter_by_min (min_amount : option float)
    (valid_transactions : list dict) (filtered_by_amount : Z)
  : result (list dict * Z) :=
  match min_amount with
  | Some lo =>
      let before := len valid_transactions in
      kept ← filter_r (amount_at_least lo) valid_transactions;
      Ok (kept, filtered_by_amount + (before - len kept))
  | None => Ok (valid_transactions, filtered_by_amount)
  end.

Definition filter_by_max (max_amount : option float)
    (valid_transactions : list dict) (filtered_by_amount : Z)
  : result (list dict * Z) :=
  match max_amount with
  | Some hi =>
      let before := len valid_transactions in
      kept ← filter_r (amount_at_most hi) valid_transactions;
      Ok (kept, filtered_by_amount + (before - len kept))
  | None => Ok (valid_transactions, filtered_by_amount)
  end.

(** [validate_and_filter(transactions, region, min_amount, max_amount)].
    The block that prints the available regions and the amount range has no
    effect on the result and cannot raise on parsed transactions (the
    regions are strings, the amounts numbers); it is left out. *)
Definition validate_and_filter (transactions : list dict)
    (region : option string) (min_amount max_amount : option float)
  : result (list dict * Z * filter_summary) :=
  '(valid_transactions, invalid_count) ← validation_loop transactions [] 0;
  '(valid_transactions, filtered_by_region) ←
    filter_by_region region valid_transactions;
  '(valid_transactions, filtered_by_amount) ←
    filter_by_min min_amount valid_transactions 0;
  '(valid_transactions, filtered_by_amount) ←
    filter_by_max max_amount valid_transactions filtered_by_amount;
  Ok (valid_transactions, invalid_count,
      {| total_input := len transactions;
         invalid := invalid_count;
         filtered_by_region := filtered_by_region;
         filtered_by_amount := filtered_by_amount;
         final_count := len valid_transactions |}).

(** A transaction as [parse_transactions] produces it. *)
Definition parsed (tx : dict) : Prop :=
  exists tid date pid name q up cid region,
    tx = transaction_of tid date pid name q up cid region.

(** The conditions under which the validation loop keeps a parsed
    transaction, read off the code: the eight values are truthy and none of
    the five rejection rules fires. *)
Definition passes_checks (tid date pid name : string) (q : Z) (up : float)
    (cid region : string) : bool :=
  negb (String.eqb tid "") && negb (String.eqb date "") &&
  negb (String.eqb pid "") && negb (String.eqb name "") &&
  negb (Z.eqb q 0) && negb (PrimFloat.eqb up 0%float) &&
  negb (String.eqb cid "") && negb (String.eqb region "") &&
  negb (q <=? 0) && negb (PrimFloat.leb up 0%float) &&
  startswith tid "T" && startswith pid "P" && startswith cid "C".

(** The filters in the words of the specification, on validated
    transactions: exact match on the region, bounds on the amount. *)
Definition region_is (r : string) (tx : dict) : bool :=
  match tx !! "Region" with
  | Some (VStr s) => String.eqb s r
  | _ => false
  end.

Definition amount_ge (lo : float) (tx : dict) : bool :=
  match tx !! "Amount" with
  | Some (VFloat a) => PrimFloat.leb lo a
  | _ => false
  end.

Definition amount_le (hi : float) (tx : dict) : bool :=
  match tx !! "Amount" with
  | Some (VFloat a) => PrimFloat.leb a hi
  | _ => false
  end.

(** The three passes of the specification, in order; the region pass runs
    when [region] is a non-empty string. *)
Definition region_pass (region : option string) (l : list dict) : list dict :=
  match region with
  | Some r => if String.eqb r "" then l else List.filter (region_is r) l
  | None => l
  end.

Definition min_pass (min_amount : option float) (l : list dict) : list dict :=
  match min_amount with
  | Some lo => List.filter (amount_ge lo) l
  | None => l
  end.

Definition max_pass (max_amount : option float) (l : list dict) : list dict :=
  match max_amount with
  | Some hi => List.filter (amount_le hi) l
  | None => l
  end.

(** The property of the specification for a region no valid transaction
    has: nothing is left and the region pass removed every valid
    transaction. *)
Definition unmatched_region_empties (txs : list dict) (r : string)
    (lo hi : option float) : Prop :=
  forall valid n,
    validation_loop txs [] 0 = Ok (valid, n) ->
    (forall tx, tx ∈ valid -> region_is r tx = false) ->
    exists s, validate_and_filter txs (Some r) lo hi = Ok ([], n, s) /\
      filtered_by_region s = len valid /\ final_count s = 0.

(** What the validation loop does with one transaction that raises
    nothing: the record it appends, if any. *)
Definition kept (tx : dict) : option dict :=
  match validate_tx tx with
  | Ok (Some v) => Some v
  | _ => None
  end.

(** The shape of a transaction that left the validation loop of parsed
    input: its region is a string and its amount a float. *)
Definition validated (tx : dict) : Prop :=
  exists r a, tx !! "Region" = Some (VStr r) /\ tx !! "Amount" = Some (VFloat a).

(** The quantity of the transaction fits the float format, so that
    [Quantity * UnitPrice] can be computed. *)
Definition convertible (tx : dict) : bool :=
  match tx !! "Quantity" with
  | Some (VInt q) => is_ok (float_of_int q)
  | _ => true
  end.

(** ** Dictionaries built by the aggregation loops *)

(** Equality of floats as objects; a NaN equals itself here.  It serves to
    compare dictionary keys. *)
#[global] Instance float_eq_dec : EqDecision float.
Proof.
  intros x y. destruct (PrimFloat.Leibniz.eqb x y) eqn:E.
  - left. by apply FloatAxioms.Leibniz.eqb_spec.
  - right. intros H. apply FloatAxioms.Leibniz.eqb_spec in H. congruence.
Defined.

#[global] Instance value_eq_dec : EqDecision value.
Proof. solve_decision. Defined.

#[global] Instance num_eq_dec : EqDecision num.
Proof. solve_decision. Defined.

(** A dictionary keyed by field values, in insertion order.  Keys are
    compared structurally: this is Python's comparison for strings, the
    keys that parsed transactions give. *)
Definition odict (V : Type) : Type := list (value * V).

(** [if k not in d: d[k] = init] followed by the update [d[k] = f(d[k])].
    A new key goes to the end. *)
Fixpoint upsert {V} (k : value) (init : V) (f : V -> result V)
    (d : odict V) : result (odict V) :=
  match d with
  | [] => v ← f init; Ok [(k, v)]
  | (k', v) :: d' =>
      if decide (k' = k) then v' ← f v; Ok ((k', v') :: d')
      else d'' ← upsert k init f d'; Ok ((k', v) :: d'')
  end.

(** A [for] loop over [l] that threads the state [s]. *)
Fixpoint for_each {A S} (body : S -> A -> result S) (l : list A) (s : S)
  : result S :=
  match l with
  | [] => Ok s
  | x :: l' => s' ← body s x; for_each body l' s'
  end.

(** [acc + v] for a float [acc]: [v] is converted to a float first. *)
Definition to_float (v : value) : result float :=
  match as_num v with
  | Some (NInt z) => float_of_int z
  | Some (NFloat f) => Ok f
  | None => Raise TypeError
  end.

Definition float_iadd (acc : float) (v : value) : result float :=
  f ← to_float v; Ok (PrimFloat.add acc f).

(** [acc + v] for a number [acc]. *)
Definition num_iadd (acc : num) (v : value) : result num :=
  match acc, as_num v with
  | NInt a, Some (NInt b) => Ok (NInt (a + b))
  | NInt a, Some (NFloat g) =>
      f ← float_of_int a; Ok (NFloat (PrimFloat.add f g))
  | NFloat f, Some (NInt b) =>
      g ← float_of_int b; Ok (NFloat (PrimFloat.add f g))
  | NFloat f, Some (NFloat g) => Ok (NFloat (PrimFloat.add f g))
  | _, None => Raise TypeError
  end.

(** [a < b] on numbers; integers and floats are compared exactly. *)
Definition num_ltb (a b : num) : bool :=
  match a, b with
  | NInt x, NInt y => x <? y
  | NFloat f, NFloat g => PrimFloat.ltb f g
  | NInt x, NFloat g =>
      match int_compare_float x g with Some Lt => true | _ => false end
  | NFloat f, NInt y =>
      match int_compare_float y f with Some Gt => true | _ => false end
  end.

(** [tx["Quantity"] * tx["UnitPrice"]] *)
Definition sale_value (tx : dict) : result value :=
  quantity ← getitem tx "Quantity";
  unit_price ← getitem tx "UnitPrice";
  py_mul quantity unit_price.

(** ** Peak sales day *)

Record day_total : Type := {
  revenue : float;
  transaction_count : Z
}.

Definition peak_step (daily_totals : odict day_total) (tx : dict)
  : result (odict day_total) :=
  date ← getitem tx "Date";
  rev ← sale_value tx;
  upsert date {| revenue := 0; transaction_count := 0 |}
    (fun st =>
       r ← float_iadd (revenue st) rev;
       Ok {| revenue := r; transaction_count := transaction_count st + 1 |})
    daily_totals.

(** [max(items, key=...)]: the first item is the candidate and a later item
    replaces it when its key is greater ([>]); an empty iterable raises
    [ValueError]. *)
Fixpoint max_from {A} (key : A -> float) (best : A) (l : list A) : A :=
  match l with
  | [] => best
  | x :: l' =>
      max_from key (if PrimFloat.ltb (key best) (key x) then x else best) l'
  end.

Definition py_max {A} (key : A -> float) (l : list A) : result A :=
  match l with
  | [] => Raise ValueError
  | x :: l' => Ok (max_from key x l')
  end.

Definition find_peak_sales_day (transactions : list dict)
  : result (value * float * Z) :=
  daily_totals ← for_each peak_step transactions [];
  peak_date ← py_max (fun item : value * day_total => revenue item.2)
                     daily_totals;
  Ok (peak_date.1, revenue peak_date.2, transaction_count peak_date.2).

(** ** Top-selling products *)

Record product_stat : Type := {
  total_quantity : num;
  total_revenue : float
}.

Definition product_step (product_stats : odict product_stat) (tx : dict)
  : result (odict product_stat) :=
  product ← getitem tx "ProductName";
  quantity ← getitem tx "Quantity";
  unit_price ← getitem tx "UnitPrice";
  rev ← py_mul quantity unit_price;
  upsert product {| total_quantity := NInt 0; total_revenue := 0 |}
    (fun st =>
       q ← num_iadd (total_quantity st) quantity;
       r ← float_iadd (total_revenue st) rev;
       Ok {| total_quantity := q; total_revenue := r |})
    product_stats.

(** [list.sort(key=..., reverse=True)] is a stable sort in descending order
    of the key: an element comes before the elements of smaller key and
    keeps its place among those of equal key.  Where the keys are totally
    ordered this fixes the result, given here by insertion from the right:
    [x] passes the elements of greater key and stops at the first one
    whose key is not greater. *)
Fixpoint insert_desc {A} (key : A -> num) (x : A) (l : list A) : list A :=
  match l with
  | [] => [x]
  | y :: l' =>
      if num_ltb (key x) (key y) then y :: insert_desc key x l'
      else x :: y :: l'
  end.

Definition sort_desc {A} (key : A -> num) (l : list A) : list A :=
  foldr (insert_desc key) [] l.

(** The slice [l[:n]]: a negative [n] counts from the end. *)
Definition slice_to {A} (n : Z) (l : list A) : list A :=
  take (Z.to_nat (if n <? 0 then len l + n else n)) l.

Definition top_selling_products (transactions : list dict) (n : Z)
  : result (list (value * num * float)) :=
  product_stats ← for_each product_step transactions [];
  let product_list :=
    map (fun '(product, stats) =>
           (product, total_quantity stats, total_revenue stats))
        product_stats in
  let product_list := sort_desc (fun x : value * num * float => x.1.2) product_list in
  Ok (slice_to n product_list).

(** ** Region-wise sales *)

(** [round(x, 2)] for a float: the exact value of [x] is rounded to two
    decimal places, ties to even, and the decimal obtained is converted to
    the nearest float; infinities and NaN are returned as they are. *)
Definition round_half_even_div (a b : Z) : Z :=
  let q := a / b in
  match 2 * (a mod b) ?= b with
  | Lt => q
  | Gt => q + 1
  | Eq => if Z.even q then q else q + 1
  end.

Definition py_round2 (f : float) : float :=
  match Prim2SF f with
  | S754_finite s m e =>
      let n := if 0 <=? e then 100 * Z.pos m * 2 ^ e
               else round_half_even_div (100 * Z.pos m) (2 ^ (- e)) in
      match n with
      | Z.pos p =>
          SF2Prim (SFdiv prec emax (S754_finite s p 0) (S754_finite false 100 0))
      | _ => SF2Prim (S754_zero s)
      end
  | _ => f
  end.

Record region_stat : Type := {
  total_sales : float;
  region_transaction_count : Z
}.

(** An entry of the result: the statistics with the percentage, which is
    the integer 0 when the overall total is not positive. *)
Record region_entry : Type := {
  entry_total_sales : float;
  entry_transaction_count : Z;
  entry_percentage : value
}.

Definition region_step (st : odict region_stat * float) (tx : dict)
  : result (odict region_stat * float) :=
  let '(region_stats, total_sales_overall) := st in
  region ← getitem tx "Region";
  sale_amount ← sale_value tx;
  total_sales_overall ← float_iadd total_sales_overall sale_amount;
  region_stats ←
    upsert region {| total_sales := 0; region_transaction_count := 0 |}
      (fun s =>
         t ← float_iadd (total_sales s) sale_amount;
         Ok {| total_sales := t;
               region_transaction_count := region_transaction_count s + 1 |})
      region_stats;
  Ok (region_stats, total_sales_overall).

Definition with_percentage (total_sales_overall : float) (s : region_stat)
  : region_entry :=
  {| entry_total_sales := total_sales s;
     entry_transaction_count := region_transaction_count s;
     entry_percentage :=
       if PrimFloat.ltb 0%float total_sales_overall then
         VFloat (py_round2
                   (PrimFloat.mul (PrimFloat.div (total_sales s) total_sales_overall)
                                  100%float))
       else VInt 0 |}.

Definition region_wise_sales (transactions : list dict)
  : result (list (value * region_entry)) :=
  '(region_stats, total_sales_overall) ←
    for_each region_step transactions ([], 0%float);
  let region_stats :=
    map (fun '(region, s) => (region, with_percentage total_sales_overall s))
        region_stats in
  Ok (sort_desc (fun item : value * region_entry =>
                   NFloat (entry_total_sales item.2))
                region_stats).

(** ** Aggregates in the words of the specification *)

(** A transaction as the aggregation functions expect it, and as
    [validate_and_filter] returns it for parsed input: the grouping fields
    are strings, the quantity is an integer that fits the float format and
    the unit price is a float. *)
Definition well_typed (tx : dict) : bool :=
  match tx !! "Date", tx !! "ProductName", tx !! "Region",
        tx !! "Quantity", tx !! "UnitPrice" with
  | Some (VStr _), Some (VStr _), Some (VStr _),
    Some (VInt q), Some (VFloat _) => is_ok (float_of_int q)
  | _, _, _, _, _ => false
  end.

Definition field (name : string) (tx : dict) : value :=
  default VNone (tx !! name).

(** The sale amount [Quantity * UnitPrice] of a transaction, as a float. *)
Definition amount_of (tx : dict) : float :=
  match sale_value tx ≫= to_float with
  | Ok f => f
  | Raise _ => 0%float
  end.

Definition quantity_of (tx : dict) : Z :=
  match tx !! "Quantity" with
  | Some (VInt q) => q
  | _ => 0
  end.

(** The distinct keys of a list in the order in which each is first met. *)
Definition encounter_order (keys : list value) : list value :=
  fold_left (fun seen k => if decide (k ∈ seen) then seen else seen ++ [k])
            keys [].

(** The transactions of one group, in input order. *)
Definition group (name : string) (k : value) (txs : list dict) : list dict :=
  filter (fun tx => field name tx = k) txs.

(** Sums over a list of transactions, accumulated from the left in input
    order, starting from zero. *)
Definition sum_amounts (txs : list dict) : float :=
  fold_left (fun acc tx => PrimFloat.add acc (amount_of tx)) txs 0%float.

Definition sum_quantities (txs : list dict) : Z :=
  fold_left (fun acc tx => acc + quantity_of tx) txs 0.

Definition day_revenue (d : value) (txs : list dict) : float :=
  sum_amounts (group "Date" d txs).

Definition day_count (d : value) (txs : list dict) : Z :=
  len (group "Date" d txs).

Definition product_quantity (p : value) (txs : list dict) : Z :=
  sum_quantities (group "ProductName" p txs).

Definition product_revenue (p : value) (txs : list dict) : float :=
  sum_amounts (group "ProductName" p txs).

(** The full aggregation per product, in encounter order. *)
Definition product_table (txs : list dict) : list (value * num * float) :=
  map (fun p => (p, NInt (product_quantity p txs), product_revenue p txs))
      (encounter_order (map (field "ProductName") txs)).

(** The integer behind a quantity total. *)
Definition quantity_total (x : value * num * float) : Z :=
  match x.1.2 with
  | NInt z => z
  | NFloat _ => 0
  end.

(** ** Devices for the proofs *)

(** [upsert] with an update that cannot raise. *)
Fixpoint upsert_pure {V} (k : value) (init : V) (g : V -> V) (d : odict V)
  : odict V :=
  match d with
  | [] => [(k, g init)]
  | (k', v) :: d' =>
      if decide (k' = k) then (k', g v) :: d'
      else (k', v) :: upsert_pure k init g d'
  end.

(** The value accumulated for key [k] by a grouping loop over [xs]. *)
Definition accumulated {A V} (key : A -> value) (upd : A -> V -> V) (init : V)
    (k : value) (xs : list A) : V :=
  fold_left (fun v x => upd x v) (filter (fun x => key x = k) xs) init.

(** The update of [find_peak_sales_day] for one transaction, when nothing
    raises. *)
Definition day_update (tx : dict) (st : day_total) : day_total :=
  {| revenue := PrimFloat.add (revenue st) (amount_of tx);
     transaction_count := transaction_count st + 1 |}.

Definition day_init : day_total := {| revenue := 0; transaction_count := 0 |}.

(** The update of the product loops for one transaction. *)
Definition product_update (tx : dict) (st : product_stat) : product_stat :=
  {| total_quantity :=
       match num_iadd (total_quantity st) (field "Quantity" tx) with
       | Ok q => q
       | Raise _ => total_quantity st
       end;
     total_revenue := PrimFloat.add (total_revenue st) (amount_of tx) |}.

Definition product_init : product_stat :=
  {| total_quantity := NInt 0; total_revenue := 0 |}.

(** ** Saving the enriched data ([utils/api_handler.py]) *)

Definition headers : list string :=
  ["TransactionID"; "Date"; "ProductID"; "ProductName";
   "Quantity"; "UnitPrice"; "CustomerID"; "Region";
   "API_Category"; "API_Brand"; "API_Rating"; "API_Match"].

Definition newline : ascii := "010"%char.
Definition pipe : ascii := "|"%char.

(** [sep.join(l)] *)
Fixpoint join (sep : string) (l : list string) : string :=
  match l with
  | [] => ""
  | [x] => x
  | x :: l' => x +:+ sep +:+ join sep l'
  end.

(** [s.split(sep)] for a one-character separator. *)
Fixpoint split_on (sep : ascii) (s : string) : list string :=
  match s with
  | EmptyString => [""]
  | String a s' =>
      if Ascii.eqb a sep then "" :: split_on sep s'
      else match split_on sep s' with
           | w :: ws => String a w :: ws
           | [] => [String a ""]
           end
  end.

Fixpoint no_char (c : ascii) (s : string) : bool :=
  match s with
  | EmptyString => true
  | String a s' => negb (Ascii.eqb a c) && no_char c s'
  end.

(** A string that holds neither the column separator nor a line break. *)
Definition clean (s : string) : bool := no_char pipe s && no_char newline s.

Section SaveEnriched.

(** [str(f)] and [float(s)] for floats are Python's own conversions; they
    are parameters of the model. *)
Variable float_repr : float -> string.
Variable float_parse : string -> option float.

(** [str(v)] *)
Definition py_str (v : value) : string :=
  match v with
  | VNone => "None"
  | VBool true => "True"
  | VBool false => "False"
  | VInt z => NilZero.string_of_int (Z.to_int z)
  | VFloat f => float_repr f
  | VStr s => s
  end.

(** ["" if value is None else str(value)] for [value = tx.get(header)] *)
Definition cell (tx : dict) (header : string) : string :=
  match tx !! header with
  | None | Some VNone => ""
  | Some v => py_str v
  end.

Definition row (tx : dict) : string := join "|" (map (cell tx) headers).

(** The text written to the file: the header line, then one line per
    transaction. *)
Definition save_enriched_data (enriched_transactions : list dict) : string :=
  fold_left (fun file tx => file +:+ row tx +:+ String newline "")
            enriched_transactions
            (join "|" headers +:+ String newline "").

(** The kinds of column of the enriched file. *)
Inductive column : Type :=
  | CStr | CInt | CFloat | CNullableStr | CNullableFloat | CBool.

Definition columns : list (string * column) :=
  [("TransactionID", CStr); ("Date", CStr); ("ProductID", CStr);
   ("ProductName", CStr); ("Quantity", CInt); ("UnitPrice", CFloat);
   ("CustomerID", CStr); ("Region", CStr);
   ("API_Category", CNullableStr); ("API_Brand", CNullableStr);
   ("API_Rating", CNullableFloat); ("API_Match", CBool)].

(** Modelled from the spec: the reading of one cell of the enriched file;
    the repository has no reader for that file.  Following the file format
    of the specification, Quantity is read as an integer, UnitPrice as a
    float, the empty string in an API_ column is null, API_Rating is
    otherwise a float and API_Match is the text of a boolean. *)
Definition parse_cell (c : column) (s : string) : option value :=
  match c with
  | CStr => Some (VStr s)
  | CInt => match py_int s with Ok z => Some (VInt z) | Raise _ => None end
  | CFloat => VFloat <$> float_parse s
  | CNullableStr => Some (if String.eqb s "" then VNone else VStr s)
  | CNullableFloat =>
      if String.eqb s "" then Some VNone else VFloat <$> float_parse s
  | CBool =>
      if String.eqb s "True" then Some (VBool true)
      else if String.eqb s "False" then Some (VBool false)
      else None
  end.

(** Modelled from the spec: the cells of a row against the twelve
    columns, in order; a row with another number of cells is refused. *)
Fixpoint parse_cells (cols : list (string * column)) (cells : list string)
  : option (list (string * value)) :=
  match cols, cells with
  | [], [] => Some []
  | (h, c) :: cols', s :: cells' =>
      v ← parse_cell c s;
      rest ← parse_cells cols' cells';
      Some ((h, v) :: rest)
  | _, _ => None
  end.

(** Modelled from the spec: the reading of one row, split on "|". *)
Definition parse_enriched_row (line : string) : option dict :=
  list_to_map <$> parse_cells columns (split_on pipe line).

(** Modelled from the spec: the lines of a text file, that is the pieces
    between line breaks, the last line break ending the file. *)
Definition lines_of (text : string) : option (list string) :=
  match reverse (split_on newline text) with
  | "" :: rev_lines => Some (reverse rev_lines)
  | _ => None
  end.

(** Modelled from the spec: the reading of the enriched file, a header
    line followed by one row per record. *)
Definition parse_enriched (text : string) : option (list dict) :=
  ls ← lines_of text;
  match ls with
  | header :: rows =>
      if decide (split_on pipe header = headers)
      then mapM parse_enriched_row rows
      else None
  | [] => None
  end.

(** The text of a file made of the given lines. *)
Definition unlines (ls : list string) : string :=
  foldr (fun x acc => x +:+ String newline acc) "" ls.

(** The record read back from the line written for [tx]: its twelve
    columns. *)
Definition reread (tx : dict) : dict :=
  list_to_map (map (fun hc : string * column => (hc.1, field hc.1 tx)) columns).

(** A floating-point value that survives [str] then [float], and whose
    text is a well-formed cell. *)
Definition float_ok (f : float) : Prop :=
  float_parse (float_repr f) = Some f /\
  clean (float_repr f) = true /\ float_repr f <> "".

(** The values a column can hold so that its cell reads back. *)
Definition fits (c : column) (v : value) : Prop :=
  match c with
  | CStr => exists s, v = VStr s /\ clean s = true
  | CInt => exists z, v = VInt z
  | CFloat => exists f, v = VFloat f /\ float_ok f
  | CNullableStr => v = VNone \/ exists s, v = VStr s /\ clean s = true /\ s <> ""
  | CNullableFloat => v = VNone \/ exists f, v = VFloat f /\ float_ok f
  | CBool => exists b, v = VBool b
  end.

Definition writable (tx : dict) : Prop :=
  Forall (fun hc : string * column =>
            exists v, tx !! hc.1 = Some v /\ fits hc.2 v) columns.

(** The round trip of the specification: the file reads back as one record
    per transaction, equal to it on each of the twelve columns. *)
Definition round_trips (enriched : list dict) : Prop :=
  exists reparsed,
    parse_enriched (save_enriched_data enriched) = Some reparsed /\
    length reparsed = length enriched /\
    forall (i : nat) (tx tx' : dict),
      enriched !! i = Some tx -> reparsed !! i = Some tx' ->
      forall h, h ∈ headers -> tx' !! h = tx !! h.

End SaveEnriched.

(** [str] and [float] on the floats that the examples use. *)
Definition float_repr_sample (f : float) : string :=
  if PrimFloat.Leibniz.eqb f 10%float then "10.0"
  else if PrimFloat.Leibniz.eqb f 4.5%float then "4.5"
  else "nan".

Definition float_parse_sample (s : string) : option float :=
  if String.eqb s "10.0" then Some 10%float
  else if String.eqb s "4.5" then Some 4.5%float
  else if String.eqb s "nan" then Some PrimFloat.nan
  else None.

(** An enriched record with the given brand. *)
Definition enriched_sample (brand : value) : dict :=
  set_api_fields
    (transaction_of "T1" "2024-01-01" "P101" "Widget" 5 10%float "C1" "North")
    (VStr "beauty") brand (VFloat 4.5%float) true.


(** ** Parsing the raw lines ([utils/data_processor.py]) *)

Definition comma : ascii := ","%char.

Section ParseTransactions.

(** [float(s)] for a string is Python's own conversion; it is a parameter
    of the model, [None] standing for the [ValueError] raised for a text
    that is no number. *)
Variable float_parse : string -> option float.

Definition py_float (s : string) : result float :=
  match float_parse s with
  | Some f => Ok f
  | None => Raise ValueError
  end.

(** The body of the loop for one line: [None] for a line that is skipped
    because it does not split into eight fields.  The two conversions are
    not guarded, so a field that is no number ends the whole call. *)
Definition parse_line (line : string) : result (option dict) :=
  match split_on pipe line with
  | [transaction_id; date; product_id; product_name;
     quantity; unit_price; customer_id; region] =>
      let product_name := remove_char comma product_name in
      quantity ← py_int (remove_char comma quantity);
      unit_price ← py_float (remove_char comma unit_price);
      Ok (Some (transaction_of transaction_id date product_id product_name
                               quantity unit_price customer_id region))
  | _ => Ok None
  end.

Definition parse_transactions (raw_lines : list string) : result (list dict) :=
  for_each (fun cleaned_data line =>
              t ← parse_line line;
              Ok (match t with
                  | Some transaction => cleaned_data ++ [transaction]
                  | None => cleaned_data
                  end))
           raw_lines [].

(** A line of eight fields whose quantity or unit price, commas removed,
    is not the text of a number. *)
Definition bad_number (line : string) : bool :=
  match split_on pipe line with
  | [_; _; _; _; quantity; unit_price; _; _] =>
      negb (is_ok (py_int (remove_char comma quantity))) ||
      negb (is_ok (py_float (remove_char comma unit_price)))
  | _ => false
  end.

(** The record read from a line: the eight fields, the product name
    without its commas, the two numbers converted. *)
Definition record_of (line : string) (tx : dict) : Prop :=
  exists tid date pid name qs ps cid region q up,
    split_on pipe line = [tid; date; pid; name; qs; ps; cid; region] /\
    py_int (remove_char comma qs) = Ok q /\
    float_parse (remove_char comma ps) = Some up /\
    tx = transaction_of tid date pid (remove_char comma name) q up cid region.

End ParseTransactions.

Definition eight_fields (line : string) : bool :=
  Nat.eqb (length (split_on pipe line)) 8.

(** ** Total revenue *)

Definition calculate_total_revenue (transactions : list dict) : result float :=
  for_each (fun total_revenue tx =>
              v ← sale_value tx;
              float_iadd total_revenue v)
           transactions 0%float.

(** The amount that validation stored in a transaction. *)
Definition stored_amount (tx : dict) : float :=
  match tx !! "Amount" with
  | Some (VFloat a) => a
  | _ => 0%float
  end.

(** ** Low-performing products *)

(** [list.sort(key=...)] is a stable sort in ascending order of the key,
    given here by insertion from the right as for the descending sort: [x]
    passes the elements of smaller key and stops at the first one whose key
    is not smaller. *)
Fixpoint insert_asc {A} (key : A -> num) (x : A) (l : list A) : list A :=
  match l with
  | [] => [x]
  | y :: l' =>
      if num_ltb (key y) (key x) then y :: insert_asc key x l'
      else x :: y :: l'
  end.

Definition sort_asc {A} (key : A -> num) (l : list A) : list A :=
  foldr (insert_asc key) [] l.

(** [threshold] is a number; the default of the source is the integer 10. *)
Definition low_performing_products (transactions : list dict) (threshold : num)
  : result (list (value * num * float)) :=
  product_stats ← for_each product_step transactions [];
  let low_performers :=
    map (fun '(product, stats) =>
           (product, total_quantity stats, total_revenue stats))
        (List.filter (fun item : value * product_stat =>
                        num_ltb (total_quantity item.2) threshold)
                     product_stats) in
  Ok (sort_asc (fun x : value * num * float => x.1.2) low_performers).

(** ** Daily sales trend *)

(** A [set] of field values, as the list of its elements without
    repetition; of such a set the code only takes the size or the
    elements.  Elements are compared structurally, as dictionary keys
    are. *)
Definition set_add (x : value) (s : list value) : list value :=
  if decide (x ∈ s) then s else s ++ [x].

(** The statistics of a day while the loop runs. *)
Record trend_stat : Type := {
  trend_revenue : float;
  trend_transaction_count : Z;
  trend_customers : list value
}.

(** The statistics of a day in the result: the set of customers has been
    replaced by its size. *)
Record trend_entry : Type := {
  daily_revenue : float;
  daily_transaction_count : Z;
  unique_customers : Z
}.

Definition trend_step (daily_stats : odict trend_stat) (tx : dict)
  : result (odict trend_stat) :=
  date ← getitem tx "Date";
  rev ← sale_value tx;
  customer ← getitem tx "CustomerID";
  upsert date {| trend_revenue := 0; trend_transaction_count := 0;
                 trend_customers := [] |}
    (fun st =>
       r ← float_iadd (trend_revenue st) rev;
       Ok {| trend_revenue := r;
             trend_transaction_count := trend_transaction_count st + 1;
             trend_customers := set_add customer (trend_customers st) |})
    daily_stats.

(** [a < b] between two objects: strings are compared character by
    character, numbers by value, and no other pair is ordered. *)
Definition py_lt (a b : value) : result bool :=
  match a, b with
  | VStr s, VStr t => Ok (String.ltb s t)
  | _, _ =>
      match as_num a, as_num b with
      | Some x, Some y => Ok (num_ltb x y)
      | _, _ => Raise TypeError
      end
  end.

(** [sorted(d.items())]: the items are pairs and the keys of a dictionary
    differ from one another, so two items compare as their keys do.  The
    sort is stable and ascending; as above it is given by insertion from the
    right, which fixes the result where the keys are totally ordered, and
    which raises, as any sort must, when two keys of the list cannot be
    compared. *)
Fixpoint insert_item {V} (x : value * V) (l : list (value * V))
  : result (list (value * V)) :=
  match l with
  | [] => Ok [x]
  | y :: l' =>
      b ← py_lt y.1 x.1;
      if b : bool then l'' ← insert_item x l'; Ok (y :: l'')
      else Ok (x :: y :: l')
  end.

Definition sorted_items {V} (l : list (value * V)) : result (list (value * V)) :=
  foldr (fun x sorted => l' ← sorted; insert_item x l') (Ok []) l.

Definition daily_sales_trend (transactions : list dict)
  : result (list (value * trend_entry)) :=
  daily_stats ← for_each trend_step transactions [];
  let daily_stats :=
    map (fun item : value * trend_stat =>
           (item.1,
            {| daily_revenue := trend_revenue item.2;
               daily_transaction_count := trend_transaction_count item.2;
               unique_customers := len (trend_customers item.2) |}))
        daily_stats in
  sorted_items daily_stats.

(** ** Customer analysis *)

Record customer_stat : Type := {
  total_spent : float;
  purchase_count : Z;
  products_bought : list value
}.

(** An entry of the result.  [entry_products_bought] is [list(s)] for the
    set [s] of the products: Python leaves the order of that list open; the
    model lists the products in the order in which they are first met, and
    the properties below speak of membership and repetition only.  The
    average is the integer 0 on the branch for a count that is not
    positive. *)
Record customer_entry : Type := {
  entry_total_spent : float;
  entry_purchase_count : Z;
  entry_products_bought : list value;
  avg_order_value : value
}.

Definition customer_step (customer_stats : odict customer_stat) (tx : dict)
  : result (odict customer_stat) :=
  customer ← getitem tx "CustomerID";
  product ← getitem tx "ProductName";
  amount ← sale_value tx;
  upsert customer {| total_spent := 0; purchase_count := 0;
                     products_bought := [] |}
    (fun st =>
       t ← float_iadd (total_spent st) amount;
       Ok {| total_spent := t;
             purchase_count := purchase_count st + 1;
             products_bought := set_add product (products_bought st) |})
    customer_stats.

(** The second loop for one customer: [total_spent / purchase_count]
    divides a float by an integer, which is converted first. *)
Definition finalize_customer (st : customer_stat) : result customer_entry :=
  avg ← (if 0 <? purchase_count st then
           n ← float_of_int (purchase_count st);
           Ok (VFloat (py_round2 (PrimFloat.div (total_spent st) n)))
         else Ok (VInt 0));
  Ok {| entry_total_spent := total_spent st;
        entry_purchase_count := purchase_count st;
        entry_products_bought := products_bought st;
        avg_order_value := avg |}.

Definition customer_analysis (transactions : list dict)
  : result (list (value * customer_entry)) :=
  customer_stats ← for_each customer_step transactions [];
  customer_stats ←
    mapM (fun item : value * customer_stat =>
            e ← finalize_customer item.2; Ok (item.1, e))
         customer_stats;
  Ok (sort_desc (fun item : value * customer_entry =>
                   NFloat (entry_total_spent item.2))
                customer_stats).

(** The customer of a transaction is a string. *)
Definition has_customer (tx : dict) : bool :=
  match tx !! "CustomerID" with
  | Some (VStr _) => true
  | _ => false
  end.

(** ** The product catalog ([utils/api_handler.py]) *)

(** [int(f)] for a float: the integer part, towards zero. *)
Definition int_of_float (f : float) : result Z :=
  match Prim2SF f with
  | S754_nan => Raise ValueError
  | S754_infinity _ => Raise OverflowError
  | S754_zero _ => Ok 0
  | S754_finite s m e =>
      let n := if 0 <=? e then Z.pos m * 2 ^ e else Z.pos m / 2 ^ (- e) in
      Ok (if s then - n else n)
  end.

(** [int(v)] for an object. *)
Definition int_of (v : value) : result Z :=
  match v with
  | VNone => Raise TypeError
  | VBool b => Ok (Z.b2z b)
  | VInt z => Ok z
  | VFloat f => int_of_float f
  | VStr s => py_int s
  end.

(** The entry stored for a product of the catalog; a field that the
    product lacks is [None]. *)
Definition product_info (product : dict) : api_product :=
  {| category := dict_get product "category" VNone;
     brand := dict_get product "brand" VNone;
     rating := dict_get product "rating" VNone |}.

(** The body of the loop.  A product is a decoded JSON object; the three
    fields read here and [id] are taken to hold scalars.  A product without
    [id] is passed over; a later product with the same key replaces an
    earlier one. *)
Definition mapping_step (mapping : product_mapping) (product : dict)
  : result product_mapping :=
  match dict_get product "id" VNone with
  | VNone => Ok mapping
  | product_id =>
      k ← int_of product_id;
      Ok (<[k := product_info product]> mapping)
  end.

Definition create_product_mapping (api_products : list dict)
  : result product_mapping :=
  for_each mapping_step api_products ∅.

(** The catalog key of a product, when it has one. *)
Definition product_key (product : dict) : option Z :=
  match int_of (dict_get product "id" VNone) with
  | Ok k => Some k
  | Raise _ => None
  end.

(** A product that the loop can process: it has no [id], or one that
    converts to an integer. *)
Definition usable_id (product : dict) : bool :=
  match dict_get product "id" VNone with
  | VNone => true
  | product_id => is_ok (int_of product_id)
  end.

(** ** More devices for the proofs *)

Definition sum_Z (l : list Z) : Z := foldr Z.add 0 l.

(** The distinct values of a field, in the order in which they are first
    met. *)
Definition distinct (name : string) (txs : list dict) : list value :=
  encounter_order (map (field name) txs).

(** The updates of the other grouping loops for one transaction, when
    nothing raises. *)
Definition region_update (tx : dict) (st : region_stat) : region_stat :=
  {| total_sales := PrimFloat.add (total_sales st) (amount_of tx);
     region_transaction_count := region_transaction_count st + 1 |}.

Definition region_init : region_stat :=
  {| total_sales := 0; region_transaction_count := 0 |}.

Definition trend_update (tx : dict) (st : trend_stat) : trend_stat :=
  {| trend_revenue := PrimFloat.add (trend_revenue st) (amount_of tx);
     trend_transaction_count := trend_transaction_count st + 1;
     trend_customers := set_add (field "CustomerID" tx) (trend_customers st) |}.

Definition trend_init : trend_stat :=
  {| trend_revenue := 0; trend_transaction_count := 0; trend_customers := [] |}.

Definition customer_update (tx : dict) (st : customer_stat) : customer_stat :=
  {| total_spent := PrimFloat.add (total_spent st) (amount_of tx);
     purchase_count := purchase_count st + 1;
     products_bought := set_add (field "ProductName" tx) (products_bought st) |}.

Definition customer_init : customer_stat :=
  {| total_spent := 0; purchase_count := 0; products_bought := [] |}.

(** The percentage of a region total in an overall total, as
    [region_wise_sales] computes it. *)
Definition percentage_of (part total : float) : value :=
  if PrimFloat.ltb 0%float total then
    VFloat (py_round2 (PrimFloat.mul (PrimFloat.div part total) 100%float))
  else VInt 0.

(** The order of two dates that are strings. *)
Definition date_lt (a b : value) : Prop :=
  match a, b with
  | VStr s, VStr t => String.ltb s t = true
  | _, _ => False
  end.

(** The purchase count of every customer fits the float format, so that
    the average can be computed; this fails only for a list of more than
    10^308 transactions. *)
Definition counts_fit (txs : list dict) : Prop :=
  Forall (fun tx =>
            is_ok (float_of_int
                     (len (group "CustomerID" (field "CustomerID" tx) txs)))
            = true) txs.

(** A float that is a number (not NaN). *)
Definition is_number (f : float) : bool := PrimFloat.eqb f f.

(** The entry of a region in the result. *)
Definition region_entry_of (txs : list dict) (r : value) : region_entry :=
  {| entry_total_sales := sum_amounts (group "Region" r txs);
     entry_transaction_count := len (group "Region" r txs);
     entry_percentage :=
       percentage_of (sum_amounts (group "Region" r txs)) (sum_amounts txs) |}.

(** An object that is a string. *)
Definition is_str (v : value) : Prop :=
  match v with VStr _ => True | _ => False end.

(** The entry of a date in the result of [daily_sales_trend]. *)
Definition trend_entry_of (txs : list dict) (d : value) : trend_entry :=
  {| daily_revenue := sum_amounts (group "Date" d txs);
     daily_transaction_count := len (group "Date" d txs);
     unique_customers := len (distinct "CustomerID" (group "Date" d txs)) |}.

(** [float(z)] for a count that fits the format. *)
Definition count_float (z : Z) : float :=
  match float_of_int z with
  | Ok f => f
  | Raise _ => 0%float
  end.

(** The entry of a customer in the result of [customer_analysis]. *)
Definition customer_entry_of (txs : list dict) (c : value) : customer_entry :=
  {| entry_total_spent := sum_amounts (group "CustomerID" c txs);
     entry_purchase_count := len (group "CustomerID" c txs);
     entry_products_bought := distinct "ProductName" (group "CustomerID" c txs);
     avg_order_value :=
       VFloat (py_round2
                 (PrimFloat.div (sum_amounts (group "CustomerID" c txs))
                    (count_float (len (group "CustomerID" c txs))))) |}.

(** A float specification that is zero, positive or plus infinity. *)
Definition sf_nonneg (x : spec_float) : Prop :=
  match x with
  | S754_zero _ | S754_finite false _ _ | S754_infinity false => True
  | _ => False
  end.

(** The unit price of a transaction is a finite number: neither an
    infinity nor NaN. *)
Definition finite_price (tx : dict) : bool :=
  match tx !! "UnitPrice" with
  | Some (VFloat up) =>
      PrimFloat.ltb up infinity && PrimFloat.ltb neg_infinity up
  | _ => false
  end.

(** ** Revenues and percentages in the words of the specification *)

(** The revenue of a transaction read off its fields: the quantity, as a
    float, times the unit price. *)
Definition line_amount (tx : dict) : float :=
  match tx !! "Quantity", tx !! "UnitPrice" with
  | Some (VInt q), Some (VFloat up) => PrimFloat.mul (count_float q) up
  | _, _ => 0%float
  end.

(** The revenue of a list of transactions, added up from the left in input
    order starting from zero. *)
Definition total_of (txs : list dict) : float :=
  fold_left (fun acc tx => PrimFloat.add acc (line_amount tx)) txs 0%float.

Definition date_revenue (d : value) (txs : list dict) : float :=
  total_of (group "Date" d txs).





(* ================================================================== *)
(** * Properties *)
(* ================================================================== *)

(** ** The order of floats *)

Section FloatOrder.

Implicit Types (a b c : spec_float) (x y z : float).

Ltac cmp_cases :=
  repeat match goal with
  | |- context [Z.compare ?u ?v] => destruct (Z.compare_spec u v)
  | H : context [Z.compare ?u ?v] |- _ => destruct (Z.compare_spec u v)
  | |- context [Pos.compare_cont Eq ?u ?v] =>
      change (Pos.compare_cont Eq u v) with (Pos.compare u v);
      destruct (Pos.compare_spec u v)
  | H : context [Pos.compare_cont Eq ?u ?v] |- _ =>
      change (Pos.compare_cont Eq u v) with (Pos.compare u v) in H;
      destruct (Pos.compare_spec u v)
  end.

Ltac sf_cases a b c :=
  destruct a as [[]|[]| |[] ? ?], b as [[]|[]| |[] ? ?], c as [[]|[]| |[] ? ?];
  simpl; try congruence;
  intros; cmp_cases; simpl in *; subst; try congruence; try lia.

Lemma SFcompare_lt_trans a b c :
  SFcompare a b = Some Lt -> SFcompare b c = Some Lt -> SFcompare a c = Some Lt.
Proof. sf_cases a b c. Qed.

Lemma SFcompare_lt_eq a b c :
  SFcompare a b = Some Lt -> SFcompare c b = Some Eq -> SFcompare a c = Some Lt.
Proof. sf_cases a b c. Qed.

Lemma SFcompare_irrefl a : SFcompare a a <> Some Lt.
Proof.
  destruct a as [[]|[]| |[] ? ?]; simpl; try congruence;
    rewrite Z.compare_refl, Pos.compare_cont_refl; simpl; congruence.
Qed.

Lemma SFcompare_total a b :
  SFcompare a a = Some Eq -> SFcompare b b = Some Eq ->
  SFcompare a b <> Some Lt ->
  SFcompare b a = Some Lt \/ SFcompare b a = Some Eq.
Proof.
  destruct a as [[]|[]| |[] ? ?], b as [[]|[]| |[] ? ?];
  simpl; try congruence; try tauto;
  intros; cmp_cases; simpl in *; subst; try congruence; try lia; try tauto.
Qed.

Lemma float_ltb_lt x y :
  PrimFloat.ltb x y = true <-> SFcompare (Prim2SF x) (Prim2SF y) = Some Lt.
Proof.
  rewrite FloatAxioms.ltb_spec. unfold SFltb.
  destruct (SFcompare _ _) as [[]|]; split; congruence.
Qed.

Lemma float_eqb_eq x y :
  PrimFloat.eqb x y = true <-> SFcompare (Prim2SF x) (Prim2SF y) = Some Eq.
Proof.
  rewrite FloatAxioms.eqb_spec. unfold SFeqb.
  destruct (SFcompare _ _) as [[]|]; split; congruence.
Qed.

Lemma float_ltb_irrefl x : PrimFloat.ltb x x = false.
Proof.
  destruct (PrimFloat.ltb x x) eqn:E; [|done].
  apply float_ltb_lt in E. by apply SFcompare_irrefl in E.
Qed.

Lemma float_ltb_trans x y z :
  PrimFloat.ltb x y = true -> PrimFloat.ltb y z = true ->
  PrimFloat.ltb x z = true.
Proof. rewrite !float_ltb_lt. apply SFcompare_lt_trans. Qed.

Lemma float_ltb_eqb x y z :
  PrimFloat.ltb x y = true -> PrimFloat.eqb z y = true ->
  PrimFloat.ltb x z = true.
Proof. rewrite !float_ltb_lt, float_eqb_eq. apply SFcompare_lt_eq. Qed.

(** Two floats that are numbers are comparable. *)
Lemma float_leb_of_not_ltb x y :
  PrimFloat.eqb x x = true -> PrimFloat.eqb y y = true ->
  PrimFloat.ltb x y = false -> PrimFloat.leb y x = true.
Proof.
  rewrite !float_eqb_eq. intros Hx Hy Hlt.
  assert (H : SFcompare (Prim2SF x) (Prim2SF y) <> Some Lt).
  { intros H. apply float_ltb_lt in H. congruence. }
  rewrite FloatAxioms.leb_spec. unfold SFleb.
  destruct (SFcompare_total _ _ Hx Hy H) as [-> | ->]; done.
Qed.

(** Of two numbers that are neither in order nor equal, the second is the
    smaller. *)
Lemma float_ltb_of_not x y :
  PrimFloat.eqb x x = true -> PrimFloat.eqb y y = true ->
  PrimFloat.ltb x y = false -> PrimFloat.eqb y x = false ->
  PrimFloat.ltb y x = true.
Proof.
  rewrite !float_eqb_eq. intros Hx Hy Hlt Hne.
  assert (H : SFcompare (Prim2SF x) (Prim2SF y) <> Some Lt).
  { intros H. apply float_ltb_lt in H. congruence. }
  apply float_ltb_lt.
  destruct (SFcompare_total _ _ Hx Hy H) as [E|E]; [done|].
  apply float_eqb_eq in E. congruence.
Qed.

(** For a float that is a number, not being [<= 0] is being [> 0]. *)
Lemma float_not_leb_zero x :
  PrimFloat.eqb x x = true ->
  (PrimFloat.leb x 0%float = false <-> PrimFloat.ltb 0%float x = true).
Proof.
  intros Hx. rewrite FloatAxioms.leb_spec, FloatAxioms.ltb_spec.
  apply float_eqb_eq in Hx. unfold SFleb, SFltb.
  change (Prim2SF 0%float) with (S754_zero false).
  destruct (Prim2SF x) as [[]|[]| |[] ? ?]; simpl in *; split; congruence.
Qed.

End FloatOrder.

(** ** Properties of enrichment *)

Section Enrichment.

Implicit Types (tx : dict) (mapping : product_mapping) (s : string).

Lemma all_digits_string_of_uint (d : Decimal.uint) :
  all_digits (NilEmpty.string_of_uint d).
Proof.
  unfold all_digits.
  induction d; simpl; constructor; auto.
Qed.

Lemma string_of_uint_nonempty (d : Decimal.uint) :
  d <> Decimal.Nil -> NilEmpty.string_of_uint d <> EmptyString.
Proof. destruct d; simpl; congruence. Qed.

Lemma digit_not_space a : is_digit a = true -> is_space a = false.
Proof.
  unfold is_digit, is_space. intros H.
  apply andb_true_iff in H as [H1 H2].
  apply N.leb_le in H1, H2.
  apply orb_false_iff; split.
  - apply andb_false_iff. right. apply N.leb_gt. lia.
  - apply N.eqb_neq. lia.
Qed.

Lemma digit_neq a c :
  is_digit a = true -> is_digit c = false -> Ascii.eqb a c = false.
Proof.
  intros Ha Hc. destruct (Ascii.eqb_spec a c) as [->|]; congruence.
Qed.

Lemma remove_char_digits c s :
  is_digit c = false -> all_digits s -> remove_char c s = s.
Proof.
  intros Hc. unfold all_digits.
  induction s as [|a s IH]; simpl; intros H; [done|].
  inversion H; subst.
  rewrite (digit_neq a c) by done. by rewrite IH.
Qed.

Lemma lstrip_digits s : all_digits s -> lstrip s = s.
Proof.
  destruct s as [|a s]; simpl; [done|].
  intros H. inversion H; subst. by rewrite digit_not_space.
Qed.

Lemma rstrip_digits s : all_digits s -> rstrip s = s.
Proof.
  unfold all_digits.
  induction s as [|a s IH]; simpl; intros H; [done|].
  inversion H; subst. rewrite IH by done.
  rewrite digit_not_space by done. by destruct s.
Qed.

Lemma literal_digits_digits s :
  all_digits s -> literal_digits true s = Some s.
Proof.
  unfold all_digits.
  induction s as [|a s IH]; simpl; intros H; [done|].
  inversion H; subst. rewrite H2, IH by done. done.
Qed.

(** On a non-empty string of decimal digits [int] is the numeral's value:
    nothing is stripped, there is no sign and no underscore. *)
Lemma py_int_numeral (d : Decimal.uint) :
  d <> Decimal.Nil ->
  py_int (NilEmpty.string_of_uint d) = Ok (Z.of_uint d).
Proof.
  intros Hd.
  pose proof (all_digits_string_of_uint d) as Hall.
  pose proof (string_of_uint_nonempty d Hd) as Hne.
  unfold py_int, strip.
  rewrite lstrip_digits, rstrip_digits by done.
  destruct (NilEmpty.string_of_uint d) as [|a s] eqn:E; [done|].
  assert (Ha : is_digit a = true) by (inversion Hall; done).
  assert (Hs : all_digits s) by (inversion Hall; done).
  assert (Hsign : (if Ascii.eqb a "-" then true else Ascii.eqb a "+") = false).
  { rewrite !(digit_neq a) by done. done. }
  assert (Hlit : literal_digits false (String a s) = Some (String a s)).
  { simpl. rewrite Ha, literal_digits_digits by done. done. }
  assert (Hbody :
    match String a s with
    | String "-" r => (true, r)
    | String "+" r => (false, r)
    | _ => (false, String a s)
    end = (false, String a s)).
  { destruct (Ascii.eqb_spec a "-") as [->|Hm]; [done|].
    destruct (Ascii.eqb_spec a "+") as [->|Hp]; [done|].
    destruct a as [[] [] [] [] [] [] [] []]; try done. }
  rewrite Hbody, Hlit, <- E, NilEmpty.usu. done.
Qed.

Lemma lstrip_keeps (c : ascii) s :
  is_space c = false -> In c (list_ascii_of_string s) ->
  In c (list_ascii_of_string (lstrip s)).
Proof.
  intros Hc. induction s as [|a s IH]; simpl; [done|].
  intros [->|H].
  - rewrite Hc. by left.
  - destruct (is_space a); [by apply IH|by right].
Qed.

Lemma rstrip_keeps (c : ascii) s :
  is_space c = false -> In c (list_ascii_of_string s) ->
  In c (list_ascii_of_string (rstrip s)).
Proof.
  intros Hc. induction s as [|a s IH]; simpl; [done|].
  intros [->|H].
  - destruct (rstrip s); [rewrite Hc|]; by left.
  - specialize (IH H). destruct (rstrip s); [done|]. by right.
Qed.

Lemma literal_digits_foreign (c : ascii) s : forall prev,
  is_digit c = false -> Ascii.eqb c "_" = false ->
  In c (list_ascii_of_string s) -> literal_digits prev s = None.
Proof.
  induction s as [|a s IH]; intros prev Hd Hu; simpl; [done|].
  intros [->|H].
  - by rewrite Hd, Hu.
  - destruct (is_digit a); [by rewrite IH|].
    destruct (Ascii.eqb a "_"); [|done].
    destruct prev; [by apply IH|done].
Qed.

(** A character that is neither a digit, a sign, an underscore nor
    whitespace of [int] makes the literal invalid wherever it stands. *)
Lemma py_int_foreign (c : ascii) s :
  is_space c = false -> is_digit c = false ->
  c <> "_"%char -> c <> "-"%char -> c <> "+"%char ->
  In c (list_ascii_of_string s) -> py_int s = Raise ValueError.
Proof.
  intros Hs Hd Hu Hm Hp Hin. unfold py_int.
  assert (Hb : In c (list_ascii_of_string (strip s))).
  { unfold strip. by apply rstrip_keeps, lstrip_keeps. }
  assert (Hlit : forall digits, In c (list_ascii_of_string digits) ->
            literal_digits false digits = None).
  { intros digits Hdg. apply (literal_digits_foreign c); [done| |done].
    by apply Ascii.eqb_neq. }
  destruct (strip s) as [|a r]; [done|].
  destruct (Ascii.eqb_spec a "-") as [->|Ha1].
  { destruct Hb as [Hb|Hb]; [congruence|]. by rewrite (Hlit r Hb). }
  destruct (Ascii.eqb_spec a "+") as [->|Ha2].
  { destruct Hb as [Hb|Hb]; [congruence|]. by rewrite (Hlit r Hb). }
  assert (Hbody :
    match String a r with
    | String "-" r' => (true, r')
    | String "+" r' => (false, r')
    | _ => (false, String a r)
    end = (false, String a r)).
  { destruct a as [[] [] [] [] [] [] [] []]; try done. }
  rewrite Hbody. by rewrite (Hlit (String a r) Hb).
Qed.

(** The separators 28 to 31 are whitespace for [str.strip] but not for
    [int]: a literal that holds one is rejected. *)
Lemma py_int_separator (c : ascii) s :
  (28 <= N_of_ascii c <= 31)%N ->
  In c (list_ascii_of_string s) -> py_int s = Raise ValueError.
Proof.
  intros [Hlo Hhi]. apply py_int_foreign.
  - unfold is_space. apply orb_false_iff. split.
    + apply andb_false_iff. right. apply N.leb_gt. lia.
    + apply N.eqb_neq. lia.
  - unfold is_digit. apply andb_false_iff. left. apply N.leb_gt. lia.
  - intros ->. simpl in Hhi. lia.
  - intros ->. simpl in Hhi. lia.
  - intros ->. simpl in Hhi. lia.
Qed.

Lemma enrich_sales_data_fold mapping (txs acc : list dict) :
  fold_left (fun enriched_transactions tx =>
               enriched_transactions ++ [enrich_tx mapping tx]) txs acc
  = acc ++ map (enrich_tx mapping) txs.
Proof.
  revert acc. induction txs as [|tx txs IH]; intros acc; simpl.
  - by rewrite app_nil_r.
  - rewrite IH, <- app_assoc. done.
Qed.

(** The loop appends one record per transaction: the result is the
    transaction list mapped through [enrich_tx]. *)
Lemma enrich_sales_data_map mapping (txs : list dict) :
  enrich_sales_data txs mapping = map (enrich_tx mapping) txs.
Proof. unfold enrich_sales_data. by rewrite enrich_sales_data_fold. Qed.

Lemma enrich_sales_data_lookup mapping (txs : list dict) (i : nat) tx :
  txs !! i = Some tx ->
  enrich_sales_data txs mapping !! i = Some (enrich_tx mapping tx).
Proof.
  intros H. rewrite enrich_sales_data_map, list_lookup_fmap, H. done.
Qed.

Lemma api_id_of_numeral tx (d : Decimal.uint) :
  d <> Decimal.Nil ->
  tx !! "ProductID" = Some (VStr (String "P" (NilEmpty.string_of_uint d))) ->
  api_id_of tx = Ok (Z.of_uint d - 100).
Proof.
  intros Hd Hpid. unfold api_id_of, dict_get. rewrite Hpid. simpl.
  rewrite remove_char_digits by (done || apply all_digits_string_of_uint).
  rewrite py_int_numeral by done. done.
Qed.

Lemma set_api_fields_are tx c b r m :
  api_fields_are (set_api_fields tx c b r m) c b r m.
Proof.
  unfold api_fields_are, set_api_fields.
  repeat split; by simplify_map_eq.
Qed.

End Enrichment.

(** C1: a ProductID made of the prefix "P" and a decimal numeral [d] is
    looked up under the key [d - 100]; the record produced by
    [enrich_sales_data] for that transaction carries the mapped entry's
    category, brand and rating with [API_Match = True] when the key is in the
    mapping, and three nulls with [API_Match = False] when it is not. *)
Theorem enrich_sales_data_numeral
    (mapping : product_mapping) (txs : list dict) (i : nat) (tx : dict)
    (d : Decimal.uint) :
  d <> Decimal.Nil ->
  txs !! i = Some tx ->
  tx !! "ProductID" = Some (VStr (String "P" (NilEmpty.string_of_uint d))) ->
  api_id_of tx = Ok (Z.of_uint d - 100) /\
  exists e, enrich_sales_data txs mapping !! i = Some e /\
    match mapping !! (Z.of_uint d - 100) with
    | Some p => api_fields_are e (category p) (brand p) (rating p) true
    | None => api_fields_are e VNone VNone VNone false
    end.
Proof.
  intros Hd Hi Hpid.
  pose proof (api_id_of_numeral tx d Hd Hpid) as Hkey.
  split; [done|].
  exists (enrich_tx mapping tx). split.
  - by apply enrich_sales_data_lookup.
  - unfold enrich_tx. rewrite Hkey.
    destruct (mapping !! (Z.of_uint d - 100)); apply set_api_fields_are.
Qed.

(** "P101" against a catalog that holds ID 1. *)
Lemma enrich_sales_data_numeral_witness :
  let p := {| category := VStr "beauty"; brand := VStr "Essence";
              rating := VFloat 4.5 |} in
  let tx : dict := {[ "ProductID" := VStr "P101" ]} in
  api_id_of tx = Ok 1 /\
  exists e, enrich_sales_data [tx] {[ 1 := p ]} !! 0%nat = Some e /\
    api_fields_are e (VStr "beauty") (VStr "Essence") (VFloat 4.5) true.
Proof.
  intros p tx.
  assert (Hd : Decimal.D1 (Decimal.D0 (Decimal.D1 Decimal.Nil)) <> Decimal.Nil)
    by discriminate.
  pose proof (enrich_sales_data_numeral {[ 1 := p ]} [tx] 0 tx _ Hd
                eq_refl eq_refl) as H.
  vm_compute in H. vm_compute. exact H.
Defined.

(** "P999" against a catalog without ID 899: a no-match record. *)
Lemma enrich_sales_data_P999 (mapping : product_mapping) (tx : dict) :
  tx !! "ProductID" = Some (VStr "P999") ->
  mapping !! 899 = None ->
  enrich_sales_data [tx] mapping = [set_api_fields tx VNone VNone VNone false].
Proof.
  intros Hpid Hm. rewrite enrich_sales_data_map. simpl.
  unfold enrich_tx.
  rewrite (api_id_of_numeral tx (Decimal.D9 (Decimal.D9 (Decimal.D9 Decimal.Nil))))
    by done.
  change (Z.of_uint _ - 100) with 899. by rewrite Hm.
Qed.

(** C8: when extracting the numeral raises (ProductID missing, not a string,
    or not an integer literal once the "P"s are removed) the transaction
    still gets its record, with three nulls and [API_Match = False], the
    same record as a no-match; the other transactions are processed as
    usual, the result being the whole input mapped through [enrich_tx]. *)
Theorem enrich_sales_data_malformed
    (mapping : product_mapping) (txs : list dict) (i : nat) (tx : dict) :
  txs !! i = Some tx ->
  is_ok (api_id_of tx) = false ->
  enrich_sales_data txs mapping !! i
    = Some (set_api_fields tx VNone VNone VNone false) /\
  api_fields_are (set_api_fields tx VNone VNone VNone false)
    VNone VNone VNone false /\
  enrich_sales_data txs mapping = map (enrich_tx mapping) txs /\
  length (enrich_sales_data txs mapping) = length txs.
Proof.
  intros Hi Hbad. split; [|split; [|split]].
  - rewrite (enrich_sales_data_lookup mapping txs i tx Hi).
    unfold enrich_tx. by destruct (api_id_of tx).
  - apply set_api_fields_are.
  - apply enrich_sales_data_map.
  - by rewrite enrich_sales_data_map, length_map.
Qed.

(** A batch with a malformed ProductID in the middle. *)
Lemma enrich_sales_data_malformed_witness :
  let p := {| category := VStr "beauty"; brand := VNone; rating := VFloat 4.5 |} in
  let good : dict := {[ "ProductID" := VStr "P101" ]} in
  let bad : dict := {[ "ProductID" := VStr "PX-7" ]} in
  enrich_sales_data [good; bad; good] {[ 1 := p ]} !! 1%nat
    = Some (set_api_fields bad VNone VNone VNone false) /\
  api_fields_are (set_api_fields bad VNone VNone VNone false)
    VNone VNone VNone false /\
  enrich_sales_data [good; bad; good] {[ 1 := p ]}
    = map (enrich_tx {[ 1 := p ]}) [good; bad; good] /\
  length (enrich_sales_data [good; bad; good] {[ 1 := p ]}) = 3%nat.
Proof.
  intros p good bad.
  apply (enrich_sales_data_malformed {[ 1 := p ]} [good; bad; good] 1 bad).
  - reflexivity.
  - vm_compute. reflexivity.
Defined.

(** The ways the numeral can fail to parse. *)
Lemma api_id_of_failures :
  api_id_of ∅ = Raise ValueError /\
  api_id_of {[ "ProductID" := VInt 101 ]} = Raise AttributeError /\
  api_id_of {[ "ProductID" := VNone ]} = Raise AttributeError /\
  api_id_of {[ "ProductID" := VStr "P" ]} = Raise ValueError /\
  api_id_of {[ "ProductID" := VStr "P10A" ]} = Raise ValueError /\
  api_id_of {[ "ProductID" := VStr "P1 01" ]} = Raise ValueError.
Proof. vm_compute. repeat split. Qed.

(** Whitespace around the numeral is skipped as [int] does it: a tab or a
    space is, the unit separator (character 31) is not, so that "P101"
    followed by it gets the no-match record. *)
Lemma api_id_of_whitespace :
  let unit_separator := String "031" "" in
  let tab := String "009" "" in
  api_id_of {[ "ProductID" := VStr ("P101" +:+ tab) ]} = Ok 1 /\
  api_id_of {[ "ProductID" := VStr (" P101 ") ]} = Ok 1 /\
  api_id_of {[ "ProductID" := VStr ("P101" +:+ unit_separator) ]}
    = Raise ValueError /\
  api_id_of {[ "ProductID" := VStr (unit_separator +:+ "P101") ]}
    = Raise ValueError /\
  enrich_tx {[ 1 := {| category := VStr "beauty"; brand := VStr "Essence";
                       rating := VFloat 4.5 |} ]}
            {[ "ProductID" := VStr ("P101" +:+ unit_separator) ]}
    = set_api_fields {[ "ProductID" := VStr ("P101" +:+ unit_separator) ]}
        VNone VNone VNone false.
Proof.
  intros unit_separator tab.
  assert (E : api_id_of {[ "ProductID" := VStr ("P101" +:+ unit_separator) ]}
              = Raise ValueError) by (vm_compute; reflexivity).
  split; [vm_compute; reflexivity|].
  split; [vm_compute; reflexivity|].
  split; [exact E|].
  split; [vm_compute; reflexivity|].
  unfold enrich_tx. by rewrite E.
Qed.

(** C9: the result has the length of the input, its i-th record is built
    from the i-th transaction, and it agrees with that transaction on every
    key other than the four catalog fields. *)
Theorem enrich_sales_data_preserves
    (mapping : product_mapping) (txs : list dict) :
  length (enrich_sales_data txs mapping) = length txs /\
  forall (i : nat) (tx : dict), txs !! i = Some tx ->
    exists e, enrich_sales_data txs mapping !! i = Some e /\
      e = enrich_tx mapping tx /\
      forall k : string, k ∉ api_keys -> e !! k = tx !! k.
Proof.
  split.
  - by rewrite enrich_sales_data_map, length_map.
  - intros i tx Hi. exists (enrich_tx mapping tx).
    split; [by apply enrich_sales_data_lookup|]. split; [done|].
    intros k Hk. unfold api_keys in Hk.
    assert (Hne : k <> "API_Category" /\ k <> "API_Brand" /\
                  k <> "API_Rating" /\ k <> "API_Match").
    { repeat split; intros ->; apply Hk; set_solver. }
    destruct Hne as (H1 & H2 & H3 & H4).
    unfold enrich_tx.
    destruct (api_id_of tx) as [a|]; [destruct (mapping !! a)|];
      unfold set_api_fields; by rewrite !lookup_insert_ne.
Qed.

(** ** Properties of validation and filtering *)

Section Validation.

Implicit Types (tx : dict) (txs valid : list dict).

Lemma filter_r_pure {A} (p : A -> result bool) (q : A -> bool) (l : list A) :
  Forall (fun x => p x = Ok (q x)) l ->
  filter_r p l = Ok (List.filter q l).
Proof.
  induction 1 as [|x l Hx Hl IH]; simpl; [done|].
  rewrite Hx, IH. simpl. by destruct (q x).
Qed.

Lemma filter_none {A} (q : A -> bool) (l : list A) :
  (forall x, x ∈ l -> q x = false) -> List.filter q l = [].
Proof.
  induction l as [|x l IH]; simpl; intros H; [done|].
  rewrite (H x) by set_solver. apply IH. intros y Hy. apply H. set_solver.
Qed.

(** What the loop body does on a parsed transaction. *)
Lemma validate_tx_transaction_of tid date pid name q up cid region :
  let tx := transaction_of tid date pid name q up cid region in
  validate_tx tx =
    if passes_checks tid date pid name q up cid region then
      f ← float_of_int q;
      Ok (Some (<["Amount" := VFloat (PrimFloat.mul f up)]> tx))
    else Ok None.
Proof.
  intros tx. unfold validate_tx, has_required_fields, passes_checks.
  change (forallb _ required_fields) with
    (truthy (VStr tid) && (truthy (VStr date) && (truthy (VStr pid) &&
     (truthy (VStr name) && (truthy (VInt q) && (truthy (VFloat up) &&
     (truthy (VStr cid) && (truthy (VStr region) && true)))))))).
  change (getitem tx "Quantity") with (Ok (VInt q) : result value).
  change (getitem tx "UnitPrice") with (Ok (VFloat up) : result value).
  change (getitem tx "TransactionID") with (Ok (VStr tid) : result value).
  change (getitem tx "ProductID") with (Ok (VStr pid) : result value).
  change (getitem tx "CustomerID") with (Ok (VStr cid) : result value).
  simpl.
  destruct (String.eqb tid ""), (String.eqb date ""), (String.eqb pid ""),
    (String.eqb name ""), (Z.eqb q 0), (PrimFloat.eqb up 0),
    (String.eqb cid ""), (String.eqb region ""); simpl; try reflexivity.
  destruct (q <=? 0); simpl; [reflexivity|].
  destruct (PrimFloat.leb up 0); simpl; [reflexivity|].
  destruct (startswith tid "T"); simpl; [|reflexivity].
  destruct (startswith pid "P"); simpl; [|reflexivity].
  destruct (startswith cid "C"); simpl; [|reflexivity].
  unfold py_mul. simpl. by destruct (float_of_int q).
Qed.

Lemma validate_tx_validated tx v :
  parsed tx -> validate_tx tx = Ok (Some v) -> validated v.
Proof.
  intros (tid & date & pid & name & q & up & cid & region & ->).
  rewrite validate_tx_transaction_of.
  destruct (passes_checks _ _ _ _ _ _ _ _); [|done].
  destruct (float_of_int q) as [f|]; simpl; [|done].
  intros [= <-]. exists region, (PrimFloat.mul f up). split; reflexivity.
Qed.

Lemma validate_tx_total tx :
  parsed tx -> convertible tx = true -> exists v, validate_tx tx = Ok v.
Proof.
  intros (tid & date & pid & name & q & up & cid & region & ->) Hc.
  rewrite validate_tx_transaction_of.
  change (is_ok (float_of_int q) = true) in Hc.
  destruct (passes_checks _ _ _ _ _ _ _ _); [|by eexists].
  destruct (float_of_int q) as [f|]; simpl; [by eexists|done].
Qed.

Lemma validation_loop_validated txs : forall acc n valid m,
  Forall parsed txs -> Forall validated acc ->
  validation_loop txs acc n = Ok (valid, m) -> Forall validated valid.
Proof.
  induction txs as [|tx txs IH]; intros acc n valid m Hp Hacc; simpl.
  - by intros [= <- _].
  - inversion Hp as [|? ? Htx Htxs]; subst.
    destruct (validate_tx tx) as [[v|]|] eqn:E; simpl; [| |done].
    + apply IH; [done|]. apply Forall_app. split; [done|].
      constructor; [|constructor]. by eapply validate_tx_validated.
    + by apply IH.
Qed.

Lemma validation_loop_total txs : forall acc n,
  Forall parsed txs -> Forall (fun tx => convertible tx = true) txs ->
  exists valid m, validation_loop txs acc n = Ok (valid, m).
Proof.
  induction txs as [|tx txs IH]; intros acc n Hp Hc; simpl.
  - by eexists _, _.
  - inversion Hp; inversion Hc; subst.
    destruct (validate_tx_total tx) as [v ->]; [done..|]. simpl.
    destruct v; by apply IH.
Qed.

Lemma region_matches_validated r tx :
  validated tx -> region_matches r tx = Ok (region_is r tx).
Proof.
  intros (s & a & Hr & Ha). unfold region_matches, region_is, getitem.
  by rewrite Hr.
Qed.

Lemma amount_at_least_validated lo tx :
  validated tx -> amount_at_least lo tx = Ok (amount_ge lo tx).
Proof.
  intros (s & a & Hr & Ha). unfold amount_at_least, amount_ge, getitem.
  by rewrite Ha.
Qed.

Lemma amount_at_most_validated hi tx :
  validated tx -> amount_at_most hi tx = Ok (amount_le hi tx).
Proof.
  intros (s & a & Hr & Ha). unfold amount_at_most, amount_le, getitem.
  by rewrite Ha.
Qed.

Lemma Forall_list_filter {A} (P : A -> Prop) (q : A -> bool) (l : list A) :
  Forall P l -> Forall P (List.filter q l).
Proof.
  induction 1 as [|x l Hx Hl IH]; simpl; [done|].
  destruct (q x); [by constructor|done].
Qed.

Lemma region_pass_validated region valid :
  Forall validated valid -> Forall validated (region_pass region valid).
Proof.
  intros H. unfold region_pass. destruct region as [r|]; [|done].
  destruct (String.eqb r ""); [done|by apply Forall_list_filter].
Qed.

Lemma min_pass_validated lo valid :
  Forall validated valid -> Forall validated (min_pass lo valid).
Proof.
  intros H. unfold min_pass. destruct lo; [by apply Forall_list_filter|done].
Qed.

Lemma filter_by_region_validated region valid :
  Forall validated valid ->
  filter_by_region region valid
  = Ok (region_pass region valid, len valid - len (region_pass region valid)).
Proof.
  intros Hv. unfold filter_by_region, region_pass. destruct region as [r|].
  - destruct (String.eqb r ""); simpl.
    + f_equal. f_equal. lia.
    + rewrite (filter_r_pure _ (region_is r)); [done|].
      eapply Forall_impl; [done|]. intros. by apply region_matches_validated.
  - f_equal. f_equal. lia.
Qed.

Lemma filter_by_min_validated lo valid k :
  Forall validated valid ->
  filter_by_min lo valid k
  = Ok (min_pass lo valid, k + (len valid - len (min_pass lo valid))).
Proof.
  intros Hv. unfold filter_by_min, min_pass. destruct lo as [lo|].
  - rewrite (filter_r_pure _ (amount_ge lo)); [done|].
    eapply Forall_impl; [done|]. intros. by apply amount_at_least_validated.
  - f_equal. f_equal. lia.
Qed.

Lemma filter_by_max_validated hi valid k :
  Forall validated valid ->
  filter_by_max hi valid k
  = Ok (max_pass hi valid, k + (len valid - len (max_pass hi valid))).
Proof.
  intros Hv. unfold filter_by_max, max_pass. destruct hi as [hi|].
  - rewrite (filter_r_pure _ (amount_le hi)); [done|].
    eapply Forall_impl; [done|]. intros. by apply amount_at_most_validated.
  - f_equal. f_equal. lia.
Qed.

(** The filtering part of [validate_and_filter], once the validation loop
    has returned [valid] and [n]. *)
Lemma validate_and_filter_after_validation txs region lo hi valid n :
  Forall parsed txs ->
  validation_loop txs [] 0 = Ok (valid, n) ->
  let by_region := region_pass region valid in
  let by_min := min_pass lo by_region in
  let by_max := max_pass hi by_min in
  validate_and_filter txs region lo hi =
    Ok (by_max, n,
        {| total_input := len txs;
           invalid := n;
           filtered_by_region := len valid - len by_region;
           filtered_by_amount :=
             0 + (len by_region - len by_min) + (len by_min - len by_max);
           final_count := len by_max |}).
Proof.
  intros Hp Hloop by_region by_min by_max.
  assert (Hv : Forall validated valid).
  { eapply validation_loop_validated; [done| |done]. constructor. }
  assert (Hv1 : Forall validated by_region) by by apply region_pass_validated.
  assert (Hv2 : Forall validated by_min) by by apply min_pass_validated.
  unfold validate_and_filter. rewrite Hloop. simpl.
  rewrite filter_by_region_validated by done. simpl.
  rewrite filter_by_min_validated by done. simpl.
  rewrite filter_by_max_validated by done. simpl.
  done.
Qed.

End Validation.

(** The transactions that [validate_and_filter] keeps are well typed:
    they are fit for the aggregation functions. *)
Lemma validate_tx_well_typed (tx v : dict) :
  parsed tx -> validate_tx tx = Ok (Some v) -> well_typed v = true.
Proof.
  intros (tid & date & pid & name & q & up & cid & region & ->).
  rewrite validate_tx_transaction_of.
  destruct (passes_checks _ _ _ _ _ _ _ _); [|done].
  destruct (float_of_int q) as [f|] eqn:E; simpl; [|done].
  intros [= <-].
  change (is_ok (float_of_int q) = true). by rewrite E.
Qed.

Lemma validation_loop_well_typed (txs : list dict) : forall acc n valid m,
  Forall parsed txs -> Forall (fun tx => well_typed tx = true) acc ->
  validation_loop txs acc n = Ok (valid, m) ->
  Forall (fun tx => well_typed tx = true) valid.
Proof.
  induction txs as [|tx txs IH]; intros acc n valid m Hp Hacc; simpl.
  - by intros [= <- _].
  - inversion Hp as [|? ? Htx Htxs]; subst.
    destruct (validate_tx tx) as [[v|]|] eqn:E; simpl; [| |done].
    + apply IH; [done|]. apply Forall_app. split; [done|].
      constructor; [|constructor]. by eapply validate_tx_well_typed.
    + by apply IH.
Qed.

Lemma validate_and_filter_well_typed (txs : list dict) region lo hi final n s :
  Forall parsed txs ->
  validate_and_filter txs region lo hi = Ok (final, n, s) ->
  Forall (fun tx => well_typed tx = true) final.
Proof.
  intros Hp Hres.
  destruct (validation_loop txs [] 0) as [[valid m]|] eqn:Hloop.
  - rewrite (validate_and_filter_after_validation txs region lo hi valid m)
      in Hres by done.
    injection Hres as <- _ _.
    assert (Hv : Forall (fun tx => well_typed tx = true) valid).
    { eapply validation_loop_well_typed; [done| |done]. constructor. }
    unfold max_pass, min_pass, region_pass.
    destruct hi, lo, region as [r|]; try destruct (String.eqb r "");
      repeat apply Forall_list_filter; done.
  - unfold validate_and_filter in Hres. by rewrite Hloop in Hres.
Qed.

(** The validation loop on parsed transactions: the valid list gains the
    kept transaction, and the count of invalid ones grows by one for a
    rejected transaction and is unchanged for a kept one. *)
Lemma validation_loop_step (tx : dict) (txs valid : list dict) (n : Z) :
  validation_loop (tx :: txs) valid n =
    match validate_tx tx with
    | Ok (Some v) => validation_loop txs (valid ++ [v]) n
    | Ok None => validation_loop txs valid (n + 1)
    | Raise e => Raise e
    end.
Proof. simpl. by destruct (validate_tx tx) as [[v|]|]. Qed.

(** The whole loop on parsed transactions whose quantities fit the float
    format: the valid list holds the kept records in input order, each
    rejected transaction adds one to the count and leaves no record. *)
Lemma validation_loop_spec (txs : list dict) : forall valid n,
  Forall parsed txs -> Forall (fun tx => convertible tx = true) txs ->
  validation_loop txs valid n =
    Ok (valid ++ omap kept txs,
        n + len (List.filter (fun tx => negb (bool_decide (is_Some (kept tx)))) txs)).
Proof.
  induction txs as [|tx txs IH]; intros valid n Hp Hc.
  - simpl. rewrite app_nil_r. unfold len. simpl.
    by replace (n + Z.of_nat 0) with n by lia.
  - inversion Hp; inversion Hc; subst.
    rewrite validation_loop_step.
    destruct (validate_tx_total tx) as [v Hv]; [done..|].
    assert (Hk : kept tx = v) by (unfold kept; rewrite Hv; by destruct v).
    rewrite Hv. cbn [omap list_omap List.filter]. rewrite Hk.
    destruct v as [v|].
    + rewrite bool_decide_true by eauto. simpl.
      rewrite IH by done. by rewrite <- app_assoc.
    + rewrite bool_decide_false by (by intros [? ?]). simpl.
      rewrite IH by done. do 2 f_equal. unfold len. simpl length. lia.
Qed.

(** A kept record is its transaction with the amount attached. *)
Lemma kept_amount tid date pid name q up cid region v :
  kept (transaction_of tid date pid name q up cid region) = Some v ->
  exists f, float_of_int q = Ok f /\
    v = <["Amount" := VFloat (PrimFloat.mul f up)]>
          (transaction_of tid date pid name q up cid region) /\
    passes_checks tid date pid name q up cid region = true.
Proof.
  unfold kept. rewrite validate_tx_transaction_of.
  destruct (passes_checks _ _ _ _ _ _ _ _); [|done].
  destruct (float_of_int q) as [f|]; simpl; [|done].
  intros [= <-]. by exists f.
Qed.

(** The checks of the code in the words of the claim: they are the
    conditions of the claim but for the unit price, which is required not
    to be [<= 0] rather than to be [> 0]. *)
Lemma passes_checks_iff tid date pid name q up cid region :
  passes_checks tid date pid name q up cid region = true <->
  (tid <> "" /\ date <> "" /\ pid <> "" /\ name <> "" /\
   cid <> "" /\ region <> "") /\
  0 < q /\ PrimFloat.leb up 0%float = false /\
  startswith tid "T" = true /\ startswith pid "P" = true /\
  startswith cid "C" = true.
Proof.
  unfold passes_checks.
  rewrite !andb_true_iff, !negb_true_iff, !String.eqb_neq.
  rewrite Z.eqb_neq, Z.leb_gt.
  split.
  - intros ((((((((((((H1 & H2) & H3) & H4) & H5) & H6) & H7) & H8) & H9)
              & H10) & H11) & H12) & H13).
    repeat split; done.
  - intros ((H1 & H2 & H3 & H4 & H7 & H8) & H9 & H10 & H11 & H12 & H13).
    repeat split; try done; try lia.
    destruct (PrimFloat.eqb up 0) eqn:E; [|done].
    apply float_eqb_eq in E.
    rewrite FloatAxioms.leb_spec in H10. unfold SFleb in H10.
    by rewrite E in H10.
Qed.

(** C2, evaluated where the code departs from it: a parsed transaction
    whose unit price is not a number (the line
    "T1|2024-01-01|P101|Widget|5|nan|C1|North") is rejected by neither
    [UnitPrice <= 0] nor the truth test, so it enters the valid set, with a
    NaN amount and [invalid_count] left at 0, although its unit price is not
    greater than 0. *)
Theorem validate_and_filter_nan_price :
  let tx := transaction_of "T1" "2024-01-01" "P101" "Widget" 5 PrimFloat.nan
              "C1" "North" in
  PrimFloat.ltb 0%float PrimFloat.nan = false /\
  validate_and_filter [tx] None None None =
    Ok ([<["Amount" := VFloat PrimFloat.nan]> tx], 0,
        {| total_input := 1; invalid := 0; filtered_by_region := 0;
           filtered_by_amount := 0; final_count := 1 |}).
Proof.
  intros tx. split; [reflexivity|].
  assert (Hv : validate_tx tx = Ok (Some (<["Amount" := VFloat PrimFloat.nan]> tx))).
  { subst tx. rewrite validate_tx_transaction_of. reflexivity. }
  unfold validate_and_filter. rewrite validation_loop_step, Hv.
  reflexivity.
Qed.

(** Where the unit price is a number the checks are those of the claim,
    with [UnitPrice > 0]. *)
Lemma passes_checks_number tid date pid name q up cid region :
  PrimFloat.eqb up up = true ->
  passes_checks tid date pid name q up cid region = true <->
  (tid <> "" /\ date <> "" /\ pid <> "" /\ name <> "" /\
   cid <> "" /\ region <> "") /\
  0 < q /\ PrimFloat.ltb 0%float up = true /\
  startswith tid "T" = true /\ startswith pid "P" = true /\
  startswith cid "C" = true.
Proof.
  intros Hup. rewrite passes_checks_iff, (float_not_leb_zero up Hup). done.
Qed.

(** A zero quantity or a zero unit price is rejected, whatever the other
    fields are. *)
Lemma validate_tx_zero tid date pid name q up cid region :
  q = 0 \/ PrimFloat.eqb up 0%float = true ->
  validate_tx (transaction_of tid date pid name q up cid region) = Ok None.
Proof.
  intros H. rewrite validate_tx_transaction_of.
  assert (passes_checks tid date pid name q up cid region = false) as ->; [|done].
  unfold passes_checks. destruct H as [-> | ->]; simpl;
    repeat (rewrite ?andb_false_r, ?andb_false_l; simpl); done.
Qed.

(** A quantity too large for the float format: the product
    [Quantity * UnitPrice] raises and so does the function. *)
Lemma validate_and_filter_overflow :
  validate_and_filter
    [transaction_of "T1" "2024-01-01" "P101" "Widget" (2 ^ 1024) 10%float
       "C1" "North"] None None None
  = Raise OverflowError.
Proof.
  unfold validate_and_filter.
  rewrite validation_loop_step, validate_tx_transaction_of. reflexivity.
Qed.

(** C3 (as amended): on parsed transactions whose quantities fit the float
    format the validation loop returns a valid list and a count, and the
    result is that list passed through the region filter (run only for a
    non-empty region string), then the minimum-amount filter, then the
    maximum-amount filter, each on what the previous one left;
    [filtered_by_region] is the number removed by the region pass,
    [filtered_by_amount] the sum of the numbers removed by the two amount
    passes and [final_count] the length of the result.  For a non-empty
    region that no valid transaction has, the result is empty and
    [filtered_by_region] is the number of valid transactions. *)
Theorem validate_and_filter_sequential
    (txs : list dict) (region : option string) (lo hi : option float) :
  Forall parsed txs ->
  Forall (fun tx => convertible tx = true) txs ->
  (exists valid n,
     validation_loop txs [] 0 = Ok (valid, n) /\
     let by_region := region_pass region valid in
     let by_min := min_pass lo by_region in
     let by_max := max_pass hi by_min in
     validate_and_filter txs region lo hi =
       Ok (by_max, n,
           {| total_input := len txs;
              invalid := n;
              filtered_by_region := len valid - len by_region;
              filtered_by_amount :=
                0 + (len by_region - len by_min) + (len by_min - len by_max);
              final_count := len by_max |})) /\
  (forall r, r <> "" -> unmatched_region_empties txs r lo hi).
Proof.
  intros Hp Hc. split.
  - destruct (validation_loop_total txs [] 0 Hp Hc) as (valid & n & Hloop).
    exists valid, n. split; [done|].
    by apply validate_and_filter_after_validation.
  - intros r Hr valid n Hloop Hnone.
    pose proof (validate_and_filter_after_validation
                  txs (Some r) lo hi valid n Hp Hloop) as H.
    cbv zeta in H.
    assert (Hreg : region_pass (Some r) valid = []).
    { unfold region_pass. apply String.eqb_neq in Hr. rewrite Hr.
      by apply filter_none. }
    rewrite Hreg in H.
    assert (Hmin : min_pass lo [] = []) by by destruct lo.
    assert (Hmax : max_pass hi [] = []) by by destruct hi.
    rewrite Hmin, Hmax in H.
    eexists. split; [exact H|]. simpl. split; [|done].
    unfold len. simpl. lia.
Qed.

(** Two sales in the North filtered by a region nobody has. *)
Lemma validate_and_filter_sequential_witness :
  let t1 := transaction_of "T1" "2024-01-01" "P101" "Widget" 5 10%float
              "C1" "North" in
  let t2 := transaction_of "T2" "2024-01-02" "P102" "Gadget" 0 3%float
              "C2" "North" in
  (exists valid n,
     validation_loop [t1; t2] [] 0 = Ok (valid, n) /\
     let by_region := region_pass (Some "South") valid in
     let by_min := min_pass (Some 20%float) by_region in
     let by_max := max_pass None by_min in
     validate_and_filter [t1; t2] (Some "South") (Some 20%float) None =
       Ok (by_max, n,
           {| total_input := len [t1; t2];
              invalid := n;
              filtered_by_region := len valid - len by_region;
              filtered_by_amount :=
                0 + (len by_region - len by_min) + (len by_min - len by_max);
              final_count := len by_max |})) /\
  (forall r, r <> "" ->
     unmatched_region_empties [t1; t2] r (Some 20%float) None).
Proof.
  intros t1 t2.
  apply (validate_and_filter_sequential [t1; t2] (Some "South")
           (Some 20%float) None).
  - repeat constructor; by eexists _, _, _, _, _, _, _, _.
  - repeat constructor.
Defined.

(** C3 as stated fails for the empty region string: [if region:] skips the
    region pass, so the valid transaction stays although no valid
    transaction has the region "". *)
Lemma validate_and_filter_empty_region :
  let t1 := transaction_of "T1" "2024-01-01" "P101" "Widget" 5 10%float
              "C1" "North" in
  ~ unmatched_region_empties [t1] "" None None.
Proof.
  intros t1 H.
  assert (Hv : validate_tx t1 = Ok (Some (<["Amount" := VFloat 50%float]> t1))).
  { subst t1. rewrite validate_tx_transaction_of. reflexivity. }
  assert (Hloop : validation_loop [t1] [] 0
                  = Ok ([<["Amount" := VFloat 50%float]> t1], 0)).
  { rewrite validation_loop_step, Hv. reflexivity. }
  destruct (H _ _ Hloop) as (s & Hs & _).
  - intros tx Htx. apply list_elem_of_singleton in Htx as ->. reflexivity.
  - unfold validate_and_filter in Hs. rewrite Hloop in Hs.
    cbn [mbind result_bind filter_by_region filter_by_min filter_by_max
         String.eqb negb] in Hs.
    congruence.
Qed.


(** ** Grouping loops *)

Section Grouping.

Context {A V : Type} (key : A -> value) (upd : A -> V -> V) (init : V).

Implicit Types (k : value) (xs : list A) (ks : list value) (d : odict V).

Lemma upsert_Ok k (f : V -> result V) (g : V -> V) d :
  (forall v, f v = Ok (g v)) ->
  upsert k init f d = Ok (upsert_pure k init g d).
Proof.
  intros Hf. induction d as [|[k' v] d IH]; simpl.
  - by rewrite Hf.
  - destruct (decide (k' = k)); [by rewrite Hf|by rewrite IH].
Qed.

Lemma for_each_pure {S} (body : S -> A -> result S) (pbody : S -> A -> S) xs :
  forall s,
  Forall (fun x => forall s, body s x = Ok (pbody s x)) xs ->
  for_each body xs s = Ok (fold_left pbody xs s).
Proof.
  induction xs as [|x xs IH]; intros s Hall; simpl; [done|].
  inversion Hall as [|? ? Hx Hxs]; subst. rewrite Hx. simpl. by apply IH.
Qed.

Lemma encounter_order_snoc ks k :
  encounter_order (ks ++ [k]) =
    if decide (k ∈ encounter_order ks) then encounter_order ks
    else encounter_order ks ++ [k].
Proof. unfold encounter_order. by rewrite fold_left_app. Qed.

Lemma elem_of_encounter_order ks k : k ∈ encounter_order ks <-> k ∈ ks.
Proof.
  induction ks as [|k' ks IH] using rev_ind; [done|].
  rewrite encounter_order_snoc. destruct (decide (k' ∈ encounter_order ks)).
  - rewrite elem_of_app, list_elem_of_singleton, IH.
    split; [tauto|]. intros [?| ->]; [done|]. by apply IH.
  - by rewrite !elem_of_app, IH.
Qed.

Lemma NoDup_encounter_order ks : NoDup (encounter_order ks).
Proof.
  induction ks as [|k' ks IH] using rev_ind; [constructor|].
  rewrite encounter_order_snoc. destruct (decide (k' ∈ encounter_order ks)).
  - done.
  - apply NoDup_app. split; [done|]. split; [|apply NoDup_singleton].
    intros x Hx Hx'. apply list_elem_of_singleton in Hx'. by subst.
Qed.

Lemma accumulated_snoc k xs x :
  accumulated key upd init k (xs ++ [x]) =
    if decide (key x = k) then upd x (accumulated key upd init k xs)
    else accumulated key upd init k xs.
Proof.
  unfold accumulated. rewrite filter_app, fold_left_app.
  destruct (decide (key x = k)) as [E|E].
  - by rewrite filter_cons_True.
  - rewrite filter_cons_False by done. simpl. done.
Qed.

Lemma accumulated_absent k xs :
  k ∉ map key xs -> accumulated key upd init k xs = init.
Proof.
  intros Hk. unfold accumulated.
  assert (E : filter (fun x => key x = k) xs = []); [|by rewrite E].
  induction xs as [|x xs IH]; [done|].
  rewrite filter_cons_False.
  - apply IH. intros H. apply Hk. simpl. by right.
  - intros H. apply Hk. simpl. rewrite <- H. by left.
Qed.

Lemma upsert_pure_fresh k (g : V -> V) (a : value -> V) ks :
  k ∉ ks ->
  upsert_pure k init g (map (fun k' => (k', a k')) ks)
  = map (fun k' => (k', a k')) ks ++ [(k, g init)].
Proof.
  induction ks as [|k' ks IH]; intros Hk; simpl; [done|].
  destruct (decide (k' = k)) as [->|]; [set_solver|].
  rewrite IH by set_solver. done.
Qed.

Lemma upsert_pure_present k (g : V -> V) (a : value -> V) ks :
  NoDup ks -> k ∈ ks ->
  upsert_pure k init g (map (fun k' => (k', a k')) ks)
  = map (fun k' => (k', if decide (k = k') then g (a k') else a k')) ks.
Proof.
  induction 1 as [|k' ks Hk' Hnd IH]; intros Hk; simpl; [set_solver|].
  destruct (decide (k' = k)) as [->|Hne].
  - rewrite decide_True by done. f_equal.
    apply map_ext_in. intros k' Hin. apply list_elem_of_In in Hin.
    rewrite decide_False; [done|]. intros ->. done.
  - rewrite (decide_False (P := k = k')) by done.
    rewrite IH; [done|].
    apply elem_of_cons in Hk as [Hk|Hk]; [by subst|done].
Qed.

(** What a grouping loop builds: one entry per key, in encounter order,
    holding what the updates of that key's elements accumulate. *)
Lemma group_spec xs :
  fold_left (fun d x => upsert_pure (key x) init (upd x) d) xs []
  = map (fun k => (k, accumulated key upd init k xs))
        (encounter_order (map key xs)).
Proof.
  induction xs as [|x xs IH] using rev_ind; [done|].
  rewrite fold_left_app. simpl. rewrite IH.
  rewrite map_app. simpl. rewrite encounter_order_snoc.
  destruct (decide (key x ∈ encounter_order (map key xs))) as [Hin|Hout].
  - rewrite upsert_pure_present by (done || apply NoDup_encounter_order).
    apply map_ext. intros k. by rewrite accumulated_snoc.
  - rewrite upsert_pure_fresh by done.
    rewrite map_app. simpl. f_equal.
    + apply map_ext_in. intros k Hk. apply list_elem_of_In in Hk.
      rewrite accumulated_snoc, decide_False; [done|].
      intros E. apply Hout. by rewrite E.
    + rewrite accumulated_snoc, decide_True by done.
      rewrite accumulated_absent; [done|].
      intros H. apply Hout. by apply elem_of_encounter_order.
Qed.

End Grouping.

(** ** Properties of the aggregation functions *)

Section Aggregation.

Implicit Types (tx : dict) (txs : list dict).

(** The in-place additions of the loops are [+] with a float, respectively
    a number, on the left. *)
Lemma py_add_float (acc : float) (v : value) :
  py_add (VFloat acc) v = f ← float_iadd acc v; Ok (VFloat f).
Proof.
  unfold py_add, float_iadd, to_float. simpl.
  destruct (as_num v) as [[z|g]|]; try done. simpl.
  by destruct (float_of_int z).
Qed.

Lemma py_add_int (a : Z) (v : value) :
  py_add (VInt a) v =
    n ← num_iadd (NInt a) v;
    Ok (match n with NInt z => VInt z | NFloat f => VFloat f end).
Proof.
  unfold py_add, num_iadd. simpl.
  destruct (as_num v) as [[z|g]|]; try done. simpl.
  by destruct (float_of_int a).
Qed.

Lemma well_typed_inv tx :
  well_typed tx = true ->
  exists date product region q up fq,
    tx !! "Date" = Some (VStr date) /\
    tx !! "ProductName" = Some (VStr product) /\
    tx !! "Region" = Some (VStr region) /\
    tx !! "Quantity" = Some (VInt q) /\
    tx !! "UnitPrice" = Some (VFloat up) /\
    float_of_int q = Ok fq.
Proof.
  unfold well_typed. intros H.
  destruct (tx !! "Date") as [[| | | |date]|]; try done.
  destruct (tx !! "ProductName") as [[| | | |product]|]; try done.
  destruct (tx !! "Region") as [[| | | |region]|]; try done.
  destruct (tx !! "Quantity") as [[| |q| |]|]; try done.
  destruct (tx !! "UnitPrice") as [[| | |up|]|]; try done.
  destruct (float_of_int q) as [fq|] eqn:E; [|done].
  by exists date, product, region, q, up, fq.
Qed.

(** On a well-typed transaction the product is a float and nothing
    raises. *)
Lemma sale_value_well_typed tx :
  well_typed tx = true -> sale_value tx = Ok (VFloat (amount_of tx)).
Proof.
  intros (date & product & region & q & up & fq & _ & _ & _ & Hq & Hup & Hfq)
    %well_typed_inv.
  unfold amount_of, sale_value, getitem. rewrite Hq, Hup. simpl.
  unfold py_mul. simpl. rewrite Hfq. done.
Qed.

Lemma group_well_typed name k txs :
  Forall (fun tx => well_typed tx = true) txs ->
  Forall (fun tx => well_typed tx = true) (group name k txs).
Proof.
  rewrite !Forall_forall. intros H tx Htx.
  apply list_elem_of_filter in Htx as [_ Htx]. auto.
Qed.

(** On a well-typed transaction the product computed by the code is the
    quantity, as a float, times the unit price. *)
Lemma amount_of_line_amount tx :
  well_typed tx = true -> amount_of tx = line_amount tx.
Proof.
  intros (date & product & region & q & up & fq & _ & _ & _ & Hq & Hup & Hfq)
    %well_typed_inv.
  unfold amount_of, sale_value, getitem, line_amount, count_float.
  rewrite Hq, Hup. simpl. unfold py_mul. simpl. rewrite Hfq. done.
Qed.

Lemma sum_amounts_total_of txs :
  Forall (fun tx => well_typed tx = true) txs -> sum_amounts txs = total_of txs.
Proof.
  intros Hwt. unfold sum_amounts, total_of. generalize 0%float.
  induction Hwt as [|tx txs Htx Htxs IH]; intros acc; simpl; [done|].
  rewrite (amount_of_line_amount tx Htx). apply IH.
Qed.

Lemma day_revenue_date_revenue d txs :
  Forall (fun tx => well_typed tx = true) txs ->
  day_revenue d txs = date_revenue d txs.
Proof.
  intros Hwt. unfold day_revenue, date_revenue.
  by apply sum_amounts_total_of, group_well_typed.
Qed.

Lemma peak_step_well_typed tx (d : odict day_total) :
  well_typed tx = true ->
  peak_step d tx = Ok (upsert_pure (field "Date" tx) day_init (day_update tx) d).
Proof.
  intros Hwt. pose proof (sale_value_well_typed tx Hwt) as Hsale.
  destruct (well_typed_inv tx Hwt)
    as (date & product & region & q & up & fq & Hd & _).
  unfold peak_step, getitem, field. rewrite Hd, Hsale. simpl.
  by apply upsert_Ok.
Qed.

Lemma day_update_fold (l : list dict) (st : day_total) :
  fold_left (fun v x => day_update x v) l st =
    {| revenue :=
         fold_left (fun acc tx => PrimFloat.add acc (amount_of tx)) l (revenue st);
       transaction_count := transaction_count st + len l |}.
Proof.
  revert st. induction l as [|tx l IH]; intros st; simpl.
  - destruct st. simpl. f_equal. unfold len. simpl. lia.
  - rewrite IH. simpl. f_equal. unfold len. simpl length. lia.
Qed.

Lemma accumulated_day d txs :
  accumulated (field "Date") day_update day_init d txs =
    {| revenue := day_revenue d txs; transaction_count := day_count d txs |}.
Proof.
  unfold accumulated. rewrite day_update_fold. simpl.
  unfold day_revenue, day_count, sum_amounts, group. done.
Qed.

(** The dictionary [daily_totals] at the end of the loop. *)
Lemma daily_totals_spec txs :
  Forall (fun tx => well_typed tx = true) txs ->
  for_each peak_step txs [] =
    Ok (map (fun d => (d, {| revenue := day_revenue d txs;
                             transaction_count := day_count d txs |}))
            (encounter_order (map (field "Date") txs))).
Proof.
  intros Hwt.
  rewrite (for_each_pure peak_step
             (fun d tx => upsert_pure (field "Date" tx) day_init (day_update tx) d)).
  - rewrite group_spec. f_equal. apply map_ext. intros d.
    by rewrite accumulated_day.
  - eapply Forall_impl; [exact Hwt|]. intros tx Htx s.
    by apply peak_step_well_typed.
Qed.

Lemma max_from_snoc {A} (key : A -> float) (best x : A) (l : list A) :
  max_from key best (l ++ [x]) =
    if PrimFloat.ltb (key (max_from key best l)) (key x) then x
    else max_from key best l.
Proof. revert best. induction l as [|y l IH]; intros best; simpl; [done|apply IH]. Qed.

(** [max] returns the first item that no other item exceeds: every item
    before it has a key that is neither greater nor equal, and no item
    after it has a greater key. *)
Lemma max_from_spec {A} (key : A -> float) (best : A) (l : list A) :
  exists l1 l2,
    best :: l = l1 ++ max_from key best l :: l2 /\
    (forall y, y ∈ l1 ->
       PrimFloat.ltb (key (max_from key best l)) (key y) = false /\
       PrimFloat.eqb (key y) (key (max_from key best l)) = false) /\
    (forall y, y ∈ l2 ->
       PrimFloat.ltb (key (max_from key best l)) (key y) = false).
Proof.
  induction l as [|x l IH] using rev_ind.
  - exists [], []. simpl. split; [done|]. split; intros y Hy; set_solver.
  - destruct IH as (l1 & l2 & Hdec & H1 & H2).
    rewrite max_from_snoc. set (r := max_from key best l) in *.
    destruct (PrimFloat.ltb (key r) (key x)) eqn:Hrx.
    + exists (best :: l), []. split; [done|].
      split; [|intros y Hy; set_solver].
      intros y Hy.
      assert (Hry : PrimFloat.ltb (key r) (key y) = false).
      { rewrite Hdec in Hy.
        apply elem_of_app in Hy as [Hy|Hy]; [by apply H1|].
        apply elem_of_cons in Hy as [->|Hy]; [apply float_ltb_irrefl|by apply H2]. }
      split.
      * destruct (PrimFloat.ltb (key x) (key y)) eqn:E; [|done].
        by rewrite (float_ltb_trans _ _ _ Hrx E) in Hry.
      * destruct (PrimFloat.eqb (key y) (key x)) eqn:E; [|done].
        by rewrite (float_ltb_eqb _ _ _ Hrx E) in Hry.
    + exists l1, (l2 ++ [x]). split.
      * change ((best :: l) ++ [x] = l1 ++ r :: l2 ++ [x]).
        rewrite Hdec, <- app_assoc. done.
      * split; [done|]. intros y Hy.
        apply elem_of_app in Hy as [Hy|Hy]; [by apply H2|].
        apply list_elem_of_singleton in Hy as ->. done.
Qed.

Lemma encounter_order_nonempty (ks : list value) :
  ks <> [] -> encounter_order ks <> [].
Proof.
  destruct ks as [|k ks]; [done|]. intros _ E.
  assert (H : k ∈ encounter_order (k :: ks)).
  { apply elem_of_encounter_order. set_solver. }
  rewrite E in H. set_solver.
Qed.

(** The result of [find_peak_sales_day] on a non-empty list, with the
    position of the returned date among the dates in encounter order. *)
Lemma find_peak_sales_day_char txs :
  txs <> [] ->
  Forall (fun tx => well_typed tx = true) txs ->
  exists d before after,
    find_peak_sales_day txs = Ok (d, day_revenue d txs, day_count d txs) /\
    encounter_order (map (field "Date") txs) = before ++ d :: after /\
    (forall d', d' ∈ before ->
       PrimFloat.ltb (day_revenue d txs) (day_revenue d' txs) = false /\
       PrimFloat.eqb (day_revenue d' txs) (day_revenue d txs) = false) /\
    (forall d', d' ∈ after ->
       PrimFloat.ltb (day_revenue d txs) (day_revenue d' txs) = false).
Proof.
  intros Hne Hwt. unfold find_peak_sales_day.
  rewrite daily_totals_spec by done. simpl.
  set (F := fun d => (d, {| revenue := day_revenue d txs;
                            transaction_count := day_count d txs |})).
  destruct (encounter_order (map (field "Date") txs)) as [|k E] eqn:HE.
  { exfalso. eapply encounter_order_nonempty; [|exact HE]. by destruct txs. }
  simpl.
  destruct (max_from_spec (fun item : value * day_total => revenue item.2)
              (F k) (map F E)) as (l1 & l2 & Hdec & H1 & H2).
  set (r := max_from _ (F k) (map F E)) in *.
  change (F k :: map F E) with (map F (k :: E)) in Hdec.
  apply map_eq_app in Hdec as (before & rest & HkE & Hl1 & Hrest).
  apply map_eq_cons in Hrest as (d & after & -> & Hr & Hl2).
  exists d, before, after. rewrite <- Hr. simpl.
  split; [done|]. split; [done|]. split.
  - intros d' Hd'.
    assert (Hin : F d' ∈ l1).
    { rewrite <- Hl1. apply list_elem_of_In, in_map, list_elem_of_In, Hd'. }
    specialize (H1 _ Hin). rewrite <- Hr in H1. exact H1.
  - intros d' Hd'.
    assert (Hin : F d' ∈ l2).
    { rewrite <- Hl2. apply list_elem_of_In, in_map, list_elem_of_In, Hd'. }
    specialize (H2 _ Hin). rewrite <- Hr in H2. exact H2.
Qed.

End Aggregation.

(** C4 (as amended): on a non-empty list of well-typed transactions none
    of whose per-date revenues is NaN, the function returns a date of the
    input with the revenue and the number of transactions aggregated for
    that date; every date's revenue is at most the returned one, and every
    date met earlier in the input has a strictly smaller revenue, so that
    among the dates of maximal revenue the first one met is returned. *)
Theorem find_peak_sales_day_max (txs : list dict) :
  txs <> [] ->
  Forall (fun tx => well_typed tx = true) txs ->
  Forall (fun tx => is_number (date_revenue (field "Date" tx) txs) = true) txs ->
  exists d before after,
    find_peak_sales_day txs = Ok (d, date_revenue d txs, day_count d txs) /\
    d ∈ map (field "Date") txs /\
    encounter_order (map (field "Date") txs) = before ++ d :: after /\
    (forall d', d' ∈ map (field "Date") txs ->
       PrimFloat.leb (date_revenue d' txs) (date_revenue d txs) = true) /\
    (forall d', d' ∈ before ->
       PrimFloat.ltb (date_revenue d' txs) (date_revenue d txs) = true).
Proof.
  intros Hne Hwt Hnum.
  destruct (find_peak_sales_day_char txs Hne Hwt)
    as (d & before & after & Hres & HE & Hbefore & Hafter).
  assert (E : forall k, day_revenue k txs = date_revenue k txs)
    by (intros k; by apply day_revenue_date_revenue).
  assert (Hnumber : forall d', d' ∈ map (field "Date") txs ->
            PrimFloat.eqb (day_revenue d' txs) (day_revenue d' txs) = true).
  { intros d' Hd'.
    apply list_elem_of_In, in_map_iff in Hd' as (tx & <- & Htx).
    rewrite Forall_forall in Hnum. rewrite E.
    by apply Hnum, list_elem_of_In. }
  assert (Hmax : forall d', d' ∈ map (field "Date") txs ->
            PrimFloat.ltb (day_revenue d txs) (day_revenue d' txs) = false).
  { intros d' Hd'. apply elem_of_encounter_order in Hd'. rewrite HE in Hd'.
    apply elem_of_app in Hd' as [Hd'|Hd']; [by apply Hbefore|].
    apply elem_of_cons in Hd' as [->|Hd']; [apply float_ltb_irrefl|].
    by apply Hafter. }
  assert (Hd : d ∈ map (field "Date") txs).
  { apply elem_of_encounter_order. rewrite HE.
    apply elem_of_app. right. by left. }
  exists d, before, after. rewrite <- E.
  split; [done|]. split; [done|]. split; [done|]. split.
  - intros d' Hd'. rewrite <- E. apply float_leb_of_not_ltb; auto.
  - intros d' Hd'. rewrite <- E.
    assert (Hin : d' ∈ map (field "Date") txs).
    { apply elem_of_encounter_order. rewrite HE. apply elem_of_app. by left. }
    destruct (Hbefore d' Hd') as [Hlt Hne'].
    apply float_ltb_of_not; auto.
Qed.

(** Four sales on three days; the first and the second day tie. *)
Lemma find_peak_sales_day_max_witness :
  let txs :=
    [transaction_of "T1" "2024-01-01" "P101" "Widget" 5 10%float "C1" "North";
     transaction_of "T2" "2024-01-02" "P102" "Gadget" 7 10%float "C2" "South";
     transaction_of "T3" "2024-01-01" "P103" "Gizmo" 2 10%float "C1" "North";
     transaction_of "T4" "2024-01-03" "P101" "Widget" 2 10%float "C3" "East"] in
  exists d before after,
    find_peak_sales_day txs = Ok (d, date_revenue d txs, day_count d txs) /\
    d ∈ map (field "Date") txs /\
    encounter_order (map (field "Date") txs) = before ++ d :: after /\
    (forall d', d' ∈ map (field "Date") txs ->
       PrimFloat.leb (date_revenue d' txs) (date_revenue d txs) = true) /\
    (forall d', d' ∈ before ->
       PrimFloat.ltb (date_revenue d' txs) (date_revenue d txs) = true).
Proof.
  intros txs. apply (find_peak_sales_day_max txs).
  - discriminate.
  - repeat constructor.
  - repeat constructor.
Defined.

(** C4 as stated fails when a per-date revenue is NaN.  The two lines
    "T1|2024-01-01|P101|Widget|5|nan|C1|North" and
    "T2|2024-01-02|P102|Gadget|7|10|C2|South" both pass
    [validate_and_filter]; on what it returns the daily totals are NaN and
    70.0, and since [70.0 > nan] is false [max] keeps the first date: the
    function returns the revenue NaN, which is not the maximum, the other
    date having 70.0. *)
Lemma find_peak_sales_day_nan :
  let t1 := transaction_of "T1" "2024-01-01" "P101" "Widget" 5 PrimFloat.nan
              "C1" "North" in
  let t2 := transaction_of "T2" "2024-01-02" "P102" "Gadget" 7 10%float
              "C2" "South" in
  let txs := [<["Amount" := VFloat PrimFloat.nan]> t1;
              <["Amount" := VFloat 70%float]> t2] in
  validate_and_filter [t1; t2] None None None =
    Ok (txs, 0,
        {| total_input := 2; invalid := 0; filtered_by_region := 0;
           filtered_by_amount := 0; final_count := 2 |}) /\
  Forall (fun tx => well_typed tx = true) txs /\
  find_peak_sales_day txs = Ok (VStr "2024-01-01", PrimFloat.nan, 1) /\
  date_revenue (VStr "2024-01-01") txs = PrimFloat.nan /\
  date_revenue (VStr "2024-01-02") txs = 70%float /\
  PrimFloat.leb 70%float PrimFloat.nan = false.
Proof.
  intros t1 t2 txs.
  assert (H1 : validate_tx t1 = Ok (Some (<["Amount" := VFloat PrimFloat.nan]> t1))).
  { subst t1. rewrite validate_tx_transaction_of. reflexivity. }
  assert (H2 : validate_tx t2 = Ok (Some (<["Amount" := VFloat 70%float]> t2))).
  { subst t2. rewrite validate_tx_transaction_of. reflexivity. }
  split.
  { unfold validate_and_filter.
    rewrite validation_loop_step, H1, validation_loop_step, H2. reflexivity. }
  split; [repeat constructor|].
  repeat split; reflexivity.
Qed.

(** The tie of that example goes to the day met first. *)
Lemma find_peak_sales_day_tie :
  find_peak_sales_day
    [transaction_of "T1" "2024-01-01" "P101" "Widget" 5 10%float "C1" "North";
     transaction_of "T2" "2024-01-02" "P102" "Gadget" 7 10%float "C2" "South";
     transaction_of "T3" "2024-01-01" "P103" "Gizmo" 2 10%float "C1" "North";
     transaction_of "T4" "2024-01-03" "P101" "Widget" 2 10%float "C3" "East"]
  = Ok (VStr "2024-01-01", 70%float, 2).
Proof. vm_compute. reflexivity. Qed.

(** C10: the function raises on the empty list (the maximum of an empty
    dictionary) and only there: on every non-empty list it returns. *)
Theorem find_peak_sales_day_partial (txs : list dict) :
  Forall (fun tx => well_typed tx = true) txs ->
  find_peak_sales_day [] = Raise ValueError /\
  (is_ok (find_peak_sales_day txs) = false <-> txs = []).
Proof.
  intros Hwt. split; [reflexivity|]. split.
  - intros Hfail. destruct txs as [|tx txs]; [done|].
    destruct (find_peak_sales_day_char (tx :: txs)) as (d & b & a & Hres & _);
      [done..|].
    rewrite Hres in Hfail. done.
  - intros ->. reflexivity.
Qed.

Lemma find_peak_sales_day_partial_witness :
  let txs :=
    [transaction_of "T1" "2024-01-01" "P101" "Widget" 5 10%float "C1" "North"] in
  find_peak_sales_day [] = Raise ValueError /\
  (is_ok (find_peak_sales_day txs) = false <-> txs = []).
Proof.
  intros txs. apply (find_peak_sales_day_partial txs). repeat constructor.
Defined.

(** Outside the well-typed lists the function raises for other reasons: a
    record without a date, or a quantity beyond the float range, which
    [validate_and_filter] never returns. *)
Lemma find_peak_sales_day_ill_typed :
  find_peak_sales_day [∅] = Raise KeyError /\
  find_peak_sales_day
    [transaction_of "T1" "2024-01-01" "P101" "Widget" (2 ^ 1024) 10%float
       "C1" "North"] = Raise OverflowError.
Proof. split; reflexivity. Qed.

(** ** Top-selling products *)

Section Sorting.

Context {A : Type} (key : A -> num).

Implicit Types (x y : A) (l : list A).

Lemma insert_desc_Permutation x l : insert_desc key x l ≡ₚ x :: l.
Proof.
  induction l as [|y l IH]; simpl; [done|].
  destruct (num_ltb (key x) (key y)); [|done].
  rewrite IH. apply Permutation_swap.
Qed.

Lemma sort_desc_Permutation l : sort_desc key l ≡ₚ l.
Proof.
  induction l as [|x l IH]; simpl; [done|].
  rewrite insert_desc_Permutation. by rewrite IH.
Qed.

(** Elements that tie with one another keep the order they had: [P]
    stands for a class of tied elements. *)
Lemma insert_desc_filter (P : A -> Prop) `{!forall x, Decision (P x)} x l :
  (forall y, y ∈ l -> P x -> P y -> num_ltb (key x) (key y) = false) ->
  filter P (insert_desc key x l) = filter P (x :: l).
Proof.
  induction l as [|y l IH]; intros Htie; simpl; [done|].
  destruct (num_ltb (key x) (key y)) eqn:E; [|done].
  assert (IH' : filter P (insert_desc key x l) = filter P (x :: l)).
  { apply IH. intros z Hz. apply Htie. by apply elem_of_cons; right. }
  rewrite filter_cons, IH', !filter_cons.
  destruct (decide (P x)) as [Hx|Hx], (decide (P y)) as [Hy|Hy]; try done.
  rewrite Htie in E; [done| |done..]. by apply elem_of_cons; left.
Qed.

Lemma sort_desc_stable (P : A -> Prop) `{!forall x, Decision (P x)} l :
  (forall x y, P x -> P y -> num_ltb (key x) (key y) = false) ->
  filter P (sort_desc key l) = filter P l.
Proof.
  intros Htie. induction l as [|x l IH]; simpl; [done|].
  rewrite insert_desc_filter by (intros; by apply Htie).
  by rewrite !filter_cons, IH.
Qed.

(** With integer keys the result is in non-increasing order. *)
Lemma insert_desc_sorted (q : A -> Z) x l :
  (forall y, y ∈ x :: l -> key y = NInt (q y)) ->
  StronglySorted (fun a b => q b <= q a) l ->
  StronglySorted (fun a b => q b <= q a) (insert_desc key x l).
Proof.
  intros Hkey Hsorted. revert Hkey.
  induction Hsorted as [|y l Hl IH Hy]; intros Hkey; simpl.
  - repeat constructor.
  - assert (Hx : key x = NInt (q x)) by (apply Hkey; by left).
    assert (Hy' : key y = NInt (q y)) by (apply Hkey; right; by left).
    rewrite Hx, Hy'. simpl. destruct (q x <? q y) eqn:E.
    + apply Z.ltb_lt in E. constructor.
      * apply IH. intros z Hz. apply Hkey.
        apply elem_of_cons in Hz as [->|Hz]; [by left|right; by right].
      * apply Forall_forall. intros z Hz.
        rewrite insert_desc_Permutation in Hz.
        apply elem_of_cons in Hz as [->|Hz]; [lia|].
        rewrite Forall_forall in Hy. by apply Hy.
    + apply Z.ltb_ge in E. constructor; [by constructor|].
      constructor; [done|].
      eapply Forall_impl; [exact Hy|]. simpl. intros. lia.
Qed.

Lemma sort_desc_sorted (q : A -> Z) l :
  (forall y, y ∈ l -> key y = NInt (q y)) ->
  StronglySorted (fun a b => q b <= q a) (sort_desc key l).
Proof.
  induction l as [|x l IH]; intros Hkey; simpl; [constructor|].
  apply insert_desc_sorted.
  - intros y Hy. apply Hkey.
    apply elem_of_cons in Hy as [->|Hy]; [by left|right].
    by rewrite sort_desc_Permutation in Hy.
  - apply IH. intros y Hy. apply Hkey. by right.
Qed.

End Sorting.

Lemma StronglySorted_take {A} (R : A -> A -> Prop) (l : list A) (n : nat) :
  StronglySorted R l -> StronglySorted R (take n l).
Proof.
  intros H. revert n. induction H as [|x l Hl IH Hx]; intros [|n]; simpl;
    try constructor; [apply IH|by apply Forall_take].
Qed.

Section TopSelling.

Implicit Types (tx : dict) (txs : list dict).

Lemma product_step_well_typed tx (d : odict product_stat) :
  well_typed tx = true ->
  product_step d tx =
    Ok (upsert_pure (field "ProductName" tx) product_init (product_update tx) d).
Proof.
  intros Hwt.
  destruct (well_typed_inv tx Hwt)
    as (date & product & region & q & up & fq & _ & Hp & _ & Hq & Hup & Hfq).
  assert (Hamount : amount_of tx = PrimFloat.mul fq up).
  { unfold amount_of, sale_value, getitem. rewrite Hq, Hup. simpl.
    unfold py_mul. simpl. by rewrite Hfq. }
  unfold product_step, getitem, field. rewrite Hp, Hq, Hup. simpl.
  unfold py_mul. simpl. rewrite Hfq. simpl.
  apply upsert_Ok. intros st. unfold product_update, field.
  rewrite Hq, Hamount. simpl.
  destruct (total_quantity st) as [a|f]; simpl; [done|].
  rewrite Hfq. done.
Qed.

Lemma product_update_fold (l : list dict) :
  Forall (fun tx => well_typed tx = true) l ->
  forall (st : product_stat) (a : Z),
  total_quantity st = NInt a ->
  fold_left (fun v x => product_update x v) l st =
    {| total_quantity := NInt (fold_left (fun acc tx => acc + quantity_of tx) l a);
       total_revenue :=
         fold_left (fun acc tx => PrimFloat.add acc (amount_of tx)) l
                   (total_revenue st) |}.
Proof.
  induction 1 as [|tx l Htx Hl IH]; intros st a Ha; simpl.
  - destruct st. simpl in *. by subst.
  - destruct (well_typed_inv tx Htx)
      as (date & product & region & q & up & fq & _ & _ & _ & Hq & _).
    assert (Hqty : quantity_of tx = q) by (unfold quantity_of; by rewrite Hq).
    rewrite (IH _ (a + q)).
    + by rewrite Hqty.
    + unfold product_update, field. rewrite Ha, Hq. done.
Qed.

Lemma accumulated_product p txs :
  Forall (fun tx => well_typed tx = true) txs ->
  accumulated (field "ProductName") product_update product_init p txs =
    {| total_quantity := NInt (product_quantity p txs);
       total_revenue := product_revenue p txs |}.
Proof.
  intros Hwt. unfold accumulated.
  rewrite (product_update_fold _) with (a := 0); [done| |done].
  apply Forall_forall. intros tx Htx. apply list_elem_of_filter in Htx as [_ Htx].
  rewrite Forall_forall in Hwt. by apply Hwt.
Qed.

(** The list of tuples before sorting is the full aggregation per
    product, in encounter order. *)
Lemma top_selling_products_table txs n :
  Forall (fun tx => well_typed tx = true) txs ->
  top_selling_products txs n =
    Ok (slice_to n (sort_desc (fun x : value * num * float => x.1.2)
                              (product_table txs))).
Proof.
  intros Hwt. unfold top_selling_products.
  rewrite (for_each_pure product_step
             (fun d tx => upsert_pure (field "ProductName" tx) product_init
                            (product_update tx) d)).
  - rewrite group_spec. simpl. rewrite map_map. do 3 f_equal.
    unfold product_table. apply map_ext. intros p.
    by rewrite accumulated_product.
  - eapply Forall_impl; [exact Hwt|]. intros tx Htx s.
    by apply product_step_well_typed.
Qed.

Lemma product_table_key txs x :
  x ∈ product_table txs -> x.1.2 = NInt (quantity_total x).
Proof.
  unfold product_table. intros Hx. apply list_elem_of_In, in_map_iff in Hx.
  destruct Hx as (p & <- & _). done.
Qed.

Lemma product_table_entry txs x :
  x ∈ product_table txs ->
  x.1.1 ∈ map (field "ProductName") txs /\
  x = (x.1.1, NInt (product_quantity x.1.1 txs), product_revenue x.1.1 txs).
Proof.
  unfold product_table. intros Hx. apply list_elem_of_In, in_map_iff in Hx.
  destruct Hx as (p & <- & Hp). simpl. split; [|done].
  by apply elem_of_encounter_order, list_elem_of_In.
Qed.

End TopSelling.

(** C7 (as amended, for [0 <= n]): the result holds at most [n] tuples; it
    is the head of a list [sorted] that rearranges the full aggregation per
    product, is in non-increasing order of total quantity, and keeps the
    products of equal quantity in the order in which they are first met in
    the input; each tuple of the result is the aggregated quantity and
    revenue of its product over the whole input. *)
Theorem top_selling_products_spec (txs : list dict) (n : Z) :
  0 <= n ->
  Forall (fun tx => well_typed tx = true) txs ->
  exists sorted,
    top_selling_products txs n = Ok (take (Z.to_nat n) sorted) /\
    len (take (Z.to_nat n) sorted) <= n /\
    sorted ≡ₚ product_table txs /\
    StronglySorted (fun a b => quantity_total b <= quantity_total a) sorted /\
    StronglySorted (fun a b => quantity_total b <= quantity_total a)
      (take (Z.to_nat n) sorted) /\
    (forall q : Z,
       filter (fun x => x.1.2 = NInt q) sorted =
       filter (fun x => x.1.2 = NInt q) (product_table txs)) /\
    (forall x, x ∈ take (Z.to_nat n) sorted ->
       x.1.1 ∈ map (field "ProductName") txs /\
       x = (x.1.1, NInt (product_quantity x.1.1 txs),
            product_revenue x.1.1 txs)).
Proof.
  intros Hn Hwt.
  set (key := fun x : value * num * float => x.1.2).
  exists (sort_desc key (product_table txs)).
  assert (Hsorted : StronglySorted
            (fun a b => quantity_total b <= quantity_total a)
            (sort_desc key (product_table txs))).
  { apply sort_desc_sorted. intros y Hy. by apply product_table_key in Hy. }
  split; [|split; [|split; [|split; [|split; [|split]]]]].
  - rewrite top_selling_products_table by done. unfold slice_to.
    destruct (n <? 0) eqn:E; [apply Z.ltb_lt in E; lia|done].
  - unfold len. rewrite length_take. lia.
  - apply sort_desc_Permutation.
  - exact Hsorted.
  - by apply StronglySorted_take.
  - intros q. apply sort_desc_stable.
    intros x y Hx Hy. subst key. simpl. rewrite Hx, Hy. apply Z.ltb_irrefl.
  - intros x Hx. apply product_table_entry.
    apply subseteq_take in Hx. by rewrite sort_desc_Permutation in Hx.
Qed.

(** Five sales of four products, the best two asked for. *)
Lemma top_selling_products_spec_witness :
  let txs :=
    [transaction_of "T1" "2024-01-01" "P101" "Widget" 5 10%float "C1" "North";
     transaction_of "T2" "2024-01-02" "P102" "Gadget" 7 10%float "C2" "South";
     transaction_of "T3" "2024-01-01" "P103" "Gizmo" 2 10%float "C1" "North";
     transaction_of "T4" "2024-01-03" "P101" "Widget" 2 10%float "C3" "East";
     transaction_of "T5" "2024-01-03" "P104" "Thing" 7 2%float "C3" "East"] in
  exists sorted,
    top_selling_products txs 2 = Ok (take (Z.to_nat 2) sorted) /\
    len (take (Z.to_nat 2) sorted) <= 2 /\
    sorted ≡ₚ product_table txs /\
    StronglySorted (fun a b => quantity_total b <= quantity_total a) sorted /\
    StronglySorted (fun a b => quantity_total b <= quantity_total a)
      (take (Z.to_nat 2) sorted) /\
    (forall q : Z,
       filter (fun x => x.1.2 = NInt q) sorted =
       filter (fun x => x.1.2 = NInt q) (product_table txs)) /\
    (forall x, x ∈ take (Z.to_nat 2) sorted ->
       x.1.1 ∈ map (field "ProductName") txs /\
       x = (x.1.1, NInt (product_quantity x.1.1 txs),
            product_revenue x.1.1 txs)).
Proof.
  intros txs. apply (top_selling_products_spec txs 2).
  - lia.
  - repeat constructor.
Defined.

(** On that input: three products sold 7 units; they come in the order in
    which the input first mentions them. *)
Lemma top_selling_products_ties :
  top_selling_products
    [transaction_of "T1" "2024-01-01" "P101" "Widget" 5 10%float "C1" "North";
     transaction_of "T2" "2024-01-02" "P102" "Gadget" 7 10%float "C2" "South";
     transaction_of "T3" "2024-01-01" "P103" "Gizmo" 2 10%float "C1" "North";
     transaction_of "T4" "2024-01-03" "P101" "Widget" 2 10%float "C3" "East";
     transaction_of "T5" "2024-01-03" "P104" "Thing" 7 2%float "C3" "East"] 5
  = Ok [(VStr "Widget", NInt 7, 70%float); (VStr "Gadget", NInt 7, 70%float);
        (VStr "Thing", NInt 7, 14%float); (VStr "Gizmo", NInt 2, 20%float)].
Proof. vm_compute. reflexivity. Qed.

(** C7 as stated fails for a negative [n]: the slice [product_list[:-1]]
    drops the last tuple only, so one tuple is returned for [n = -1]. *)
Lemma top_selling_products_negative :
  let txs :=
    [transaction_of "T1" "2024-01-01" "P101" "Widget" 5 10%float "C1" "North";
     transaction_of "T2" "2024-01-02" "P102" "Gadget" 7 10%float "C2" "South"] in
  exists result,
    top_selling_products txs (-1) = Ok result /\
    result = [(VStr "Gadget", NInt 7, 70%float)] /\
    ~ (len result <= -1).
Proof.
  intros txs. eexists. split; [vm_compute; reflexivity|].
  split; [reflexivity|]. unfold len. simpl. lia.
Qed.

(** ** Saving and reading back the enriched data *)

Section Strings.

Implicit Types (s x rest : string) (c sep : ascii) (l : list string).

Lemma append_cons (a : ascii) s1 s2 :
  String a s1 +:+ s2 = String a (s1 +:+ s2).
Proof. reflexivity. Qed.

Lemma append_nil_l s : "" +:+ s = s.
Proof. reflexivity. Qed.

Lemma append_nil_r s : s +:+ "" = s.
Proof. induction s as [|a s IH]; [done|]. by rewrite append_cons, IH. Qed.

Lemma append_assoc_s s1 s2 s3 : (s1 +:+ s2) +:+ s3 = s1 +:+ (s2 +:+ s3).
Proof.
  induction s1 as [|a s1 IH]; [done|]. by rewrite !append_cons, IH.
Qed.

Lemma split_on_clean sep s : no_char sep s = true -> split_on sep s = [s].
Proof.
  induction s as [|a s IH]; simpl; [done|].
  intros [Ha Hs]%andb_true_iff. apply negb_true_iff in Ha.
  rewrite Ha, IH by done. done.
Qed.

Lemma split_on_app sep x rest :
  no_char sep x = true ->
  split_on sep (x +:+ String sep rest) = x :: split_on sep rest.
Proof.
  induction x as [|a x IH].
  - intros _. rewrite append_nil_l. simpl. by rewrite Ascii.eqb_refl.
  - intros H. simpl in H. apply andb_true_iff in H as [Ha Hx].
    apply negb_true_iff in Ha.
    rewrite append_cons. simpl. rewrite Ha, IH by done. done.
Qed.

Lemma split_on_join sep l :
  l <> [] -> Forall (fun x => no_char sep x = true) l ->
  split_on sep (join (String sep "") l) = l.
Proof.
  intros Hne Hl. induction Hl as [|x l Hx Hl IH]; [done|].
  destruct l as [|y l].
  - simpl. by apply split_on_clean.
  - change (join (String sep "") (x :: y :: l))
      with (x +:+ String sep (join (String sep "") (y :: l))).
    rewrite split_on_app by done. by rewrite IH.
Qed.

Lemma no_char_app c s1 s2 :
  no_char c (s1 +:+ s2) = no_char c s1 && no_char c s2.
Proof.
  induction s1 as [|a s1 IH]; [done|].
  rewrite append_cons. simpl. by rewrite IH, andb_assoc.
Qed.

Lemma no_char_join c (sep : string) l :
  no_char c sep = true -> Forall (fun x => no_char c x = true) l ->
  no_char c (join sep l) = true.
Proof.
  intros Hsep Hl. induction Hl as [|x l Hx Hl IH]; [done|].
  destruct l as [|y l]; [done|].
  change (join sep (x :: y :: l)) with (x +:+ sep +:+ join sep (y :: l)).
  by rewrite !no_char_app, Hx, Hsep, IH.
Qed.

End Strings.

Section IntText.

Lemma no_char_digits c (s : string) :
  is_digit c = false -> all_digits s -> no_char c s = true.
Proof.
  intros Hc. unfold all_digits.
  induction s as [|a s IH]; simpl; intros H; [done|].
  inversion H; subst. rewrite (digit_neq a c) by done. by rewrite IH.
Qed.

(** [int(str(z)) = z] *)
Lemma py_int_str (z : Z) : py_int (NilZero.string_of_int (Z.to_int z)) = Ok z.
Proof.
  destruct z as [|p|p]; [done| |].
  - change (Z.to_int (Z.pos p)) with (Decimal.Pos (Pos.to_uint p)).
    pose proof (DecimalPos.Unsigned.to_uint_nonnil p) as Hnil.
    simpl. unfold NilZero.string_of_uint.
    destruct (Pos.to_uint p) eqn:E; try done;
      rewrite <- E, py_int_numeral by (by rewrite E);
      unfold Z.of_uint; by rewrite DecimalPos.Unsigned.of_to.
  - change (Z.to_int (Z.neg p)) with (Decimal.Neg (Pos.to_uint p)).
    pose proof (DecimalPos.Unsigned.to_uint_nonnil p) as Hnil.
    simpl.
    assert (Hs : NilZero.string_of_uint (Pos.to_uint p)
                 = NilEmpty.string_of_uint (Pos.to_uint p))
      by (by destruct (Pos.to_uint p)).
    rewrite Hs.
    pose proof (all_digits_string_of_uint (Pos.to_uint p)) as Hall.
    pose proof (string_of_uint_nonempty _ Hnil) as Hne.
    unfold py_int, strip. simpl lstrip.
    assert (Hr : rstrip (String "-" (NilEmpty.string_of_uint (Pos.to_uint p)))
                 = String "-" (NilEmpty.string_of_uint (Pos.to_uint p))).
    { simpl. rewrite rstrip_digits by done.
      by destruct (NilEmpty.string_of_uint (Pos.to_uint p)). }
    rewrite Hr.
    destruct (NilEmpty.string_of_uint (Pos.to_uint p)) as [|a s] eqn:E; [done|].
    simpl. 
    assert (Ha : is_digit a = true) by (inversion Hall; done).
    assert (Hsd : all_digits s) by (inversion Hall; done).
    rewrite Ha, literal_digits_digits by done. simpl.
    change (NilEmpty.uint_of_string (String a s)) with
      (uint_of_char a (NilEmpty.uint_of_string s)).
    change (uint_of_char a (NilEmpty.uint_of_string s))
      with (NilEmpty.uint_of_string (String a s)).
    rewrite <- E, NilEmpty.usu. unfold Z.of_uint.
    by rewrite DecimalPos.Unsigned.of_to.
Qed.

Lemma clean_str_int (z : Z) :
  clean (NilZero.string_of_int (Z.to_int z)) = true.
Proof.
  assert (H : forall d, clean (NilZero.string_of_uint d) = true).
  { intros d. unfold clean.
    assert (Hs : NilZero.string_of_uint d = "0" \/
                 NilZero.string_of_uint d = NilEmpty.string_of_uint d)
      by (destruct d; auto).
    destruct Hs as [-> | ->]; [done|].
    rewrite !no_char_digits by (done || apply all_digits_string_of_uint).
    done. }
  destruct z as [|p|p]; [done|apply H|].
  change (Z.to_int (Z.neg p)) with (Decimal.Neg (Pos.to_uint p)).
  simpl. specialize (H (Pos.to_uint p)). unfold clean in *. simpl. exact H.
Qed.

End IntText.

Section RoundTrip.

Variable float_repr : float -> string.
Variable float_parse : string -> option float.

Implicit Types (tx : dict) (enriched : list dict).

Lemma cell_reads_back tx h c v :
  tx !! h = Some v -> fits float_repr float_parse c v ->
  parse_cell float_parse c (cell float_repr tx h) = Some v /\
  clean (cell float_repr tx h) = true.
Proof.
  intros Hv Hfit. unfold cell. rewrite Hv.
  destruct c; simpl in Hfit.
  - destruct Hfit as (s & -> & Hs). done.
  - destruct Hfit as (z & ->). simpl. rewrite py_int_str.
    split; [done|apply clean_str_int].
  - destruct Hfit as (f & -> & Hp & Hc & _). simpl. by rewrite Hp.
  - destruct Hfit as [->|(s & -> & Hs & Hne)]; [done|].
    simpl. apply String.eqb_neq in Hne. by rewrite Hne.
  - destruct Hfit as [->|(f & -> & Hp & Hc & Hne)]; [done|].
    simpl. apply String.eqb_neq in Hne. by rewrite Hne, Hp.
  - destruct Hfit as ([] & ->); done.
Qed.

Lemma cells_read_back tx (cols : list (string * column)) :
  Forall (fun hc : string * column =>
            exists v, tx !! hc.1 = Some v /\ fits float_repr float_parse hc.2 v)
         cols ->
  parse_cells float_parse cols (map (cell float_repr tx) (map fst cols))
    = Some (map (fun hc : string * column => (hc.1, field hc.1 tx)) cols) /\
  Forall (fun s => clean s = true) (map (cell float_repr tx) (map fst cols)).
Proof.
  induction 1 as [|[h c] cols (v & Hv & Hfit) Hcols [IH1 IH2]]; simpl; [done|].
  simpl in Hv, Hfit.
  destruct (cell_reads_back tx h c v Hv Hfit) as [Hp Hc].
  rewrite Hp, IH1. simpl. split; [|by constructor].
  unfold field. by rewrite Hv.
Qed.

Lemma row_reads_back tx :
  writable float_repr float_parse tx ->
  parse_enriched_row float_parse (row float_repr tx) = Some (reread tx) /\
  no_char newline (row float_repr tx) = true.
Proof.
  intros Hw. destruct (cells_read_back tx columns Hw) as [Hp Hc].
  change (map fst columns) with headers in Hp, Hc.
  assert (Hpipe : Forall (fun s => no_char pipe s = true)
                    (map (cell float_repr tx) headers)).
  { eapply Forall_impl; [exact Hc|]. intros s Hs.
    by apply andb_true_iff in Hs as [? _]. }
  assert (Hnl : Forall (fun s => no_char newline s = true)
                  (map (cell float_repr tx) headers)).
  { eapply Forall_impl; [exact Hc|]. intros s Hs.
    by apply andb_true_iff in Hs as [_ ?]. }
  split.
  - unfold parse_enriched_row, row.
    change "|" with (String pipe "").
    rewrite split_on_join by done. by rewrite Hp.
  - unfold row. by apply no_char_join.
Qed.

Lemma save_enriched_data_fold enriched (file : string) :
  fold_left (fun file tx => file +:+ row float_repr tx +:+ String newline "")
            enriched file
  = file +:+ unlines (map (row float_repr) enriched).
Proof.
  revert file. induction enriched as [|tx l IH]; intros file; simpl.
  - by rewrite append_nil_r.
  - rewrite IH, !append_assoc_s. done.
Qed.

Lemma save_enriched_data_unlines enriched :
  save_enriched_data float_repr enriched
  = unlines (join "|" headers :: map (row float_repr) enriched).
Proof.
  unfold save_enriched_data. rewrite save_enriched_data_fold.
  simpl. by rewrite append_assoc_s.
Qed.

Lemma split_on_unlines (ls : list string) :
  Forall (fun s => no_char newline s = true) ls ->
  split_on newline (unlines ls) = ls ++ [""].
Proof.
  induction 1 as [|x ls Hx Hls IH]; simpl; [done|].
  rewrite split_on_app by done. by rewrite IH.
Qed.

Lemma lines_of_unlines (ls : list string) :
  Forall (fun s => no_char newline s = true) ls ->
  lines_of (unlines ls) = Some ls.
Proof.
  intros H. unfold lines_of. rewrite split_on_unlines by done.
  rewrite reverse_app. simpl. by rewrite reverse_involutive.
Qed.

Lemma reread_lookup tx h :
  h ∈ headers -> reread tx !! h = Some (field h tx).
Proof.
  intros H. unfold headers in H.
  repeat (apply elem_of_cons in H as [->|H]; [reflexivity|]).
  by apply elem_of_nil in H.
Qed.

Lemma writable_lookup tx h :
  writable float_repr float_parse tx -> h ∈ headers -> is_Some (tx !! h).
Proof.
  intros Hw Hh. unfold writable in Hw. rewrite Forall_forall in Hw.
  change headers with (map fst columns) in Hh.
  apply list_elem_of_In, in_map_iff in Hh as ([h' c] & <- & Hin).
  apply list_elem_of_In in Hin.
  destruct (Hw _ Hin) as (v & Hv & _). by exists v.
Qed.

(** The file written for writable records reads back as those records,
    column by column. *)
Lemma parse_enriched_save enriched :
  Forall (writable float_repr float_parse) enriched ->
  parse_enriched float_parse (save_enriched_data float_repr enriched)
  = Some (map reread enriched).
Proof.
  intros Hw. rewrite save_enriched_data_unlines. unfold parse_enriched.
  rewrite lines_of_unlines.
  - simpl. apply mapM_Some_2.
    induction Hw as [|tx l Htx Hl IH]; simpl; constructor; [|done].
    by apply row_reads_back.
  - constructor; [reflexivity|].
    apply Forall_forall. intros s Hs.
    apply list_elem_of_In, in_map_iff in Hs as (tx & <- & Htx).
    apply list_elem_of_In in Htx. rewrite Forall_forall in Hw.
    by apply row_reads_back, Hw.
Qed.

End RoundTrip.

(** C5 (as amended): for enriched transactions whose twelve columns are
    writable (the string columns hold neither "|" nor a line break and a
    present API string is not empty; Quantity is an integer, UnitPrice and a
    present API_Rating are floats whose text reads back as the same float;
    API_Match is a boolean), the file written by [save_enriched_data] reads
    back as one record per transaction, equal to it on each of the twelve
    columns. *)
Theorem save_enriched_data_round_trip
    (float_repr : float -> string) (float_parse : string -> option float)
    (enriched : list dict) :
  Forall (writable float_repr float_parse) enriched ->
  round_trips float_repr float_parse enriched.
Proof.
  intros Hw. exists (map reread enriched). split; [|split].
  - by apply parse_enriched_save.
  - by rewrite length_map.
  - intros i tx tx' Hi Hi' h Hh.
    rewrite list_lookup_fmap, Hi in Hi'. injection Hi' as <-.
    rewrite reread_lookup by done.
    assert (Htx : writable float_repr float_parse tx).
    { rewrite Forall_forall in Hw. apply Hw.
      by eapply list_elem_of_lookup_2. }
    destruct (writable_lookup _ _ tx h Htx Hh) as [v Hv].
    unfold field. by rewrite Hv.
Qed.

(** Two enriched records, one of them without a brand. *)
Lemma save_enriched_data_round_trip_witness :
  round_trips float_repr_sample float_parse_sample
    [enriched_sample (VStr "Essence"); enriched_sample VNone].
Proof.
  apply (save_enriched_data_round_trip float_repr_sample float_parse_sample).
  repeat constructor;
    (eexists; split; [reflexivity|]; simpl;
     first [ by eexists
           | by left
           | right; eexists; repeat split; done
           | eexists; repeat split; done ]).
Defined.

(** C5 as stated fails when a field holds the separator: the row written
    for a brand "A|B" has thirteen columns and does not read back. *)
Lemma save_enriched_data_pipe_in_field :
  ~ round_trips float_repr_sample float_parse_sample
      [enriched_sample (VStr "A|B")].
Proof.
  intros (reparsed & Hparse & _). vm_compute in Hparse. discriminate Hparse.
Qed.

(** A null and an empty string are written alike, so that an empty brand
    reads back as null. *)
Lemma save_enriched_data_null_or_empty (float_repr : float -> string) :
  save_enriched_data float_repr [enriched_sample VNone]
  = save_enriched_data float_repr [enriched_sample (VStr "")].
Proof. reflexivity. Qed.

Lemma enriched_sample_null_writable :
  writable float_repr_sample float_parse_sample (enriched_sample VNone).
Proof.
  repeat constructor;
    (eexists; split; [reflexivity|]; simpl;
     first [ by eexists
           | by left
           | right; eexists; repeat split; done
           | eexists; repeat split; done ]).
Qed.

Lemma save_enriched_data_empty_brand :
  ~ round_trips float_repr_sample float_parse_sample
      [enriched_sample (VStr "")].
Proof.
  intros (reparsed & Hparse & _ & Hsame).
  rewrite <- save_enriched_data_null_or_empty in Hparse.
  rewrite parse_enriched_save in Hparse
    by (constructor; [apply enriched_sample_null_writable|constructor]).
  injection Hparse as <-.
  assert (Hin : "API_Brand" ∈ headers) by (unfold headers; set_solver).
  specialize (Hsame 0%nat _ _ eq_refl eq_refl "API_Brand" Hin).
  rewrite reread_lookup in Hsame by done.
  discriminate Hsame.
Qed.

(** ** Region-wise sales *)

Section RegionWise.

Implicit Types (tx : dict) (txs : list dict).

(** The overall total is the sum of the sale amounts in input order. *)
Lemma region_loop_total txs :
  Forall (fun tx => well_typed tx = true) txs ->
  forall (d : odict region_stat) (t : float),
  exists d', for_each region_step txs (d, t) =
    Ok (d', fold_left (fun acc tx => PrimFloat.add acc (amount_of tx)) txs t).
Proof.
  induction 1 as [|tx txs Htx Htxs IH]; intros d t; simpl; [by eexists|].
  pose proof (sale_value_well_typed tx Htx) as Hsale.
  destruct (well_typed_inv tx Htx)
    as (date & product & region & q & up & fq & _ & _ & Hr & _).
  unfold getitem. rewrite Hr, Hsale. simpl.
  rewrite (upsert_Ok _ _ _
             (fun s => {| total_sales := PrimFloat.add (total_sales s) (amount_of tx);
                          region_transaction_count :=
                            region_transaction_count s + 1 |})) by done.
  simpl. apply IH.
Qed.

(** When the total revenue is not positive every percentage is the
    integer 0. *)
Lemma region_wise_sales_zero_total txs :
  Forall (fun tx => well_typed tx = true) txs ->
  PrimFloat.ltb 0%float (sum_amounts txs) = false ->
  exists entries,
    region_wise_sales txs = Ok entries /\
    forall item, item ∈ entries -> entry_percentage item.2 = VInt 0.
Proof.
  intros Hwt Hzero. unfold region_wise_sales.
  destruct (region_loop_total txs Hwt [] 0%float) as [d Hd].
  unfold odict in *. rewrite Hd. simpl. eexists. split; [done|].
  intros item Hitem. rewrite sort_desc_Permutation in Hitem.
  apply list_elem_of_In, in_map_iff in Hitem as ([region s] & <- & _).
  simpl. fold (sum_amounts txs). by rewrite Hzero.
Qed.

End RegionWise.

(** Three regions with equal sales: each percentage is a third of 100
    rounded to two places, and their float sum stays below 100. *)
Lemma region_wise_sales_thirds :
  let p := py_round2 (PrimFloat.mul (PrimFloat.div 10 30) 100) in
  region_wise_sales
    [transaction_of "T1" "2024-01-01" "P101" "Widget" 1 10%float "C1" "North";
     transaction_of "T2" "2024-01-02" "P102" "Gadget" 1 10%float "C2" "South";
     transaction_of "T3" "2024-01-03" "P103" "Gizmo" 1 10%float "C3" "East"]
  = Ok [(VStr "North", {| entry_total_sales := 10; entry_transaction_count := 1;
                          entry_percentage := VFloat p |});
        (VStr "South", {| entry_total_sales := 10; entry_transaction_count := 1;
                          entry_percentage := VFloat p |});
        (VStr "East", {| entry_total_sales := 10; entry_transaction_count := 1;
                         entry_percentage := VFloat p |})] /\
  PrimFloat.ltb (PrimFloat.add (PrimFloat.add p p) p) 100 = true /\
  PrimFloat.ltb 99.5 (PrimFloat.add (PrimFloat.add p p) p) = true.
Proof. vm_compute. repeat split. Qed.

(** Two regions whose sales add up beyond the float range: the overall
    total is infinite, hence positive, and both percentages are 0.0. *)
Lemma region_wise_sales_overflow :
  let txs :=
    [transaction_of "T1" "2024-01-01" "P101" "Widget" 1 0x1p+1023%float
       "C1" "North";
     transaction_of "T2" "2024-01-02" "P102" "Gadget" 1 0x1p+1023%float
       "C2" "South"] in
  sum_amounts txs = infinity /\
  PrimFloat.ltb 0 (sum_amounts txs) = true /\
  region_wise_sales txs
  = Ok [(VStr "North", {| entry_total_sales := 0x1p+1023;
                          entry_transaction_count := 1;
                          entry_percentage := VFloat 0 |});
        (VStr "South", {| entry_total_sales := 0x1p+1023;
                          entry_transaction_count := 1;
                          entry_percentage := VFloat 0 |})].
Proof. vm_compute. repeat split. Qed.

(** ** Parsing the raw lines *)

(** [int] of a string fails with [ValueError] only. *)
Lemma py_int_error (s : string) (e : exn) : py_int s = Raise e -> e = ValueError.
Proof.
  unfold py_int.
  destruct (match strip s with
            | String "-" r => (true, r)
            | String "+" r => (false, r)
            | _ => (false, strip s)
            end) as [neg digits].
  destruct (literal_digits false digits) as [ds|]; [|congruence].
  destruct (NilEmpty.uint_of_string ds); congruence.
Qed.

Section Parsing.

Variable float_parse : string -> option float.

Implicit Types (line : string) (lines : list string) (tx : dict).

Ltac fields line :=
  destruct (split_on pipe line)
    as [|tid [|date [|pid [|name [|qs [|ps [|cid [|region [|extra rest]]]]]]]]].

Lemma parse_line_Some line tx :
  parse_line float_parse line = Ok (Some tx) <-> record_of float_parse line tx.
Proof.
  unfold parse_line, record_of, py_float. split.
  - fields line; try discriminate.
    destruct (py_int (remove_char comma qs)) as [q|] eqn:Hq; [|discriminate].
    simpl. destruct (float_parse (remove_char comma ps)) as [up|] eqn:Hup;
      [|discriminate].
    simpl. intros [= <-]. by exists tid, date, pid, name, qs, ps, cid, region, q, up.
  - intros (tid & date & pid & name & qs & ps & cid & region & q & up
            & -> & Hq & Hup & ->).
    rewrite Hq. simpl. rewrite Hup. done.
Qed.

Lemma parse_line_None line :
  parse_line float_parse line = Ok None <-> eight_fields line = false.
Proof.
  unfold parse_line, eight_fields, py_float.
  fields line; simpl; try done.
  destruct (py_int (remove_char comma qs)); simpl; [|done].
  destruct (float_parse (remove_char comma ps)); done.
Qed.

Lemma parse_line_Raise line e :
  parse_line float_parse line = Raise e <->
  bad_number float_parse line = true /\ e = ValueError.
Proof.
  unfold parse_line, bad_number, py_float.
  fields line; simpl; try (split; [done|by intros [? _]]).
  destruct (py_int (remove_char comma qs)) as [q|e'] eqn:Hq; simpl.
  - destruct (float_parse (remove_char comma ps)); simpl.
    + split; [done|by intros [? _]].
    + split; [by intros [= <-]|by intros [_ ->]].
  - apply py_int_error in Hq as ->. split; [by intros [= <-]|by intros [_ ->]].
Qed.

Lemma bad_number_eight_fields line :
  bad_number float_parse line = true -> eight_fields line = true.
Proof. unfold bad_number, eight_fields. fields line; done. Qed.

Lemma record_of_eight_fields line tx :
  record_of float_parse line tx -> eight_fields line = true.
Proof.
  intros (tid & date & pid & name & qs & ps & cid & region & q & up & H & _).
  unfold eight_fields. by rewrite H.
Qed.

Lemma record_of_parsed line tx : record_of float_parse line tx -> parsed tx.
Proof.
  intros (tid & date & pid & name & qs & ps & cid & region & q & up
          & _ & _ & _ & ->).
  by exists tid, date, pid, (remove_char comma name), q, up, cid, region.
Qed.

(** The loop from any state of [cleaned_data]. *)
Lemma parse_loop_Ok lines : forall (acc txs : list dict),
  for_each (fun cleaned_data line =>
              t ← parse_line float_parse line;
              Ok (match t with
                  | Some transaction => cleaned_data ++ [transaction]
                  | None => cleaned_data
                  end)) lines acc = Ok txs ->
  exists new, txs = acc ++ new /\
    Forall2 (record_of float_parse) (List.filter eight_fields lines) new /\
    Forall (fun l => bad_number float_parse l = false) lines.
Proof.
  induction lines as [|line lines IH]; intros acc txs; simpl.
  - intros [= <-]. exists []. by rewrite app_nil_r.
  - destruct (parse_line float_parse line) as [[tx|]|e] eqn:Hline; simpl;
      [| |done]; intros Hrest.
    + destruct (IH _ _ Hrest) as (new & -> & Hnew & Hbad).
      apply parse_line_Some in Hline.
      rewrite (record_of_eight_fields _ _ Hline).
      exists (tx :: new). rewrite <- app_assoc. split; [done|].
      split; [by constructor|]. constructor; [|done].
      destruct (bad_number float_parse line) eqn:E; [|done].
      assert (H : parse_line float_parse line = Raise ValueError)
        by by apply parse_line_Raise.
      apply parse_line_Some in Hline. congruence.
    + destruct (IH _ _ Hrest) as (new & -> & Hnew & Hbad).
      assert (Hline' := Hline). apply parse_line_None in Hline as ->.
      exists new. split; [done|]. split; [done|]. constructor; [|done].
      destruct (bad_number float_parse line) eqn:E; [|done].
      assert (H : parse_line float_parse line = Raise ValueError)
        by by apply parse_line_Raise.
      congruence.
Qed.


End Parsing.

(** X1: when [parse_transactions] returns, it returns one record per line
    of exactly eight fields, in the order of the lines; each record holds
    the eight fields of its line, the product name without its commas, the
    quantity read as an integer and the unit price read as a float, commas
    removed.  A line with another number of fields leaves no record. *)
Theorem parse_transactions_records
    (float_parse : string -> option float) (lines : list string)
    (txs : list dict) :
  parse_transactions float_parse lines = Ok txs ->
  Forall2 (record_of float_parse) (List.filter eight_fields lines) txs /\
  Forall parsed txs /\
  (length txs <= length lines)%nat.
Proof.
  intros H. apply parse_loop_Ok in H as (new & -> & Hnew & _). simpl.
  split; [done|]. split.
  - apply Forall_forall. intros tx Htx.
    apply list_elem_of_lookup in Htx as [i Hi].
    destruct (Forall2_lookup_r _ _ _ _ _ Hnew Hi) as (line & _ & Hrec).
    by eapply record_of_parsed.
  - apply Forall2_length in Hnew. rewrite <- Hnew.
    apply List.filter_length_le.
Qed.

(** A data line with thousands separators between two lines that are
    skipped. *)
Lemma parse_transactions_records_witness :
  let lines := ["TransactionID|Date";
                "T1|2024-01-01|P101|Widget, large|1,500|10.0|C1|North";
                ""] in
  let txs := [transaction_of "T1" "2024-01-01" "P101" "Widget large" 1500
                             10%float "C1" "North"] in
  Forall2 (record_of float_parse_sample) (List.filter eight_fields lines) txs /\
  Forall parsed txs /\
  (length txs <= length lines)%nat.
Proof.
  intros lines txs.
  apply (parse_transactions_records float_parse_sample lines txs).
  reflexivity.
Defined.


(** The header line of the sales file has eight fields and the text
    "Quantity" where a number is expected: a caller must drop it before
    parsing. *)
Lemma parse_transactions_header
    (float_parse : string -> option float) (lines : list string) :
  parse_transactions float_parse (join "|" required_fields :: lines)
  = Raise ValueError.
Proof. reflexivity. Qed.

(** A quantity may be surrounded by the whitespace that [int] skips, not by
    the file separator (character 28), although [str.strip] removes it: the
    line ends the whole call. *)
Lemma parse_transactions_separator
    (float_parse : string -> option float) (lines : list string) :
  let fs := String "028" "" in
  parse_transactions float_parse
    (("T1|2024-01-01|P101|Widget|" +:+ fs +:+ "5|10.0|C1|North") :: lines)
  = Raise ValueError /\
  bad_number float_parse
    ("T1|2024-01-01|P101|Widget|" +:+ fs +:+ "5|10.0|C1|North") = true.
Proof. split; reflexivity. Qed.

(** ** More on validation and filtering *)

Section Summary.

Implicit Types (tx v : dict) (txs valid : list dict).

Lemma validation_loop_count txs : forall valid n valid' m,
  validation_loop txs valid n = Ok (valid', m) ->
  len valid' + m = len valid + n + len txs /\ n <= m /\
  exists new, valid' = valid ++ new /\
    Forall (fun v => exists tx, tx ∈ txs /\ validate_tx tx = Ok (Some v)) new.
Proof.
  unfold len.
  induction txs as [|tx txs IH]; intros valid n valid' m; simpl.
  - intros [= <- <-]. split; [lia|]. split; [lia|]. exists [].
    by rewrite app_nil_r.
  - destruct (validate_tx tx) as [[v|]|] eqn:E; simpl; [| |done]; intros H.
    + apply IH in H as (Hlen & Hle & new & -> & Hnew).
      rewrite !length_app in Hlen |- *. cbn [length] in Hlen |- *.
      split; [lia|]. split; [lia|]. exists (v :: new).
      rewrite <- app_assoc. split; [done|]. constructor.
      * exists tx. split; [by left|done].
      * eapply Forall_impl; [exact Hnew|]. intros v' (tx' & Hin & Hv').
        exists tx'. split; [by right|done].
    + apply IH in H as (Hlen & Hle & new & -> & Hnew). simpl length.
      split; [lia|]. split; [lia|]. exists new. split; [done|].
      eapply Forall_impl; [exact Hnew|]. intros v' (tx' & Hin & Hv').
      exists tx'. split; [by right|done].
Qed.

Lemma filter_r_inv {A} (p : A -> result bool) (l k : list A) :
  filter_r p l = Ok k ->
  (length k <= length l)%nat /\ Forall (fun x => p x = Ok true) k /\
  forall x, x ∈ k -> x ∈ l.
Proof.
  revert k. induction l as [|x l IH]; intros k; simpl.
  - intros [= <-]. split; [done|]. split; [constructor|done].
  - destruct (p x) as [b|] eqn:Hx; simpl; [|done].
    destruct (filter_r p l) as [k'|]; simpl; [|done].
    destruct (IH k' eq_refl) as (Hlen & Hall & Hsub).
    intros [= <-]. destruct b.
    + split; [simpl; lia|]. split; [by constructor|].
      intros y [->|Hy]%elem_of_cons; [by left|right; auto].
    + split; [lia|]. split; [done|]. intros y Hy. right. auto.
Qed.

Lemma filter_r_all {A} (p : A -> result bool) (l : list A) :
  Forall (fun x => p x = Ok true) l -> filter_r p l = Ok l.
Proof.
  induction 1 as [|x l Hx Hl IH]; simpl; [done|]. by rewrite Hx, IH.
Qed.

(** A transaction that validation has kept passes validation again and
    comes out unchanged: the amount is computed from the same fields. *)
Lemma validate_tx_fixed tx v :
  validate_tx tx = Ok (Some v) -> validate_tx v = Ok (Some v).
Proof.
  unfold validate_tx.
  destruct (has_required_fields tx) eqn:Hreq; simpl; [|done].
  unfold getitem.
  destruct (tx !! "Quantity") as [q|] eqn:Hq; simpl; [|done].
  destruct (py_le_zero q) as [[]|] eqn:Hq0; simpl; try done.
  destruct (tx !! "UnitPrice") as [up|] eqn:Hup; simpl; [|done].
  destruct (py_le_zero up) as [[]|] eqn:Hup0; simpl; try done.
  destruct (tx !! "TransactionID") as [tid|] eqn:Htid; simpl; [|done].
  destruct (py_startswith tid "T") as [[]|] eqn:Ht; simpl; try done.
  destruct (tx !! "ProductID") as [pid|] eqn:Hpid; simpl; [|done].
  destruct (py_startswith pid "P") as [[]|] eqn:Hp; simpl; try done.
  destruct (tx !! "CustomerID") as [cid|] eqn:Hcid; simpl; [|done].
  destruct (py_startswith cid "C") as [[]|] eqn:Hc; simpl; try done.
  destruct (py_mul q up) as [amount|] eqn:Hmul; simpl; [|done].
  intros [= <-].
  assert (Hreq' : has_required_fields (<["Amount" := amount]> tx) = true).
  { revert Hreq. unfold has_required_fields, required_fields. simpl.
    by rewrite !lookup_insert_ne by done. }
  rewrite Hreq'. simpl.
  rewrite !lookup_insert_ne by done.
  rewrite Hq. simpl. rewrite Hq0. simpl. rewrite Hup. simpl. rewrite Hup0. simpl.
  rewrite Htid. simpl. rewrite Ht. simpl. rewrite Hpid. simpl. rewrite Hp. simpl.
  rewrite Hcid. simpl. rewrite Hc. simpl. rewrite Hmul. simpl.
  by rewrite insert_insert_eq.
Qed.

Lemma validation_loop_fixed valid : forall acc n,
  Forall (fun v => validate_tx v = Ok (Some v)) valid ->
  validation_loop valid acc n = Ok (acc ++ valid, n).
Proof.
  induction valid as [|v valid IH]; intros acc n Hall; simpl.
  - by rewrite app_nil_r.
  - inversion Hall as [|? ? Hv Hrest]; subst. rewrite Hv. simpl.
    rewrite IH by done. by rewrite <- app_assoc.
Qed.

End Summary.

(** X3: the summary of [validate_and_filter] accounts for every input
    transaction: the counts are not negative and the number of inputs is
    the sum of the invalid ones, those removed by the region filter, those
    removed by the amount filters and those returned.  This holds for every
    input on which the function returns. *)
Theorem validate_and_filter_summary
    (txs : list dict) (region : option string) (lo hi : option float)
    (final : list dict) (n : Z) (s : filter_summary) :
  validate_and_filter txs region lo hi = Ok (final, n, s) ->
  total_input s = len txs /\ invalid s = n /\ final_count s = len final /\
  0 <= invalid s /\ 0 <= filtered_by_region s /\ 0 <= filtered_by_amount s /\
  total_input s =
    invalid s + filtered_by_region s + filtered_by_amount s + final_count s.
Proof.
  unfold validate_and_filter.
  destruct (validation_loop txs [] 0) as [[valid m]|] eqn:Hloop; simpl; [|done].
  apply validation_loop_count in Hloop as (Hlen & Hm & _).
  destruct (filter_by_region region valid) as [[v1 fr]|] eqn:H1; simpl; [|done].
  destruct (filter_by_min lo v1 0) as [[v2 fa]|] eqn:H2; simpl; [|done].
  destruct (filter_by_max hi v2 fa) as [[v3 fa']|] eqn:H3; simpl; [|done].
  intros [= <- <- <-]. simpl.
  assert (Hr : len v1 <= len valid /\ fr = len valid - len v1).
  { unfold filter_by_region in H1. destruct region as [r|].
    - destruct (negb (String.eqb r "")).
      + destruct (filter_r (region_matches r) valid) as [k|] eqn:E; [|done].
        simpl in H1. injection H1 as <- <-.
        apply filter_r_inv in E as (Hk & _). unfold len. lia.
      + injection H1 as <- <-. lia.
    - injection H1 as <- <-. lia. }
  assert (Hlo : len v2 <= len v1 /\ fa = len v1 - len v2).
  { unfold filter_by_min in H2. destruct lo as [lo|].
    - destruct (filter_r (amount_at_least lo) v1) as [k|] eqn:E; [|done].
      simpl in H2. injection H2 as <- <-.
      apply filter_r_inv in E as (Hk & _). unfold len. lia.
    - injection H2 as <- <-. lia. }
  assert (Hhi : len v3 <= len v2 /\ fa' = fa + (len v2 - len v3)).
  { unfold filter_by_max in H3. destruct hi as [hi|].
    - destruct (filter_r (amount_at_most hi) v2) as [k|] eqn:E; [|done].
      simpl in H3. injection H3 as <- <-.
      apply filter_r_inv in E as (Hk & _). unfold len. lia.
    - injection H3 as <- <-. lia. }
  unfold len in *. simpl in Hlen. lia.
Qed.

(** Three transactions: one invalid, one outside the region, one kept. *)
Lemma validate_and_filter_summary_witness :
  let txs :=
    [transaction_of "T1" "2024-01-01" "P101" "Widget" 5 10%float "C1" "North";
     transaction_of "X2" "2024-01-02" "P102" "Gadget" 7 10%float "C2" "North";
     transaction_of "T3" "2024-01-01" "P103" "Gizmo" 2 10%float "C1" "South"] in
  let final :=
    [<["Amount" := VFloat 50]>
       (transaction_of "T1" "2024-01-01" "P101" "Widget" 5 10%float "C1" "North")] in
  let s := {| total_input := 3; invalid := 1; filtered_by_region := 1;
              filtered_by_amount := 0; final_count := 1 |} in
  total_input s = len txs /\ invalid s = 1 /\ final_count s = len final /\
  0 <= invalid s /\ 0 <= filtered_by_region s /\ 0 <= filtered_by_amount s /\
  total_input s =
    invalid s + filtered_by_region s + filtered_by_amount s + final_count s.
Proof.
  intros txs final s.
  apply (validate_and_filter_summary txs (Some "North") None None final 1 s).
  reflexivity.
Defined.

(** X4: filtering the result of [validate_and_filter] again with the same
    arguments changes nothing: every transaction is valid, none is
    filtered, and the same list comes back. *)
Theorem validate_and_filter_idempotent
    (txs : list dict) (region : option string) (lo hi : option float)
    (final : list dict) (n : Z) (s : filter_summary) :
  validate_and_filter txs region lo hi = Ok (final, n, s) ->
  validate_and_filter final region lo hi =
    Ok (final, 0,
        {| total_input := len final; invalid := 0; filtered_by_region := 0;
           filtered_by_amount := 0; final_count := len final |}).
Proof.
  unfold validate_and_filter at 1.
  destruct (validation_loop txs [] 0) as [[valid m]|] eqn:Hloop; simpl; [|done].
  apply validation_loop_count in Hloop as (_ & _ & new & -> & Hnew).
  simpl in *.
  assert (Hvalid : Forall (fun v => validate_tx v = Ok (Some v)) new).
  { eapply Forall_impl; [exact Hnew|]. intros v (tx & _ & Hv).
    by eapply validate_tx_fixed. }
  clear Hnew.
  destruct (filter_by_region region new) as [[v1 fr]|] eqn:H1; simpl; [|done].
  destruct (filter_by_min lo v1 0) as [[v2 fa]|] eqn:H2; simpl; [|done].
  destruct (filter_by_max hi v2 fa) as [[v3 fa']|] eqn:H3; simpl; [|done].
  intros [= <- <- <-].
  assert (Hsub3 : forall x, x ∈ v3 -> x ∈ v2).
  { unfold filter_by_max in H3. destruct hi as [hi|].
    - destruct (filter_r (amount_at_most hi) v2) as [k|] eqn:E; [|done].
      simpl in H3. injection H3 as <- <-. by apply filter_r_inv in E as (_ & _ & ?).
    - by injection H3 as <- <-. }
  assert (Hsub2 : forall x, x ∈ v2 -> x ∈ v1).
  { unfold filter_by_min in H2. destruct lo as [lo|].
    - destruct (filter_r (amount_at_least lo) v1) as [k|] eqn:E; [|done].
      simpl in H2. injection H2 as <- <-. by apply filter_r_inv in E as (_ & _ & ?).
    - by injection H2 as <- <-. }
  assert (Hsub1 : forall x, x ∈ v1 -> x ∈ new).
  { unfold filter_by_region in H1. destruct region as [r|].
    - destruct (negb (String.eqb r "")).
      + destruct (filter_r (region_matches r) new) as [k|] eqn:E; [|done].
        simpl in H1. injection H1 as <- <-.
        by apply filter_r_inv in E as (_ & _ & ?).
      + by injection H1 as <- <-.
    - by injection H1 as <- <-. }
  assert (Hv3 : Forall (fun v => validate_tx v = Ok (Some v)) v3).
  { rewrite Forall_forall in Hvalid |- *. intros x Hx. auto. }
  unfold validate_and_filter.
  rewrite (validation_loop_fixed v3 [] 0 Hv3). simpl.
  assert (R1 : filter_by_region region v3 = Ok (v3, 0)).
  { unfold filter_by_region in *. destruct region as [r|]; [|done].
    destruct (negb (String.eqb r "")); [|done].
    destruct (filter_r (region_matches r) new) as [k|] eqn:E; [|done].
    simpl in H1. injection H1 as <- _.
    apply filter_r_inv in E as (_ & Hall & _).
    rewrite filter_r_all.
    - simpl. do 2 f_equal. lia.
    - rewrite Forall_forall in Hall |- *. intros x Hx. auto. }
  rewrite R1. simpl.
  assert (R2 : filter_by_min lo v3 0 = Ok (v3, 0)).
  { unfold filter_by_min in *. destruct lo as [lo|]; [|done].
    destruct (filter_r (amount_at_least lo) v1) as [k|] eqn:E; [|done].
    simpl in H2. injection H2 as <- _.
    apply filter_r_inv in E as (_ & Hall & _).
    rewrite filter_r_all.
    - simpl. do 2 f_equal. lia.
    - rewrite Forall_forall in Hall |- *. intros x Hx. auto. }
  rewrite R2. simpl.
  assert (R3 : filter_by_max hi v3 0 = Ok (v3, 0)).
  { unfold filter_by_max in *. destruct hi as [hi|]; [|done].
    destruct (filter_r (amount_at_most hi) v2) as [k|] eqn:E; [|done].
    simpl in H3. injection H3 as <- _.
    apply filter_r_inv in E as (_ & Hall & _).
    rewrite filter_r_all; [|done].
    simpl. do 2 f_equal. lia. }
  rewrite R3. simpl. done.
Qed.

(** The kept transaction of a filtered run, run again. *)
Lemma validate_and_filter_idempotent_witness :
  let txs :=
    [transaction_of "T1" "2024-01-01" "P101" "Widget" 5 10%float "C1" "North";
     transaction_of "X2" "2024-01-02" "P102" "Gadget" 7 10%float "C2" "North";
     transaction_of "T3" "2024-01-01" "P103" "Gizmo" 2 10%float "C1" "South"] in
  let final :=
    [<["Amount" := VFloat 50]>
       (transaction_of "T1" "2024-01-01" "P101" "Widget" 5 10%float "C1" "North")] in
  validate_and_filter final (Some "North") (Some 20%float) None =
    Ok (final, 0,
        {| total_input := len final; invalid := 0; filtered_by_region := 0;
           filtered_by_amount := 0; final_count := len final |}).
Proof.
  intros txs final.
  apply (validate_and_filter_idempotent txs (Some "North") (Some 20%float) None
           final 1
           {| total_input := 3; invalid := 1; filtered_by_region := 1;
              filtered_by_amount := 0; final_count := 1 |}).
  reflexivity.
Defined.

(** ** More on enrichment, and the catalog *)

Section Catalog.

Implicit Types (tx product : dict) (mapping : product_mapping)
  (products : list dict).

Lemma api_id_of_set_api_fields tx c b r m :
  api_id_of (set_api_fields tx c b r m) = api_id_of tx.
Proof.
  unfold api_id_of, dict_get, set_api_fields.
  by rewrite !lookup_insert_ne by done.
Qed.

Lemma set_api_fields_twice tx c b r m c' b' r' m' :
  set_api_fields (set_api_fields tx c' b' r' m') c b r m
  = set_api_fields tx c b r m.
Proof.
  apply map_eq. intros k. unfold set_api_fields.
  destruct (decide (k = "API_Match")) as [->|H1]; [by rewrite !lookup_insert_eq|].
  rewrite !(lookup_insert_ne _ "API_Match") by done.
  destruct (decide (k = "API_Rating")) as [->|H2]; [by rewrite !lookup_insert_eq|].
  rewrite !(lookup_insert_ne _ "API_Rating") by done.
  destruct (decide (k = "API_Brand")) as [->|H3]; [by rewrite !lookup_insert_eq|].
  rewrite !(lookup_insert_ne _ "API_Brand") by done.
  destruct (decide (k = "API_Category")) as [->|H4]; [by rewrite !lookup_insert_eq|].
  rewrite !(lookup_insert_ne _ "API_Category") by done.
  rewrite !lookup_insert_ne by done. done.
Qed.

Lemma enrich_tx_twice mapping mapping' tx :
  enrich_tx mapping (enrich_tx mapping' tx) = enrich_tx mapping tx.
Proof.
  unfold enrich_tx at 2.
  destruct (api_id_of tx) as [k'|] eqn:E; [destruct (mapping' !! k')|];
    unfold enrich_tx; rewrite api_id_of_set_api_fields, E;
    try destruct (mapping !! k'); apply set_api_fields_twice.
Qed.

Lemma for_each_app {A S} (body : S -> A -> result S) (l1 l2 : list A) (s : S) :
  for_each body (l1 ++ l2) s = s' ← for_each body l1 s; for_each body l2 s'.
Proof.
  revert s. induction l1 as [|x l1 IH]; intros s; simpl; [done|].
  destruct (body s x); simpl; [apply IH|done].
Qed.

(** The three outcomes of the loop body. *)
Lemma mapping_step_cases mapping product :
  (product_key product = None /\ usable_id product = true /\
   mapping_step mapping product = Ok mapping) \/
  (exists k, product_key product = Some k /\ usable_id product = true /\
     mapping_step mapping product = Ok (<[k := product_info product]> mapping)) \/
  (exists e, usable_id product = false /\
     mapping_step mapping product = Raise e).
Proof.
  unfold mapping_step, product_key, usable_id.
  destruct (dict_get product "id" VNone) as [|b|z|f|s] eqn:Hid.
  - left. done.
  - right. left. by exists (Z.b2z b).
  - right. left. by exists z.
  - destruct (int_of (VFloat f)) as [k|e] eqn:Hk; simpl.
    + right. left. by exists k.
    + right. right. by exists e.
  - destruct (int_of (VStr s)) as [k|e] eqn:Hk; simpl.
    + right. left. by exists k.
    + right. right. by exists e.
Qed.

Lemma create_product_mapping_snoc products product :
  create_product_mapping (products ++ [product]) =
    mapping ← create_product_mapping products; mapping_step mapping product.
Proof.
  unfold create_product_mapping. rewrite for_each_app.
  destruct (for_each _ products ∅) as [mapping|]; simpl; [|done].
  by destruct (mapping_step mapping product).
Qed.

(** The mapping after the loop: under each key, the entry of the last
    product with that key. *)
Lemma create_product_mapping_last products : forall mapping,
  create_product_mapping products = Ok mapping ->
  forall k,
    mapping !! k =
      product_info <$> last (filter (fun p => product_key p = Some k) products).
Proof.
  induction products as [|product products IH] using rev_ind;
    intros mapping.
  - intros [= <-] k. done.
  - rewrite create_product_mapping_snoc.
    destruct (create_product_mapping products) as [m|]; simpl; [|done].
    specialize (IH m eq_refl).
    intros H k. rewrite filter_app.
    destruct (mapping_step_cases m product)
      as [(Hkey & _ & Hstep)|[(k' & Hkey & _ & Hstep)|(e & _ & Hstep)]];
      rewrite Hstep in H; [| |done]; injection H as <-.
    + rewrite filter_cons_False, filter_nil, app_nil_r, IH; [done|].
      by rewrite Hkey.
    + destruct (decide (k' = k)) as [->|Hne].
      * rewrite lookup_insert_eq, filter_cons_True, filter_nil by done.
        by rewrite last_snoc.
      * rewrite lookup_insert_ne by done.
        rewrite filter_cons_False, filter_nil, app_nil_r, IH; [done|].
        rewrite Hkey. congruence.
Qed.

End Catalog.

(** X5: enriching again replaces the four catalog fields and nothing else:
    the result of a second enrichment, with the same or with another
    catalog, is that of enriching the original transactions with the
    catalog used last.  In particular [enrich_sales_data] is idempotent. *)
Theorem enrich_sales_data_again
    (mapping mapping' : product_mapping) (txs : list dict) :
  enrich_sales_data (enrich_sales_data txs mapping') mapping
    = enrich_sales_data txs mapping /\
  enrich_sales_data (enrich_sales_data txs mapping) mapping
    = enrich_sales_data txs mapping.
Proof.
  assert (H : forall m m', enrich_sales_data (enrich_sales_data txs m') m
                           = enrich_sales_data txs m).
  { intros m m'. rewrite !enrich_sales_data_map, map_map.
    apply map_ext. intros tx. apply enrich_tx_twice. }
  split; apply H.
Qed.

(** X6: when [create_product_mapping] returns, the entry under a key is
    built from the last product of the catalog whose [id] converts to that
    key, a field that this product lacks being null; a product without [id]
    contributes nothing, and a key is absent exactly when no product has
    it. *)
Theorem create_product_mapping_lookup
    (products : list dict) (mapping : product_mapping) (k : Z) :
  create_product_mapping products = Ok mapping ->
  mapping !! k =
    product_info <$> last (filter (fun p => product_key p = Some k) products) /\
  (mapping !! k = None <->
   Forall (fun p => product_key p <> Some k) products).
Proof.
  intros H. pose proof (create_product_mapping_last products mapping H k) as E.
  split; [done|]. rewrite E, fmap_None, last_None. split.
  - intros Hnil. apply Forall_forall. intros p Hp Hk.
    assert (Hin : p ∈ filter (fun p => product_key p = Some k) products)
      by by apply list_elem_of_filter.
    rewrite Hnil in Hin. by apply elem_of_nil in Hin.
  - clear. induction 1 as [|p l Hp Hl IH]; [done|].
    by rewrite filter_cons_False.
Qed.

(** A catalog in which ID 1 occurs twice and one product has no ID; the
    key 1 is looked up. *)
Lemma create_product_mapping_lookup_witness :
  let products : list dict :=
    [{[ "id" := VInt 1; "category" := VStr "beauty" ]};
     {[ "category" := VStr "orphan" ]};
     {[ "id" := VInt 2; "brand" := VStr "Acme" ]};
     {[ "id" := VFloat 1; "category" := VStr "fragrances";
        "rating" := VFloat 4.5 ]}] in
  let mapping : product_mapping :=
    {[ 1 := {| category := VStr "fragrances"; brand := VNone;
               rating := VFloat 4.5 |};
       2 := {| category := VNone; brand := VStr "Acme"; rating := VNone |} ]} in
  mapping !! 1 =
    product_info <$> last (filter (fun p => product_key p = Some 1) products) /\
  (mapping !! 1 = None <->
   Forall (fun p => product_key p <> Some 1) products).
Proof.
  intros products mapping.
  apply (create_product_mapping_lookup products mapping 1).
  reflexivity.
Defined.


(** The exceptions for the kinds of [id] that do not convert. *)
Lemma create_product_mapping_failures :
  create_product_mapping [{[ "id" := VStr "12a" ]}] = Raise ValueError /\
  create_product_mapping [{[ "id" := VFloat nan ]}] = Raise ValueError /\
  create_product_mapping [{[ "id" := VFloat infinity ]}] = Raise OverflowError /\
  create_product_mapping [{[ "id" := VStr " 12 " ]}; {[ "id" := VFloat 7.5 ]}]
  = Ok {[ 12 := product_info ∅; 7 := product_info ∅ ]}.
Proof. repeat split. Qed.

(** An [id] that is a text may be padded with a tab, not with the file
    separator (character 28). *)
Lemma create_product_mapping_separator :
  create_product_mapping [{[ "id" := VStr (String "009" "5") ]}]
  = Ok {[ 5 := product_info ∅ ]} /\
  usable_id {[ "id" := VStr (String "028" "5") ]} = false /\
  create_product_mapping [{[ "id" := VStr (String "028" "5") ]}]
  = Raise ValueError.
Proof. repeat split. Qed.

(** X8: the catalog and the enrichment together.  For a transaction whose
    ProductID is "P" followed by the numeral [d], the enriched record takes
    its category, brand and rating from the last product of the catalog
    whose [id] converts to [d - 100], with [API_Match = True] even when that
    product lacks some of the three fields (they are null then); without
    such a product the record has three nulls and [API_Match = False]. *)
Theorem enrich_sales_data_catalog
    (products : list dict) (mapping : product_mapping)
    (txs : list dict) (i : nat) (tx : dict) (d : Decimal.uint) :
  create_product_mapping products = Ok mapping ->
  d <> Decimal.Nil ->
  txs !! i = Some tx ->
  tx !! "ProductID" = Some (VStr (String "P" (NilEmpty.string_of_uint d))) ->
  exists e, enrich_sales_data txs mapping !! i = Some e /\
    match last (filter (fun p => product_key p = Some (Z.of_uint d - 100))
                       products) with
    | Some p =>
        api_fields_are e (dict_get p "category" VNone) (dict_get p "brand" VNone)
                       (dict_get p "rating" VNone) true
    | None => api_fields_are e VNone VNone VNone false
    end.
Proof.
  intros Hmap Hd Hi Hpid.
  exists (enrich_tx mapping tx). split; [by apply enrich_sales_data_lookup|].
  unfold enrich_tx. rewrite (api_id_of_numeral tx d Hd Hpid).
  rewrite (create_product_mapping_last products mapping Hmap).
  destruct (last _) as [p|]; simpl; apply set_api_fields_are.
Qed.

(** "P101" against a catalog whose product 1 has no brand. *)
Lemma enrich_sales_data_catalog_witness :
  let products : list dict :=
    [{[ "id" := VInt 1; "category" := VStr "beauty"; "rating" := VFloat 4.5 ]}] in
  let mapping : product_mapping :=
    {[ 1 := {| category := VStr "beauty"; brand := VNone;
               rating := VFloat 4.5 |} ]} in
  let tx : dict := {[ "ProductID" := VStr "P101" ]} in
  exists e, enrich_sales_data [tx] mapping !! 0%nat = Some e /\
    api_fields_are e (VStr "beauty") VNone (VFloat 4.5) true.
Proof.
  intros products mapping tx.
  assert (Hd : Decimal.D1 (Decimal.D0 (Decimal.D1 Decimal.Nil)) <> Decimal.Nil)
    by discriminate.
  pose proof (enrich_sales_data_catalog products mapping [tx] 0 tx _
                eq_refl Hd eq_refl eq_refl) as H.
  exact H.
Defined.

(** ** More on the order of floats, and on sorting *)

Section FloatOrderMore.

Implicit Types (a b c : spec_float) (x y z : float).

Lemma SFcompare_le_trans a b c :
  (SFcompare a b = Some Lt \/ SFcompare a b = Some Eq) ->
  (SFcompare b c = Some Lt \/ SFcompare b c = Some Eq) ->
  SFcompare a c = Some Lt \/ SFcompare a c = Some Eq.
Proof.
  destruct a as [[]|[]| |[] ? ?], b as [[]|[]| |[] ? ?], c as [[]|[]| |[] ? ?];
    simpl; intros [H1|H1] [H2|H2]; try congruence; try tauto;
    repeat match goal with
    | |- context [Z.compare ?u ?v] => destruct (Z.compare_spec u v)
    | H : context [Z.compare ?u ?v] |- _ => destruct (Z.compare_spec u v)
    | |- context [Pos.compare_cont Eq ?u ?v] =>
        change (Pos.compare_cont Eq u v) with (Pos.compare u v);
        destruct (Pos.compare_spec u v)
    | H : context [Pos.compare_cont Eq ?u ?v] |- _ =>
        change (Pos.compare_cont Eq u v) with (Pos.compare u v) in H;
        destruct (Pos.compare_spec u v)
    end; simpl in *; subst; try congruence; try lia; try tauto.
Qed.

Lemma float_leb_le x y :
  PrimFloat.leb x y = true <->
  SFcompare (Prim2SF x) (Prim2SF y) = Some Lt \/
  SFcompare (Prim2SF x) (Prim2SF y) = Some Eq.
Proof.
  rewrite FloatAxioms.leb_spec. unfold SFleb.
  destruct (SFcompare _ _) as [[]|]; split; try tauto; try congruence;
    intros [?|?]; congruence.
Qed.

Lemma float_leb_trans x y z :
  PrimFloat.leb x y = true -> PrimFloat.leb y z = true ->
  PrimFloat.leb x z = true.
Proof. rewrite !float_leb_le. apply SFcompare_le_trans. Qed.

Lemma float_ltb_leb x y : PrimFloat.ltb x y = true -> PrimFloat.leb x y = true.
Proof. rewrite float_ltb_lt, float_leb_le. tauto. Qed.

End FloatOrderMore.

Section SortingFloats.

Context {A : Type} (key : A -> float).

Implicit Types (x y : A) (l : list A).

(** With float keys that are numbers the descending sort leaves the list
    in non-increasing order. *)
Lemma insert_desc_float_sorted x l :
  (forall y, y ∈ x :: l -> is_number (key y) = true) ->
  StronglySorted (fun a b => PrimFloat.leb (key b) (key a) = true) l ->
  StronglySorted (fun a b => PrimFloat.leb (key b) (key a) = true)
    (insert_desc (fun y => NFloat (key y)) x l).
Proof.
  intros Hnum Hsorted. revert Hnum.
  induction Hsorted as [|y l Hl IH Hy]; intros Hnum; simpl.
  - repeat constructor.
  - destruct (PrimFloat.ltb (key x) (key y)) eqn:E.
    + constructor.
      * apply IH. intros z Hz. apply Hnum.
        apply elem_of_cons in Hz as [->|Hz]; [by left|right; by right].
      * apply Forall_forall. intros z Hz.
        rewrite insert_desc_Permutation in Hz.
        apply elem_of_cons in Hz as [->|Hz]; [by apply float_ltb_leb|].
        rewrite Forall_forall in Hy. by apply Hy.
    + assert (Hyx : PrimFloat.leb (key y) (key x) = true).
      { apply float_leb_of_not_ltb; [| |done]; apply Hnum.
        - by left.
        - right. by left. }
      constructor; [by constructor|]. constructor; [done|].
      eapply Forall_impl; [exact Hy|]. simpl. intros z Hz.
      by eapply float_leb_trans.
Qed.

Lemma sort_desc_float_sorted l :
  (forall y, y ∈ l -> is_number (key y) = true) ->
  StronglySorted (fun a b => PrimFloat.leb (key b) (key a) = true)
    (sort_desc (fun y => NFloat (key y)) l).
Proof.
  induction l as [|x l IH]; intros Hnum; simpl; [constructor|].
  apply insert_desc_float_sorted.
  - intros y Hy. apply Hnum.
    apply elem_of_cons in Hy as [->|Hy]; [by left|right].
    by rewrite sort_desc_Permutation in Hy.
  - apply IH. intros y Hy. apply Hnum. by right.
Qed.

End SortingFloats.

(** ** The aggregation functions *)

Section Aggregates.

Implicit Types (tx : dict) (txs : list dict) (k : value).

Lemma sum_Z_app (l1 l2 : list Z) : sum_Z (l1 ++ l2) = sum_Z l1 + sum_Z l2.
Proof. induction l1 as [|x l1 IH]; simpl; [done|]. rewrite IH. lia. Qed.

Lemma sum_Z_Permutation (l1 l2 : list Z) : l1 ≡ₚ l2 -> sum_Z l1 = sum_Z l2.
Proof. induction 1; simpl; lia. Qed.

Lemma indicator_sum (ks : list value) (k0 : value) :
  NoDup ks -> k0 ∈ ks ->
  sum_Z (map (fun k => if decide (k0 = k) then 1 else 0) ks) = 1.
Proof.
  induction 1 as [|k ks Hk Hnd IH]; intros Hin; [by apply elem_of_nil in Hin|].
  simpl. destruct (decide (k0 = k)) as [->|Hne].
  - assert (E : sum_Z (map (fun k' => if decide (k = k') then 1 else 0) ks) = 0).
    { clear IH Hin Hnd. induction ks as [|k' ks IH]; [done|]. simpl.
      rewrite decide_False by (intros ->; apply Hk; by left).
      rewrite IH; [done|]. intros H. apply Hk. by right. }
    rewrite E. done.
  - apply elem_of_cons in Hin as [?|Hin]; [done|]. rewrite IH by done. done.
Qed.

(** The groups of a list partition it: their sizes add up to its
    length. *)
Lemma group_lengths {A} (key : A -> value) (ks : list value) (xs : list A) :
  NoDup ks -> (forall x, x ∈ xs -> key x ∈ ks) ->
  sum_Z (map (fun k => len (filter (fun x => key x = k) xs)) ks) = len xs.
Proof.
  intros Hnd. unfold len. induction xs as [|x xs IH]; intros Hks.
  - simpl. clear. induction ks as [|k ks IH]; [done|]. simpl. by rewrite IH.
  - assert (E : forall k, Z.of_nat (length (filter (fun x => key x = k) (x :: xs)))
                = (if decide (key x = k) then 1 else 0)
                  + Z.of_nat (length (filter (fun x => key x = k) xs))).
    { intros k. rewrite filter_cons. destruct (decide (key x = k)); simpl; lia. }
    rewrite (map_ext _ _ E).
    assert (S : forall (f g : value -> Z) l,
               sum_Z (map (fun k => f k + g k) l)
               = sum_Z (map f l) + sum_Z (map g l)).
    { intros f g l. induction l as [|k l IHl]; simpl; [done|]. rewrite IHl. lia. }
    rewrite S, IH, indicator_sum; [simpl length; lia|done| |].
    + apply Hks. by left.
    + intros y Hy. apply Hks. by right.
Qed.

(** On well-typed transactions the total revenue is the sum of the sale
    amounts, accumulated from the left starting at 0.0. *)
Lemma calculate_total_revenue_sum txs :
  Forall (fun tx => well_typed tx = true) txs ->
  calculate_total_revenue txs = Ok (sum_amounts txs).
Proof.
  intros Hwt. unfold calculate_total_revenue, sum_amounts.
  apply for_each_pure. eapply Forall_impl; [exact Hwt|]. intros tx Htx s.
  by rewrite sale_value_well_typed.
Qed.

Lemma region_step_well_typed tx (d : odict region_stat) (t : float) :
  well_typed tx = true ->
  region_step (d, t) tx =
    Ok (upsert_pure (field "Region" tx) region_init (region_update tx) d,
        PrimFloat.add t (amount_of tx)).
Proof.
  intros Hwt. pose proof (sale_value_well_typed tx Hwt) as Hsale.
  destruct (well_typed_inv tx Hwt)
    as (date & product & region & q & up & fq & _ & _ & Hr & _).
  unfold region_step, getitem, field. rewrite Hr, Hsale. simpl.
  rewrite (upsert_Ok _ _ _ (region_update tx)) by done. done.
Qed.

Lemma region_loop txs :
  Forall (fun tx => well_typed tx = true) txs ->
  forall (d : odict region_stat) (t : float),
  for_each region_step txs (d, t) =
    Ok (fold_left (fun d tx => upsert_pure (field "Region" tx) region_init
                                 (region_update tx) d) txs d,
        fold_left (fun acc tx => PrimFloat.add acc (amount_of tx)) txs t).
Proof.
  induction 1 as [|tx txs Htx Htxs IH]; intros d t; [done|].
  cbn [for_each fold_left]. rewrite region_step_well_typed by done.
  apply IH.
Qed.

Lemma region_update_fold (l : list dict) (st : region_stat) :
  fold_left (fun v x => region_update x v) l st =
    {| total_sales :=
         fold_left (fun acc tx => PrimFloat.add acc (amount_of tx)) l
                   (total_sales st);
       region_transaction_count := region_transaction_count st + len l |}.
Proof.
  revert st. induction l as [|tx l IH]; intros st; simpl.
  - destruct st. simpl. f_equal. unfold len. simpl. lia.
  - rewrite IH. simpl. f_equal. unfold len. simpl length. lia.
Qed.

Lemma region_stats_spec txs :
  Forall (fun tx => well_typed tx = true) txs ->
  for_each region_step txs ([], 0%float) =
    Ok (map (fun r => (r, {| total_sales := sum_amounts (group "Region" r txs);
                             region_transaction_count :=
                               len (group "Region" r txs) |}))
            (distinct "Region" txs),
        sum_amounts txs).
Proof.
  intros Hwt. rewrite region_loop by done.
  rewrite (group_spec (field "Region") region_update region_init).
  do 2 f_equal. apply map_ext. intros r. unfold accumulated.
  rewrite region_update_fold. done.
Qed.

Lemma region_wise_sales_table txs :
  Forall (fun tx => well_typed tx = true) txs ->
  region_wise_sales txs =
    Ok (sort_desc (fun item : value * region_entry =>
                     NFloat (entry_total_sales item.2))
          (map (fun r => (r, region_entry_of txs r)) (distinct "Region" txs))).
Proof.
  intros Hwt. unfold region_wise_sales.
  pose proof (region_stats_spec txs Hwt) as Hloop.
  unfold odict in *. rewrite Hloop. simpl.
  by rewrite map_map.
Qed.

End Aggregates.

Section Pipeline.

Implicit Types (tx v : dict) (txs final : list dict).

(** Every transaction that [validate_and_filter] returns is one that the
    validation loop has built from a transaction of the input. *)
Lemma validate_and_filter_origin txs region lo hi final n s :
  validate_and_filter txs region lo hi = Ok (final, n, s) ->
  Forall (fun v => exists tx, tx ∈ txs /\ validate_tx tx = Ok (Some v)) final.
Proof.
  unfold validate_and_filter.
  destruct (validation_loop txs [] 0) as [[valid m]|] eqn:Hloop; simpl; [|done].
  apply validation_loop_count in Hloop as (_ & _ & new & -> & Hnew).
  simpl in *.
  destruct (filter_by_region region new) as [[v1 fr]|] eqn:H1; simpl; [|done].
  destruct (filter_by_min lo v1 0) as [[v2 fa]|] eqn:H2; simpl; [|done].
  destruct (filter_by_max hi v2 fa) as [[v3 fa']|] eqn:H3; simpl; [|done].
  intros [= <- <- <-].
  assert (Hsub3 : forall x, x ∈ v3 -> x ∈ v2).
  { unfold filter_by_max in H3. destruct hi as [hi|].
    - destruct (filter_r (amount_at_most hi) v2) as [k|] eqn:E; [|done].
      simpl in H3. injection H3 as <- <-. by apply filter_r_inv in E as (_ & _ & ?).
    - by injection H3 as <- <-. }
  assert (Hsub2 : forall x, x ∈ v2 -> x ∈ v1).
  { unfold filter_by_min in H2. destruct lo as [lo|].
    - destruct (filter_r (amount_at_least lo) v1) as [k|] eqn:E; [|done].
      simpl in H2. injection H2 as <- <-. by apply filter_r_inv in E as (_ & _ & ?).
    - by injection H2 as <- <-. }
  assert (Hsub1 : forall x, x ∈ v1 -> x ∈ new).
  { unfold filter_by_region in H1. destruct region as [r|].
    - destruct (negb (String.eqb r "")).
      + destruct (filter_r (region_matches r) new) as [k|] eqn:E; [|done].
        simpl in H1. injection H1 as <- <-.
        by apply filter_r_inv in E as (_ & _ & ?).
      + by injection H1 as <- <-.
    - by injection H1 as <- <-. }
  rewrite Forall_forall in Hnew |- *. intros x Hx. auto.
Qed.

(** The amount stored by validation is the sale amount of the record. *)
Lemma kept_stored_amount tx v :
  parsed tx -> validate_tx tx = Ok (Some v) ->
  well_typed v = true /\ amount_of v = stored_amount v.
Proof.
  intros Hp Hv. split; [by eapply validate_tx_well_typed|].
  destruct Hp as (tid & date & pid & name & q & up & cid & region & ->).
  rewrite validate_tx_transaction_of in Hv.
  destruct (passes_checks _ _ _ _ _ _ _ _); [|done].
  destruct (float_of_int q) as [f|] eqn:E; simpl in Hv; [|done].
  injection Hv as <-.
  unfold amount_of, stored_amount, sale_value, getitem.
  rewrite lookup_insert_eq, !lookup_insert_ne by done.
  change (transaction_of tid date pid name q up cid region !! "Quantity")
    with (Some (VInt q)).
  change (transaction_of tid date pid name q up cid region !! "UnitPrice")
    with (Some (VFloat up)).
  simpl. unfold py_mul. simpl. rewrite E. done.
Qed.

Lemma fold_left_ext_in {A B} (f g : B -> A -> B) (l : list A) (b : B) :
  (forall acc x, x ∈ l -> f acc x = g acc x) ->
  fold_left f l b = fold_left g l b.
Proof.
  revert b. induction l as [|x l IH]; intros b H; simpl; [done|].
  rewrite H by (by left). apply IH. intros acc y Hy. apply H. by right.
Qed.

End Pipeline.

(** X9: the total revenue of the transactions that [validate_and_filter]
    returns for parsed input is the sum of the amounts that validation
    stored in them, added from the left in list order starting at 0.0;
    [calculate_total_revenue] does not raise on them. *)
Theorem calculate_total_revenue_amounts
    (txs : list dict) (region : option string) (lo hi : option float)
    (final : list dict) (n : Z) (s : filter_summary) :
  Forall parsed txs ->
  validate_and_filter txs region lo hi = Ok (final, n, s) ->
  calculate_total_revenue final =
    Ok (fold_left (fun acc tx => PrimFloat.add acc (stored_amount tx))
                  final 0%float).
Proof.
  intros Hp Hres.
  pose proof (validate_and_filter_origin _ _ _ _ _ _ _ Hres) as Horigin.
  assert (Hfinal : Forall (fun v => well_typed v = true /\
                                    amount_of v = stored_amount v) final).
  { rewrite Forall_forall in Horigin, Hp |- *. intros v Hv.
    destruct (Horigin v Hv) as (tx & Htx & Hval).
    eapply kept_stored_amount; [by apply Hp|done]. }
  rewrite calculate_total_revenue_sum.
  - f_equal. unfold sum_amounts. apply fold_left_ext_in.
    intros acc v Hv. rewrite Forall_forall in Hfinal.
    by destruct (Hfinal v Hv) as [_ ->].
  - eapply Forall_impl; [exact Hfinal|]. by intros v [? _].
Qed.

(** Two valid transactions and an invalid one. *)
Lemma calculate_total_revenue_amounts_witness :
  let txs :=
    [transaction_of "T1" "2024-01-01" "P101" "Widget" 5 10%float "C1" "North";
     transaction_of "X2" "2024-01-02" "P102" "Gadget" 7 10%float "C2" "North";
     transaction_of "T3" "2024-01-01" "P103" "Gizmo" 2 10%float "C1" "South"] in
  let final :=
    [<["Amount" := VFloat 50]>
       (transaction_of "T1" "2024-01-01" "P101" "Widget" 5 10%float "C1" "North");
     <["Amount" := VFloat 20]>
       (transaction_of "T3" "2024-01-01" "P103" "Gizmo" 2 10%float "C1" "South")] in
  calculate_total_revenue final =
    Ok (fold_left (fun acc tx => PrimFloat.add acc (stored_amount tx))
                  final 0%float).
Proof.
  intros txs final.
  apply (calculate_total_revenue_amounts txs None None None final 1
           {| total_input := 3; invalid := 1; filtered_by_region := 0;
              filtered_by_amount := 0; final_count := 2 |}).
  - repeat constructor; by repeat eexists.
  - reflexivity.
Defined.

(** X10: [region_wise_sales] on well-typed transactions returns one entry
    per region of the input.  The transaction counts of the entries add up
    to the number of transactions; the total of an entry is the total
    revenue of the transactions of its region, its count their number, and
    its percentage is computed against the total revenue of the whole
    list. *)
Theorem region_wise_sales_entries (txs : list dict) :
  Forall (fun tx => well_typed tx = true) txs ->
  exists entries total,
    region_wise_sales txs = Ok entries /\
    calculate_total_revenue txs = Ok total /\
    NoDup entries.*1 /\
    (forall r, r ∈ entries.*1 <-> r ∈ map (field "Region") txs) /\
    sum_Z (map (fun item : value * region_entry =>
                  entry_transaction_count item.2) entries) = len txs /\
    forall r e, (r, e) ∈ entries ->
      calculate_total_revenue (group "Region" r txs)
        = Ok (entry_total_sales e) /\
      entry_transaction_count e = len (group "Region" r txs) /\
      entry_percentage e = percentage_of (entry_total_sales e) total.
Proof.
  intros Hwt.
  set (F := fun r => (r, region_entry_of txs r)).
  set (ks := distinct "Region" txs).
  set (key := fun item : value * region_entry => NFloat (entry_total_sales item.2)).
  assert (Hperm : sort_desc key (map F ks) ≡ₚ map F ks)
    by apply sort_desc_Permutation.
  assert (Hfst : (map F ks).*1 = ks).
  { generalize ks. intros l. induction l as [|k l IH]; [done|].
    simpl. f_equal. exact IH. }
  assert (Hkeys : (sort_desc key (map F ks)).*1 ≡ₚ ks)
    by (by rewrite Hperm, Hfst).
  exists (sort_desc key (map F ks)), (sum_amounts txs).
  split; [by apply region_wise_sales_table|].
  split; [by apply calculate_total_revenue_sum|].
  split; [|split; [|split]].
  - rewrite Hkeys. apply NoDup_encounter_order.
  - intros r. rewrite Hkeys. apply elem_of_encounter_order.
  - rewrite (sum_Z_Permutation _ _ (Permutation_map _ Hperm)), map_map.
    simpl. apply (group_lengths (field "Region")).
    + apply NoDup_encounter_order.
    + intros tx Htx. apply elem_of_encounter_order.
      by apply list_elem_of_In, in_map, list_elem_of_In.
  - intros r e Hin. rewrite Hperm in Hin.
    apply list_elem_of_In, in_map_iff in Hin as (r' & [= <- <-] & _).
    simpl. split; [|done].
    apply calculate_total_revenue_sum. by apply group_well_typed.
Qed.

(** Three sales in two regions. *)
Lemma region_wise_sales_entries_witness :
  let txs :=
    [transaction_of "T1" "2024-01-01" "P101" "Widget" 5 10%float "C1" "North";
     transaction_of "T2" "2024-01-02" "P102" "Gadget" 7 10%float "C2" "South";
     transaction_of "T3" "2024-01-01" "P103" "Gizmo" 2 10%float "C1" "North"] in
  exists entries total,
    region_wise_sales txs = Ok entries /\
    calculate_total_revenue txs = Ok total /\
    NoDup entries.*1 /\
    (forall r, r ∈ entries.*1 <-> r ∈ map (field "Region") txs) /\
    sum_Z (map (fun item : value * region_entry =>
                  entry_transaction_count item.2) entries) = len txs /\
    forall r e, (r, e) ∈ entries ->
      calculate_total_revenue (group "Region" r txs)
        = Ok (entry_total_sales e) /\
      entry_transaction_count e = len (group "Region" r txs) /\
      entry_percentage e = percentage_of (entry_total_sales e) total.
Proof.
  intros txs. apply (region_wise_sales_entries txs). repeat constructor.
Defined.

(** X11: when no region total is NaN, [region_wise_sales] returns the
    entries in non-increasing order of their totals, and regions with the
    same total stay in the order in which the input first mentions them. *)
Theorem region_wise_sales_sorted (txs : list dict) :
  Forall (fun tx => well_typed tx = true) txs ->
  Forall (fun tx => is_number (sum_amounts
                                 (group "Region" (field "Region" tx) txs))
                    = true) txs ->
  exists entries,
    region_wise_sales txs = Ok entries /\
    StronglySorted
      (fun a b : value * region_entry =>
         PrimFloat.leb (entry_total_sales b.2) (entry_total_sales a.2) = true)
      entries /\
    forall t : float,
      (filter (fun item : value * region_entry => entry_total_sales item.2 = t)
              entries).*1
      = filter (fun r => sum_amounts (group "Region" r txs) = t)
               (distinct "Region" txs).
Proof.
  intros Hwt Hnum.
  set (F := fun r => (r, region_entry_of txs r)).
  set (ks := distinct "Region" txs).
  exists (sort_desc (fun item : value * region_entry =>
                       NFloat (entry_total_sales item.2)) (map F ks)).
  split; [by apply region_wise_sales_table|]. split.
  - apply (sort_desc_float_sorted
             (fun item : value * region_entry => entry_total_sales item.2)).
    intros item Hitem.
    apply list_elem_of_In, in_map_iff in Hitem as (r & <- & Hr). simpl.
    apply list_elem_of_In in Hr. unfold ks, distinct in Hr.
    apply (proj1 (elem_of_encounter_order _ _)) in Hr.
    apply list_elem_of_In, in_map_iff in Hr as (tx & <- & Htx).
    rewrite Forall_forall in Hnum. by apply Hnum, list_elem_of_In.
  - intros t. rewrite sort_desc_stable.
    + generalize ks. intros l. induction l as [|k l IH]; [done|].
      cbn [map].
      destruct (decide (sum_amounts (group "Region" k txs) = t)) as [E|E].
      * rewrite (filter_cons_True _ (F k)) by exact E.
        rewrite (filter_cons_True _ k) by exact E.
        cbn [fmap list_fmap]. f_equal. exact IH.
      * rewrite (filter_cons_False _ (F k)) by exact E.
        rewrite (filter_cons_False _ k) by exact E. exact IH.
    + intros x y -> Hy. simpl. rewrite Hy. apply float_ltb_irrefl.
Qed.

(** Three sales in two regions; the smaller region comes first in the
    input. *)
Lemma region_wise_sales_sorted_witness :
  let txs :=
    [transaction_of "T2" "2024-01-02" "P102" "Gadget" 6 10%float "C2" "South";
     transaction_of "T1" "2024-01-01" "P101" "Widget" 5 10%float "C1" "North";
     transaction_of "T3" "2024-01-01" "P103" "Gizmo" 2 10%float "C1" "North"] in
  exists entries,
    region_wise_sales txs = Ok entries /\
    StronglySorted
      (fun a b : value * region_entry =>
         PrimFloat.leb (entry_total_sales b.2) (entry_total_sales a.2) = true)
      entries /\
    forall t : float,
      (filter (fun item : value * region_entry => entry_total_sales item.2 = t)
              entries).*1
      = filter (fun r => sum_amounts (group "Region" r txs) = t)
               (distinct "Region" txs).
Proof.
  intros txs. apply (region_wise_sales_sorted txs); repeat constructor.
Defined.

(** ** Low-performing products *)

Section SortingAscending.

Context {A : Type} (key : A -> num).

Implicit Types (x y : A) (l : list A).

Lemma insert_asc_Permutation x l : insert_asc key x l ≡ₚ x :: l.
Proof.
  induction l as [|y l IH]; simpl; [done|].
  destruct (num_ltb (key y) (key x)); [|done].
  rewrite IH. apply Permutation_swap.
Qed.

Lemma sort_asc_Permutation l : sort_asc key l ≡ₚ l.
Proof.
  induction l as [|x l IH]; simpl; [done|].
  rewrite insert_asc_Permutation. by rewrite IH.
Qed.

Lemma insert_asc_filter (P : A -> Prop) `{!forall x, Decision (P x)} x l :
  (forall y, y ∈ l -> P x -> P y -> num_ltb (key y) (key x) = false) ->
  filter P (insert_asc key x l) = filter P (x :: l).
Proof.
  induction l as [|y l IH]; intros Htie; simpl; [done|].
  destruct (num_ltb (key y) (key x)) eqn:E; [|done].
  assert (IH' : filter P (insert_asc key x l) = filter P (x :: l)).
  { apply IH. intros z Hz. apply Htie. by apply elem_of_cons; right. }
  rewrite filter_cons, IH', !filter_cons.
  destruct (decide (P x)) as [Hx|Hx], (decide (P y)) as [Hy|Hy]; try done.
  rewrite Htie in E; [done| |done..]. by apply elem_of_cons; left.
Qed.

(** The ascending sort is stable: the elements of a class of tied elements
    keep the order they had. *)
Lemma sort_asc_stable (P : A -> Prop) `{!forall x, Decision (P x)} l :
  (forall x y, P x -> P y -> num_ltb (key y) (key x) = false) ->
  filter P (sort_asc key l) = filter P l.
Proof.
  intros Htie. induction l as [|x l IH]; simpl; [done|].
  rewrite insert_asc_filter by (intros; by apply Htie).
  by rewrite !filter_cons, IH.
Qed.

Lemma insert_asc_sorted (q : A -> Z) x l :
  (forall y, y ∈ x :: l -> key y = NInt (q y)) ->
  StronglySorted (fun a b => q a <= q b) l ->
  StronglySorted (fun a b => q a <= q b) (insert_asc key x l).
Proof.
  intros Hkey Hsorted. revert Hkey.
  induction Hsorted as [|y l Hl IH Hy]; intros Hkey; simpl.
  - repeat constructor.
  - assert (Hx : key x = NInt (q x)) by (apply Hkey; by left).
    assert (Hy' : key y = NInt (q y)) by (apply Hkey; right; by left).
    rewrite Hx, Hy'. simpl. destruct (q y <? q x) eqn:E.
    + apply Z.ltb_lt in E. constructor.
      * apply IH. intros z Hz. apply Hkey.
        apply elem_of_cons in Hz as [->|Hz]; [by left|right; by right].
      * apply Forall_forall. intros z Hz.
        rewrite insert_asc_Permutation in Hz.
        apply elem_of_cons in Hz as [->|Hz]; [lia|].
        rewrite Forall_forall in Hy. by apply Hy.
    + apply Z.ltb_ge in E. constructor; [by constructor|].
      constructor; [done|].
      eapply Forall_impl; [exact Hy|]. simpl. intros. lia.
Qed.

Lemma sort_asc_sorted (q : A -> Z) l :
  (forall y, y ∈ l -> key y = NInt (q y)) ->
  StronglySorted (fun a b => q a <= q b) (sort_asc key l).
Proof.
  induction l as [|x l IH]; intros Hkey; simpl; [constructor|].
  apply insert_asc_sorted.
  - intros y Hy. apply Hkey.
    apply elem_of_cons in Hy as [->|Hy]; [by left|right].
    by rewrite sort_asc_Permutation in Hy.
  - apply IH. intros y Hy. apply Hkey. by right.
Qed.

End SortingAscending.

Section LowPerforming.

Implicit Types (tx : dict) (txs : list dict).

Lemma map_filter_bool {A B} (f : A -> B) (g : A -> bool) (P : B -> Prop)
    `{!forall y, Decision (P y)} (l : list A) :
  (forall x, x ∈ l -> g x = true <-> P (f x)) ->
  map f (List.filter g l) = filter P (map f l).
Proof.
  induction l as [|x l IH]; intros Hg; [done|].
  cbn [List.filter map].
  assert (IH' : map f (List.filter g l) = filter P (map f l)).
  { apply IH. intros y Hy. apply Hg. by right. }
  destruct (g x) eqn:E.
  - rewrite filter_cons_True by (apply Hg; [by left|done]).
    cbn [map]. by rewrite IH'.
  - rewrite filter_cons_False; [done|].
    intros HP. apply Hg in HP; [congruence|by left].
Qed.

Lemma encounter_order_length (ks : list value) :
  (length (encounter_order ks) <= length ks)%nat.
Proof.
  induction ks as [|k ks IH] using rev_ind; [done|].
  rewrite encounter_order_snoc, length_app. simpl.
  destruct (decide (k ∈ encounter_order ks)); [lia|].
  rewrite length_app. simpl. lia.
Qed.

Lemma product_table_length txs : (length (product_table txs) <= length txs)%nat.
Proof.
  unfold product_table. rewrite length_map.
  etrans; [apply encounter_order_length|]. by rewrite length_map.
Qed.

(** The products under the threshold, before sorting. *)
Lemma low_performing_products_table txs (t : Z) :
  Forall (fun tx => well_typed tx = true) txs ->
  low_performing_products txs (NInt t) =
    Ok (sort_asc (fun x : value * num * float => x.1.2)
          (filter (fun x => quantity_total x < t) (product_table txs))).
Proof.
  intros Hwt. unfold low_performing_products.
  rewrite (for_each_pure product_step
             (fun d tx => upsert_pure (field "ProductName" tx) product_init
                            (product_update tx) d)).
  - rewrite group_spec. cbn [mbind result_bind]. do 2 f_equal.
    rewrite (map_filter_bool _ _ (fun x => quantity_total x < t)).
    + f_equal. rewrite map_map. unfold product_table.
      apply map_ext. intros p. by rewrite accumulated_product.
    + intros [p st] Hin.
      apply list_elem_of_In, in_map_iff in Hin as (p' & [= <- <-] & _).
      rewrite accumulated_product by done. simpl.
      unfold quantity_total. simpl. apply Z.ltb_lt.
  - eapply Forall_impl; [exact Hwt|]. intros tx Htx s.
    by apply product_step_well_typed.
Qed.

End LowPerforming.

(** X12: on well-typed transactions [low_performing_products] returns
    exactly the products whose total quantity is below the threshold, each
    with its quantity and revenue aggregated over the whole input, in
    non-decreasing order of quantity, products of equal quantity staying in
    the order in which the input first mentions them. *)
Theorem low_performing_products_spec (txs : list dict) (t : Z) :
  Forall (fun tx => well_typed tx = true) txs ->
  exists low,
    low_performing_products txs (NInt t) = Ok low /\
    (forall x, x ∈ low <-> x ∈ product_table txs /\ quantity_total x < t) /\
    StronglySorted (fun a b => quantity_total a <= quantity_total b) low /\
    (forall q : Z,
       filter (fun x => x.1.2 = NInt q) low =
       filter (fun x => x.1.2 = NInt q)
              (filter (fun x => quantity_total x < t) (product_table txs))) /\
    (forall x, x ∈ low ->
       x.1.1 ∈ map (field "ProductName") txs /\
       x = (x.1.1, NInt (product_quantity x.1.1 txs),
            product_revenue x.1.1 txs)).
Proof.
  intros Hwt.
  set (key := fun x : value * num * float => x.1.2).
  set (under := filter (fun x => quantity_total x < t) (product_table txs)).
  assert (Hunder : forall x, x ∈ under -> x ∈ product_table txs).
  { intros x Hx. by apply list_elem_of_filter in Hx as [_ ?]. }
  exists (sort_asc key under).
  split; [by apply low_performing_products_table|].
  split; [|split; [|split]].
  - intros x. rewrite sort_asc_Permutation. unfold under.
    rewrite list_elem_of_filter. tauto.
  - apply sort_asc_sorted. intros y Hy. by eapply product_table_key, Hunder.
  - intros q. apply sort_asc_stable.
    intros x y Hx Hy. subst key. simpl. rewrite Hx, Hy. apply Z.ltb_irrefl.
  - intros x Hx. rewrite sort_asc_Permutation in Hx.
    by apply product_table_entry, Hunder.
Qed.

(** Five sales of four products against the threshold 7. *)
Lemma low_performing_products_spec_witness :
  let txs :=
    [transaction_of "T1" "2024-01-01" "P101" "Widget" 5 10%float "C1" "North";
     transaction_of "T2" "2024-01-02" "P102" "Gadget" 6 10%float "C2" "South";
     transaction_of "T3" "2024-01-01" "P103" "Gizmo" 2 10%float "C1" "North";
     transaction_of "T4" "2024-01-03" "P101" "Widget" 2 10%float "C3" "East";
     transaction_of "T5" "2024-01-03" "P104" "Thing" 2 2%float "C3" "East"] in
  exists low,
    low_performing_products txs (NInt 7) = Ok low /\
    (forall x, x ∈ low <-> x ∈ product_table txs /\ quantity_total x < 7) /\
    StronglySorted (fun a b => quantity_total a <= quantity_total b) low /\
    (forall q : Z,
       filter (fun x => x.1.2 = NInt q) low =
       filter (fun x => x.1.2 = NInt q)
              (filter (fun x => quantity_total x < 7) (product_table txs))) /\
    (forall x, x ∈ low ->
       x.1.1 ∈ map (field "ProductName") txs /\
       x = (x.1.1, NInt (product_quantity x.1.1 txs),
            product_revenue x.1.1 txs)).
Proof.
  intros txs. apply (low_performing_products_spec txs 7). repeat constructor.
Defined.

(** On that input: Widget sold 7 units and is left out; Gizmo and Thing
    tie at 2 and come in input order, before Gadget. *)
Lemma low_performing_products_example :
  low_performing_products
    [transaction_of "T1" "2024-01-01" "P101" "Widget" 5 10%float "C1" "North";
     transaction_of "T2" "2024-01-02" "P102" "Gadget" 6 10%float "C2" "South";
     transaction_of "T3" "2024-01-01" "P103" "Gizmo" 2 10%float "C1" "North";
     transaction_of "T4" "2024-01-03" "P101" "Widget" 2 10%float "C3" "East";
     transaction_of "T5" "2024-01-03" "P104" "Thing" 2 2%float "C3" "East"]
    (NInt 7)
  = Ok [(VStr "Gizmo", NInt 2, 20%float); (VStr "Thing", NInt 2, 4%float);
        (VStr "Gadget", NInt 6, 60%float)].
Proof. reflexivity. Qed.

(** X13: the two product rankings agree.  Asked for at least as many
    products as there are transactions, [top_selling_products] returns every
    product, and [low_performing_products] returns, in another order, those
    of them whose quantity is below the threshold: every product of the
    ranking is either low-performing or has reached the threshold. *)
Theorem low_performing_products_top (txs : list dict) (t n : Z) :
  Forall (fun tx => well_typed tx = true) txs ->
  len txs <= n ->
  exists low top,
    low_performing_products txs (NInt t) = Ok low /\
    top_selling_products txs n = Ok top /\
    low ≡ₚ filter (fun x => quantity_total x < t) top /\
    forall x, x ∈ top -> x ∈ low \/ t <= quantity_total x.
Proof.
  intros Hwt Hn.
  set (key := fun x : value * num * float => x.1.2).
  assert (Htop : top_selling_products txs n
                 = Ok (sort_desc key (product_table txs))).
  { rewrite top_selling_products_table by done. unfold slice_to, len in *.
    destruct (n <? 0) eqn:E; [apply Z.ltb_lt in E; lia|].
    rewrite take_ge; [done|].
    rewrite (Permutation_length (sort_desc_Permutation key _)).
    pose proof (product_table_length txs). lia. }
  exists (sort_asc key (filter (fun x => quantity_total x < t)
                          (product_table txs))),
         (sort_desc key (product_table txs)).
  split; [by apply low_performing_products_table|]. split; [done|]. split.
  - by rewrite sort_asc_Permutation, sort_desc_Permutation.
  - intros x Hx. rewrite sort_desc_Permutation in Hx.
    destruct (decide (quantity_total x < t)) as [Hlt|Hge]; [left|right; lia].
    rewrite sort_asc_Permutation. by apply list_elem_of_filter.
Qed.

Lemma low_performing_products_top_witness :
  let txs :=
    [transaction_of "T1" "2024-01-01" "P101" "Widget" 5 10%float "C1" "North";
     transaction_of "T2" "2024-01-02" "P102" "Gadget" 6 10%float "C2" "South";
     transaction_of "T3" "2024-01-01" "P103" "Gizmo" 2 10%float "C1" "North"] in
  exists low top,
    low_performing_products txs (NInt 6) = Ok low /\
    top_selling_products txs 5 = Ok top /\
    low ≡ₚ filter (fun x => quantity_total x < 6) top /\
    forall x, x ∈ top -> x ∈ low \/ 6 <= quantity_total x.
Proof.
  intros txs. apply (low_performing_products_top txs 6 5).
  - repeat constructor.
  - unfold len. simpl. lia.
Defined.

(** ** Daily sales trend *)

Section StringOrder.

Implicit Types (s t u : string).

Lemma string_ltb_leb s t :
  String.ltb s t = true <-> String.leb s t = true /\ s <> t.
Proof.
  unfold String.ltb, String.leb.
  destruct (String.compare s t) eqn:E.
  - apply String.compare_eq_iff in E. subst. split; [done|by intros [_ ?]].
  - split; [|done]. intros _. split; [done|]. intros ->.
    pose proof (String.compare_antisym t t) as H. rewrite E in H.
    discriminate H.
  - split; [done|by intros [? _]].
Qed.

Lemma string_leb_trans s t u :
  String.leb s t = true -> String.leb t u = true -> String.leb s u = true.
Proof.
  intros H1 H2. apply Is_true_true.
  change (String.le s u). transitivity t; apply Is_true_true; done.
Qed.

Lemma string_ltb_trans s t u :
  String.ltb s t = true -> String.ltb t u = true -> String.ltb s u = true.
Proof.
  rewrite !string_ltb_leb. intros [H1 Hne1] [H2 Hne2]. split.
  - by eapply string_leb_trans.
  - intros ->. apply Hne1. by apply String.leb_antisym.
Qed.

Lemma string_ltb_total s t :
  String.ltb s t = false -> s <> t -> String.ltb t s = true.
Proof.
  intros Hlt Hne. apply string_ltb_leb. split; [|done].
  destruct (String.leb_total s t) as [H|H]; [|done].
  assert (Hst : String.ltb s t = true) by (by apply string_ltb_leb).
  congruence.
Qed.

End StringOrder.

Section SortedItems.

Context {V : Type}.

Implicit Types (x y : value * V) (l : list (value * V)).

Lemma date_lt_trans (a b c : value) : date_lt a b -> date_lt b c -> date_lt a c.
Proof.
  destruct a, b, c; simpl; try done. apply string_ltb_trans.
Qed.

(** Inserting an item with a string key that is new into a list sorted by
    string keys. *)
Lemma insert_item_sorted x l :
  is_str x.1 -> Forall (fun y => is_str y.1) l -> x.1 ∉ l.*1 ->
  StronglySorted (fun a b => date_lt a.1 b.1) l ->
  exists l', insert_item x l = Ok l' /\ l' ≡ₚ x :: l /\
    StronglySorted (fun a b => date_lt a.1 b.1) l'.
Proof.
  intros Hx Hl Hnew Hsorted. revert Hl Hnew.
  induction Hsorted as [|y l Hsl IH Hy]; intros Hl Hnew.
  - exists [x]. repeat split; [done|]. repeat constructor.
  - inversion Hl as [|? ? Hys Hls]; subst.
    assert (Hne : x.1 <> y.1).
    { intros E. apply Hnew. rewrite E. simpl. by left. }
    assert (Hnew' : x.1 ∉ l.*1).
    { intros E. apply Hnew. simpl. by right. }
    destruct x as [[| | | |s] vx], y as [[| | | |t] vy]; simpl in *; try done.
    destruct (String.ltb t s) eqn:E; simpl.
    + destruct (IH Hls Hnew') as (l' & -> & Hperm & Hs'). simpl.
      exists ((VStr t, vy) :: l'). split; [done|]. split.
      * rewrite Hperm. apply Permutation_swap.
      * constructor; [done|]. apply Forall_forall. intros z Hz.
        rewrite Hperm in Hz. apply elem_of_cons in Hz as [->|Hz]; [done|].
        rewrite Forall_forall in Hy. by apply Hy.
    + exists ((VStr s, vx) :: (VStr t, vy) :: l). split; [done|].
      split; [done|].
      assert (Hst : String.ltb s t = true).
      { apply string_ltb_total; [done|]. intros ->. by apply Hne. }
      constructor; [by constructor|]. constructor; [done|].
      eapply Forall_impl; [exact Hy|]. intros z Hz.
      by apply (date_lt_trans (VStr s) (VStr t)).
Qed.

(** Sorting items whose keys are strings that differ from one another:
    nothing raises and the items come out in increasing order of key. *)
Lemma sorted_items_sorted l :
  Forall (fun y => is_str y.1) l -> NoDup l.*1 ->
  exists l', sorted_items l = Ok l' /\ l' ≡ₚ l /\
    StronglySorted (fun a b => date_lt a.1 b.1) l'.
Proof.
  induction l as [|x l IH]; intros Hl Hnd.
  - exists []. repeat split; constructor.
  - inversion Hl as [|? ? Hx Hls]; subst.
    simpl in Hnd. apply NoDup_cons in Hnd as [Hnew Hnd].
    destruct (IH Hls Hnd) as (l0 & Hl0 & Hperm & Hsorted).
    destruct (insert_item_sorted x l0) as (l' & Hl' & Hperm' & Hsorted').
    + done.
    + rewrite Forall_forall in Hls |- *. intros y Hy. apply Hls.
      by rewrite <- Hperm.
    + by rewrite Hperm.
    + done.
    + exists l'. split; [|split; [|done]].
      * unfold sorted_items in *. simpl. by rewrite Hl0.
      * by rewrite Hperm', Hperm.
Qed.

End SortedItems.

Section Trend.

Implicit Types (tx : dict) (txs : list dict).

Lemma has_customer_inv tx :
  has_customer tx = true -> exists c, tx !! "CustomerID" = Some (VStr c).
Proof.
  unfold has_customer.
  destruct (tx !! "CustomerID") as [[| | | |c]|]; try done. by exists c.
Qed.

Lemma set_add_fold (name : string) (l : list dict) (s0 : list value) :
  fold_left (fun s tx => set_add (field name tx) s) l s0 =
  fold_left (fun seen k => if decide (k ∈ seen) then seen else seen ++ [k])
            (map (field name) l) s0.
Proof. revert s0. induction l as [|tx l IH]; intros s0; simpl; [done|apply IH]. Qed.

Lemma group_nonempty name (d : value) txs :
  d ∈ map (field name) txs -> group name d txs <> [].
Proof.
  intros Hd E. apply list_elem_of_In, in_map_iff in Hd as (tx & <- & Htx).
  assert (H : tx ∈ group name (field name tx) txs).
  { apply list_elem_of_filter. split; [done|by apply list_elem_of_In]. }
  rewrite E in H. by apply elem_of_nil in H.
Qed.

Lemma trend_step_well_typed tx (d : odict trend_stat) :
  well_typed tx = true -> has_customer tx = true ->
  trend_step d tx =
    Ok (upsert_pure (field "Date" tx) trend_init (trend_update tx) d).
Proof.
  intros Hwt Hc. pose proof (sale_value_well_typed tx Hwt) as Hsale.
  destruct (well_typed_inv tx Hwt)
    as (date & product & region & q & up & fq & Hd & _).
  destruct (has_customer_inv tx Hc) as [c Hcust].
  unfold trend_step, getitem, field. rewrite Hd, Hsale, Hcust. simpl.
  apply upsert_Ok. intros st. unfold trend_update, field. by rewrite Hcust.
Qed.

Lemma trend_update_fold (l : list dict) (st : trend_stat) :
  fold_left (fun v x => trend_update x v) l st =
    {| trend_revenue :=
         fold_left (fun acc tx => PrimFloat.add acc (amount_of tx)) l
                   (trend_revenue st);
       trend_transaction_count := trend_transaction_count st + len l;
       trend_customers :=
         fold_left (fun s tx => set_add (field "CustomerID" tx) s) l
                   (trend_customers st) |}.
Proof.
  revert st. induction l as [|tx l IH]; intros st; simpl.
  - destruct st. simpl. f_equal. unfold len. simpl. lia.
  - rewrite IH. simpl. f_equal. unfold len. simpl length. lia.
Qed.

Lemma daily_sales_trend_table txs :
  Forall (fun tx => well_typed tx = true) txs ->
  Forall (fun tx => has_customer tx = true) txs ->
  daily_sales_trend txs =
    sorted_items (map (fun d => (d, trend_entry_of txs d)) (distinct "Date" txs)).
Proof.
  intros Hwt Hc. unfold daily_sales_trend.
  rewrite (for_each_pure trend_step
             (fun d tx => upsert_pure (field "Date" tx) trend_init
                            (trend_update tx) d)).
  - rewrite group_spec. cbn [mbind result_bind]. rewrite map_map. f_equal.
    apply map_ext. intros d. unfold accumulated. rewrite trend_update_fold.
    cbn [fst snd trend_revenue trend_transaction_count trend_customers
         trend_init].
    rewrite set_add_fold, Z.add_0_l. reflexivity.
  - apply Forall_forall. intros tx Htx s. rewrite Forall_forall in Hwt, Hc.
    apply trend_step_well_typed; auto.
Qed.

Lemma distinct_str name txs :
  Forall (fun tx => exists s, tx !! name = Some (VStr s)) txs ->
  Forall is_str (distinct name txs).
Proof.
  intros H. apply Forall_forall. intros d Hd.
  apply (proj1 (elem_of_encounter_order _ _)) in Hd.
  apply list_elem_of_In, in_map_iff in Hd as (tx & <- & Htx).
  rewrite Forall_forall in H.
  destruct (H tx) as [s Hs]; [by apply list_elem_of_In|].
  unfold field. by rewrite Hs.
Qed.

Lemma map_pair_fst {B} (g : value -> B) (ks : list value) :
  (map (fun k => (k, g k)) ks).*1 = ks.
Proof. induction ks as [|k ks IH]; [done|]. simpl. f_equal. exact IH. Qed.

(** The result of [daily_sales_trend]: a sorted rearrangement of the
    entries of the dates. *)
Lemma daily_sales_trend_sorted txs :
  Forall (fun tx => well_typed tx = true) txs ->
  Forall (fun tx => has_customer tx = true) txs ->
  exists trend,
    daily_sales_trend txs = Ok trend /\
    trend ≡ₚ map (fun d => (d, trend_entry_of txs d)) (distinct "Date" txs) /\
    StronglySorted (fun a b : value * trend_entry => date_lt a.1 b.1) trend.
Proof.
  intros Hwt Hc. rewrite daily_sales_trend_table by done.
  apply sorted_items_sorted.
  - apply Forall_forall. intros [d e] Hin.
    apply list_elem_of_In, in_map_iff in Hin as (d' & [= <- <-] & Hd).
    simpl. apply list_elem_of_In in Hd. revert d' Hd. apply Forall_forall.
    apply distinct_str. eapply Forall_impl; [exact Hwt|]. intros tx Htx.
    destruct (well_typed_inv tx Htx) as (date & ? & ? & ? & ? & ? & Hd & _).
    by exists date.
  - rewrite map_pair_fst. apply NoDup_encounter_order.
Qed.

End Trend.

(** X14: [daily_sales_trend] on well-typed transactions returns one entry
    per date of the input, in strictly increasing order of the date
    strings.  The transaction counts add up to the number of transactions;
    the revenue of an entry is the total revenue of the transactions of its
    date, its count their number, and its number of unique customers the
    number of distinct customers among them, which is at least one and at
    most the count. *)
Theorem daily_sales_trend_spec (txs : list dict) :
  Forall (fun tx => well_typed tx = true) txs ->
  Forall (fun tx => has_customer tx = true) txs ->
  exists trend,
    daily_sales_trend txs = Ok trend /\
    StronglySorted (fun a b : value * trend_entry => date_lt a.1 b.1) trend /\
    (forall d, d ∈ trend.*1 <-> d ∈ map (field "Date") txs) /\
    sum_Z (map (fun item : value * trend_entry =>
                  daily_transaction_count item.2) trend) = len txs /\
    forall d e, (d, e) ∈ trend ->
      calculate_total_revenue (group "Date" d txs) = Ok (daily_revenue e) /\
      daily_transaction_count e = len (group "Date" d txs) /\
      unique_customers e = len (distinct "CustomerID" (group "Date" d txs)) /\
      1 <= unique_customers e <= daily_transaction_count e.
Proof.
  intros Hwt Hc.
  destruct (daily_sales_trend_sorted txs Hwt Hc) as (trend & Hres & Hperm & Hs).
  assert (Hkeys : trend.*1 ≡ₚ distinct "Date" txs)
    by (by rewrite Hperm, map_pair_fst).
  exists trend. split; [done|]. split; [done|]. split; [|split].
  - intros d. rewrite Hkeys. apply elem_of_encounter_order.
  - rewrite (sum_Z_Permutation _ _ (Permutation_map _ Hperm)), map_map.
    simpl. apply (group_lengths (field "Date")).
    + apply NoDup_encounter_order.
    + intros tx Htx. apply elem_of_encounter_order.
      by apply list_elem_of_In, in_map, list_elem_of_In.
  - intros d e Hin. rewrite Hperm in Hin.
    apply list_elem_of_In, in_map_iff in Hin as (d' & [= <- <-] & Hd).
    apply list_elem_of_In, (proj1 (elem_of_encounter_order _ _)) in Hd.
    simpl. split; [|split; [done|split; [done|]]].
    + apply calculate_total_revenue_sum. by apply group_well_typed.
    + pose proof (group_nonempty "Date" d' txs Hd) as Hne.
      set (g := group "Date" d' txs) in *.
      pose proof (encounter_order_length (map (field "CustomerID") g)) as Hle.
      rewrite length_map in Hle.
      assert (Hpos : encounter_order (map (field "CustomerID") g) <> []).
      { apply encounter_order_nonempty. destruct g; [done|discriminate]. }
      unfold len, distinct.
      destruct (encounter_order (map (field "CustomerID") g)) as [|k ks];
        [done|].
      simpl in *. lia.
Qed.

(** Four sales on three days given out of order; one customer buys twice
    on the first day. *)
Lemma daily_sales_trend_spec_witness :
  let txs :=
    [transaction_of "T4" "2024-01-03" "P101" "Widget" 2 10%float "C3" "East";
     transaction_of "T1" "2024-01-01" "P101" "Widget" 5 10%float "C1" "North";
     transaction_of "T2" "2024-01-02" "P102" "Gadget" 7 10%float "C2" "South";
     transaction_of "T3" "2024-01-01" "P103" "Gizmo" 2 10%float "C1" "North"] in
  exists trend,
    daily_sales_trend txs = Ok trend /\
    StronglySorted (fun a b : value * trend_entry => date_lt a.1 b.1) trend /\
    (forall d, d ∈ trend.*1 <-> d ∈ map (field "Date") txs) /\
    sum_Z (map (fun item : value * trend_entry =>
                  daily_transaction_count item.2) trend) = len txs /\
    forall d e, (d, e) ∈ trend ->
      calculate_total_revenue (group "Date" d txs) = Ok (daily_revenue e) /\
      daily_transaction_count e = len (group "Date" d txs) /\
      unique_customers e = len (distinct "CustomerID" (group "Date" d txs)) /\
      1 <= unique_customers e <= daily_transaction_count e.
Proof.
  intros txs. apply (daily_sales_trend_spec txs); repeat constructor.
Defined.

(** On that input. *)
Lemma daily_sales_trend_example :
  daily_sales_trend
    [transaction_of "T4" "2024-01-03" "P101" "Widget" 2 10%float "C3" "East";
     transaction_of "T1" "2024-01-01" "P101" "Widget" 5 10%float "C1" "North";
     transaction_of "T2" "2024-01-02" "P102" "Gadget" 7 10%float "C2" "South";
     transaction_of "T3" "2024-01-01" "P103" "Gizmo" 2 10%float "C1" "North"]
  = Ok [(VStr "2024-01-01",
         {| daily_revenue := 70; daily_transaction_count := 2;
            unique_customers := 1 |});
        (VStr "2024-01-02",
         {| daily_revenue := 70; daily_transaction_count := 1;
            unique_customers := 1 |});
        (VStr "2024-01-03",
         {| daily_revenue := 20; daily_transaction_count := 1;
            unique_customers := 1 |})].
Proof. reflexivity. Qed.

(** Dates that are not all strings cannot be sorted: the call raises. *)
Lemma daily_sales_trend_mixed_dates :
  daily_sales_trend
    [<["Date" := VInt 20240101]>
       (transaction_of "T1" "" "P101" "Widget" 5 10%float "C1" "North");
     transaction_of "T2" "2024-01-02" "P102" "Gadget" 7 10%float "C2" "South"]
  = Raise TypeError.
Proof. reflexivity. Qed.

(** X15: the peak day and the daily trend agree.  The date returned by
    [find_peak_sales_day] has an entry in the result of [daily_sales_trend]
    with the same revenue and the same transaction count, and no entry of
    the trend has a greater revenue. *)
Theorem daily_sales_trend_peak (txs : list dict) (d : value) (r : float) (c : Z) :
  Forall (fun tx => well_typed tx = true) txs ->
  Forall (fun tx => has_customer tx = true) txs ->
  find_peak_sales_day txs = Ok (d, r, c) ->
  exists trend e,
    daily_sales_trend txs = Ok trend /\ (d, e) ∈ trend /\
    daily_revenue e = r /\ daily_transaction_count e = c /\
    forall d' e', (d', e') ∈ trend ->
      PrimFloat.ltb r (daily_revenue e') = false.
Proof.
  intros Hwt Hc Hpeak.
  assert (Hne : txs <> []) by (by intros ->).
  destruct (find_peak_sales_day_char txs Hne Hwt)
    as (d0 & before & after & Hres & HE & Hbefore & Hafter).
  rewrite Hres in Hpeak. injection Hpeak as -> <- <-.
  destruct (daily_sales_trend_sorted txs Hwt Hc) as (trend & Htrend & Hperm & _).
  exists trend, (trend_entry_of txs d).
  split; [done|]. split; [|split; [done|split; [done|]]].
  - rewrite Hperm. apply list_elem_of_In, in_map_iff. exists d.
    split; [done|]. apply list_elem_of_In. unfold distinct. rewrite HE.
    apply elem_of_app. right. by left.
  - intros d' e' Hin. rewrite Hperm in Hin.
    apply list_elem_of_In, in_map_iff in Hin as (d'' & [= <- <-] & Hd).
    apply list_elem_of_In in Hd. unfold distinct in Hd. rewrite HE in Hd.
    simpl. change (sum_amounts (group "Date" d'' txs)) with (day_revenue d'' txs).
    apply elem_of_app in Hd as [Hd|Hd]; [by apply Hbefore|].
    apply elem_of_cons in Hd as [->|Hd]; [apply float_ltb_irrefl|].
    by apply Hafter.
Qed.

Lemma daily_sales_trend_peak_witness :
  let txs :=
    [transaction_of "T4" "2024-01-03" "P101" "Widget" 2 10%float "C3" "East";
     transaction_of "T1" "2024-01-01" "P101" "Widget" 5 10%float "C1" "North";
     transaction_of "T2" "2024-01-02" "P102" "Gadget" 7 10%float "C2" "South";
     transaction_of "T3" "2024-01-01" "P103" "Gizmo" 2 10%float "C1" "North"] in
  exists trend e,
    daily_sales_trend txs = Ok trend /\ (VStr "2024-01-01", e) ∈ trend /\
    daily_revenue e = 70%float /\ daily_transaction_count e = 2 /\
    forall d' e', (d', e') ∈ trend ->
      PrimFloat.ltb 70%float (daily_revenue e') = false.
Proof.
  intros txs.
  apply (daily_sales_trend_peak txs (VStr "2024-01-01") 70%float 2).
  - repeat constructor.
  - repeat constructor.
  - reflexivity.
Defined.

(** ** Customer analysis *)

Section Customers.

Implicit Types (tx : dict) (txs : list dict).

Lemma mapM_Ok {A B} (f : A -> result B) (g : A -> B) (l : list A) :
  Forall (fun x => f x = Ok (g x)) l -> mapM f l = Ok (map g l).
Proof.
  induction 1 as [|x l Hx Hl IH]; [done|].
  cbn [mapM map]. rewrite Hx. cbn [mbind result_bind]. rewrite IH. done.
Qed.

Lemma customer_step_well_typed tx (d : odict customer_stat) :
  well_typed tx = true -> has_customer tx = true ->
  customer_step d tx =
    Ok (upsert_pure (field "CustomerID" tx) customer_init (customer_update tx) d).
Proof.
  intros Hwt Hc. pose proof (sale_value_well_typed tx Hwt) as Hsale.
  destruct (well_typed_inv tx Hwt)
    as (date & product & region & q & up & fq & _ & Hp & _).
  destruct (has_customer_inv tx Hc) as [c Hcust].
  unfold customer_step, getitem, field. rewrite Hp, Hsale, Hcust. simpl.
  apply upsert_Ok. intros st. unfold customer_update, field. by rewrite Hp.
Qed.

Lemma customer_update_fold (l : list dict) (st : customer_stat) :
  fold_left (fun v x => customer_update x v) l st =
    {| total_spent :=
         fold_left (fun acc tx => PrimFloat.add acc (amount_of tx)) l
                   (total_spent st);
       purchase_count := purchase_count st + len l;
       products_bought :=
         fold_left (fun s tx => set_add (field "ProductName" tx) s) l
                   (products_bought st) |}.
Proof.
  revert st. induction l as [|tx l IH]; intros st; simpl.
  - destruct st. simpl. f_equal. unfold len. simpl. lia.
  - rewrite IH. simpl. f_equal. unfold len. simpl length. lia.
Qed.

Lemma customer_stats_spec txs :
  Forall (fun tx => well_typed tx = true) txs ->
  Forall (fun tx => has_customer tx = true) txs ->
  for_each customer_step txs [] =
    Ok (map (fun c =>
               (c, {| total_spent := sum_amounts (group "CustomerID" c txs);
                      purchase_count := len (group "CustomerID" c txs);
                      products_bought :=
                        distinct "ProductName" (group "CustomerID" c txs) |}))
            (distinct "CustomerID" txs)).
Proof.
  intros Hwt Hc.
  rewrite (for_each_pure customer_step
             (fun d tx => upsert_pure (field "CustomerID" tx) customer_init
                            (customer_update tx) d)).
  - rewrite group_spec. f_equal. apply map_ext. intros c.
    unfold accumulated. rewrite customer_update_fold.
    cbn [total_spent purchase_count products_bought customer_init].
    rewrite set_add_fold, Z.add_0_l. reflexivity.
  - apply Forall_forall. intros tx Htx s. rewrite Forall_forall in Hwt, Hc.
    apply customer_step_well_typed; auto.
Qed.

Lemma customer_analysis_table txs :
  Forall (fun tx => well_typed tx = true) txs ->
  Forall (fun tx => has_customer tx = true) txs ->
  counts_fit txs ->
  customer_analysis txs =
    Ok (sort_desc (fun item : value * customer_entry =>
                     NFloat (entry_total_spent item.2))
          (map (fun c => (c, customer_entry_of txs c))
               (distinct "CustomerID" txs))).
Proof.
  intros Hwt Hc Hfit. unfold customer_analysis.
  rewrite customer_stats_spec by done. cbn [mbind result_bind].
  rewrite (mapM_Ok _ (fun item : value * customer_stat =>
                        (item.1, customer_entry_of txs item.1))).
  - cbn [mbind result_bind]. by rewrite map_map.
  - apply Forall_forall. intros [c st] Hin.
    apply list_elem_of_In, in_map_iff in Hin as (c' & [= <- <-] & Hin).
    apply list_elem_of_In, (proj1 (elem_of_encounter_order _ _)) in Hin.
    pose proof (group_nonempty "CustomerID" c' txs Hin) as Hne.
    apply list_elem_of_In, in_map_iff in Hin as (tx & <- & Htx).
    unfold counts_fit in Hfit. rewrite Forall_forall in Hfit.
    specialize (Hfit tx (proj2 (list_elem_of_In _ _) Htx)).
    unfold finalize_customer, customer_entry_of, count_float.
    cbn [fst snd total_spent purchase_count products_bought].
    set (g := group "CustomerID" (field "CustomerID" tx) txs) in *.
    assert (Hpos : (0 <? len g) = true).
    { apply Z.ltb_lt. unfold len. destruct g; [done|]. simpl. lia. }
    rewrite Hpos. destruct (float_of_int (len g)) as [n|]; [done|done].
Qed.

End Customers.

(** X16: [customer_analysis] on well-typed transactions returns one entry
    per customer of the input.  The purchase counts add up to the number of
    transactions; the amount spent of an entry is the total revenue of the
    customer's transactions and its count their number, which is at least
    one, so that the average is always the rounded quotient of the two (the
    branch for a count of zero is never taken); the products bought are the
    product names of the customer's transactions, each listed once.  When no
    amount spent is NaN the entries come in non-increasing order of the
    amount spent. *)
Theorem customer_analysis_spec (txs : list dict) :
  Forall (fun tx => well_typed tx = true) txs ->
  Forall (fun tx => has_customer tx = true) txs ->
  counts_fit txs ->
  exists entries,
    customer_analysis txs = Ok entries /\
    NoDup entries.*1 /\
    (forall c, c ∈ entries.*1 <-> c ∈ map (field "CustomerID") txs) /\
    sum_Z (map (fun item : value * customer_entry =>
                  entry_purchase_count item.2) entries) = len txs /\
    (forall c e, (c, e) ∈ entries ->
       calculate_total_revenue (group "CustomerID" c txs)
         = Ok (entry_total_spent e) /\
       entry_purchase_count e = len (group "CustomerID" c txs) /\
       1 <= entry_purchase_count e /\
       (exists n, float_of_int (entry_purchase_count e) = Ok n /\
          avg_order_value e =
            VFloat (py_round2 (PrimFloat.div (entry_total_spent e) n))) /\
       NoDup (entry_products_bought e) /\
       (forall p, p ∈ entry_products_bought e <->
                  p ∈ map (field "ProductName") (group "CustomerID" c txs))) /\
    ((forall c e, (c, e) ∈ entries -> is_number (entry_total_spent e) = true) ->
     StronglySorted
       (fun a b : value * customer_entry =>
          PrimFloat.leb (entry_total_spent b.2) (entry_total_spent a.2) = true)
       entries).
Proof.
  intros Hwt Hc Hfit.
  set (F := fun c => (c, customer_entry_of txs c)).
  set (ks := distinct "CustomerID" txs).
  set (key := fun item : value * customer_entry =>
                NFloat (entry_total_spent item.2)).
  assert (Hperm : sort_desc key (map F ks) ≡ₚ map F ks)
    by apply sort_desc_Permutation.
  assert (Hkeys : (sort_desc key (map F ks)).*1 ≡ₚ ks).
  { rewrite Hperm. unfold F. by rewrite map_pair_fst. }
  exists (sort_desc key (map F ks)).
  split; [by apply customer_analysis_table|].
  split; [|split; [|split; [|split]]].
  - rewrite Hkeys. apply NoDup_encounter_order.
  - intros c. rewrite Hkeys. apply elem_of_encounter_order.
  - rewrite (sum_Z_Permutation _ _ (Permutation_map _ Hperm)), map_map.
    simpl. apply (group_lengths (field "CustomerID")).
    + apply NoDup_encounter_order.
    + intros tx Htx. apply elem_of_encounter_order.
      by apply list_elem_of_In, in_map, list_elem_of_In.
  - intros c e Hin. rewrite Hperm in Hin.
    apply list_elem_of_In, in_map_iff in Hin as (c' & [= <- <-] & Hin).
    apply list_elem_of_In in Hin. unfold ks, distinct in Hin.
    apply (proj1 (elem_of_encounter_order _ _)) in Hin.
    pose proof (group_nonempty "CustomerID" c' txs Hin) as Hne.
    cbn [customer_entry_of entry_total_spent entry_purchase_count
         entry_products_bought avg_order_value].
    split; [|split; [done|split; [|split; [|split]]]].
    + apply calculate_total_revenue_sum. by apply group_well_typed.
    + unfold len. destruct (group "CustomerID" c' txs); [done|]. simpl. lia.
    + apply list_elem_of_In, in_map_iff in Hin as (tx & <- & Htx).
      unfold counts_fit in Hfit. rewrite Forall_forall in Hfit.
      specialize (Hfit tx (proj2 (list_elem_of_In _ _) Htx)).
      unfold count_float.
      destruct (float_of_int _) as [n|]; [|done]. by exists n.
    + apply NoDup_encounter_order.
    + intros p. apply elem_of_encounter_order.
  - intros Hnum.
    apply (sort_desc_float_sorted
             (fun item : value * customer_entry => entry_total_spent item.2)).
    intros item Hitem. destruct item as [c e]. apply (Hnum c e).
    by rewrite Hperm.
Qed.

(** Four purchases by three customers. *)
Lemma customer_analysis_spec_witness :
  let txs :=
    [transaction_of "T1" "2024-01-01" "P101" "Widget" 5 10%float "C1" "North";
     transaction_of "T2" "2024-01-02" "P102" "Gadget" 7 10%float "C2" "South";
     transaction_of "T3" "2024-01-01" "P101" "Widget" 2 10%float "C1" "North";
     transaction_of "T4" "2024-01-03" "P103" "Gizmo" 1 5%float "C3" "East"] in
  exists entries,
    customer_analysis txs = Ok entries /\
    NoDup entries.*1 /\
    (forall c, c ∈ entries.*1 <-> c ∈ map (field "CustomerID") txs) /\
    sum_Z (map (fun item : value * customer_entry =>
                  entry_purchase_count item.2) entries) = len txs /\
    (forall c e, (c, e) ∈ entries ->
       calculate_total_revenue (group "CustomerID" c txs)
         = Ok (entry_total_spent e) /\
       entry_purchase_count e = len (group "CustomerID" c txs) /\
       1 <= entry_purchase_count e /\
       (exists n, float_of_int (entry_purchase_count e) = Ok n /\
          avg_order_value e =
            VFloat (py_round2 (PrimFloat.div (entry_total_spent e) n))) /\
       NoDup (entry_products_bought e) /\
       (forall p, p ∈ entry_products_bought e <->
                  p ∈ map (field "ProductName") (group "CustomerID" c txs))) /\
    ((forall c e, (c, e) ∈ entries -> is_number (entry_total_spent e) = true) ->
     StronglySorted
       (fun a b : value * customer_entry =>
          PrimFloat.leb (entry_total_spent b.2) (entry_total_spent a.2) = true)
       entries).
Proof.
  intros txs. apply (customer_analysis_spec txs); repeat constructor.
Defined.

(** On that input: the customer who bought twice has one product and an
    average of 35.0. *)
Lemma customer_analysis_example :
  customer_analysis
    [transaction_of "T1" "2024-01-01" "P101" "Widget" 5 10%float "C1" "North";
     transaction_of "T2" "2024-01-02" "P102" "Gadget" 7 10%float "C2" "South";
     transaction_of "T3" "2024-01-01" "P101" "Widget" 2 10%float "C1" "North";
     transaction_of "T4" "2024-01-03" "P103" "Gizmo" 1 5%float "C3" "East"]
  = Ok [(VStr "C1",
         {| entry_total_spent := 70; entry_purchase_count := 2;
            entry_products_bought := [VStr "Widget"];
            avg_order_value := VFloat 35 |});
        (VStr "C2",
         {| entry_total_spent := 70; entry_purchase_count := 1;
            entry_products_bought := [VStr "Gadget"];
            avg_order_value := VFloat 70 |});
        (VStr "C3",
         {| entry_total_spent := 5; entry_purchase_count := 1;
            entry_products_bought := [VStr "Gizmo"];
            avg_order_value := VFloat 5 |})].
Proof. reflexivity. Qed.

(** ** More on the enriched file *)

Section EnrichedFile.

Variable float_repr : float -> string.

Implicit Types (tx : dict) (s x rest : string) (sep : ascii).

Lemma row_agree tx tx' :
  (forall h, h ∈ headers -> tx !! h = tx' !! h) ->
  row float_repr tx = row float_repr tx'.
Proof.
  intros H. unfold row. f_equal. apply map_ext_in. intros h Hh.
  unfold cell. by rewrite (H h) by by apply list_elem_of_In.
Qed.






End EnrichedFile.

(** X17: [save_enriched_data] writes the twelve columns and nothing else:
    two lists of records that agree, record by record, on the twelve
    columns give the same text, so that a field such as the Amount stored
    by validation leaves no trace in the file. *)
Theorem save_enriched_data_columns
    (float_repr : float -> string) (txs txs' : list dict) :
  Forall2 (fun tx tx' : dict => forall h, h ∈ headers -> tx !! h = tx' !! h)
          txs txs' ->
  save_enriched_data float_repr txs = save_enriched_data float_repr txs'.
Proof.
  intros H. rewrite !save_enriched_data_unlines. do 2 f_equal.
  induction H as [|tx tx' l l' Htx Hl IH]; [done|].
  simpl. by rewrite (row_agree float_repr tx tx' Htx), IH.
Qed.

(** An enriched record with and without its amount. *)
Lemma save_enriched_data_columns_witness :
  let tx := enriched_sample (VStr "Essence") in
  save_enriched_data float_repr_sample [<["Amount" := VFloat 50]> tx]
  = save_enriched_data float_repr_sample [tx].
Proof.
  intros tx.
  apply (save_enriched_data_columns float_repr_sample
           [<["Amount" := VFloat 50]> tx] [tx]).
  repeat constructor. intros h Hh. apply lookup_insert_ne.
  intros <-. unfold headers in Hh.
  repeat (apply elem_of_cons in Hh as [Hh|Hh]; [discriminate Hh|]).
  by apply elem_of_nil in Hh.
Defined.


(** ** A single region, and the whole analysis *)

Section SelfDivision.

(** A positive finite float divided by itself is exactly one. *)
Lemma SFdiv_self (m : positive) (e : Z) :
  SFdiv prec emax (S754_finite false m e) (S754_finite false m e)
  = S754_finite false 4503599627370496 (-52).
Proof.
  unfold SFdiv, SFdiv_core_binary.
  replace (Zdigits2 (Z.pos m) + e - (Zdigits2 (Z.pos m) + e)) with 0 by lia.
  rewrite Z.sub_diag.
  change (Z.min (fexp prec emax 0) 0) with (-53).
  change (0 - -53) with 53.
  cbv beta iota zeta.
  assert (E : Z.div_eucl (Z.shiftl (Z.pos m) 53) (Z.pos m)
              = (9007199254740992, 0)).
  { rewrite Z.shiftl_mul_pow2 by lia.
    pose proof (Z.div_eucl_eq (Z.pos m * 2 ^ 53) (Z.pos m)) as H.
    pose proof (Z.mod_pos_bound (Z.pos m * 2 ^ 53) (Z.pos m)) as Hb.
    unfold Z.modulo in Hb.
    destruct (Z.div_eucl (Z.pos m * 2 ^ 53) (Z.pos m)) as [q r].
    specialize (H ltac:(lia)). specialize (Hb ltac:(lia)).
    assert (q = 2 ^ 53) by nia. assert (r = 0) by nia. subst q r. reflexivity. }
  rewrite E.
  assert (L : new_location (Z.pos m) 0 = loc_Exact).
  { unfold new_location, new_location_even, new_location_odd.
    by destruct (Z.even (Z.pos m)). }
  rewrite L. reflexivity.
Qed.

Lemma float_div_self (x : float) :
  PrimFloat.ltb 0 x = true -> PrimFloat.ltb x infinity = true ->
  PrimFloat.div x x = 1%float.
Proof.
  rewrite !FloatAxioms.ltb_spec. intros Hpos Hfin.
  rewrite <- (FloatAxioms.SF2Prim_Prim2SF (x / x)), FloatAxioms.div_spec.
  change (Prim2SF 0) with (S754_zero false) in Hpos.
  change (Prim2SF infinity) with (S754_infinity false) in Hfin.
  destruct (Prim2SF x) as [[]|[]| |[] m e]; try discriminate.
  unfold SF64div. rewrite SFdiv_self. reflexivity.
Qed.

End SelfDivision.

Section SingleRegion.

Implicit Types (tx : dict) (txs : list dict).

Lemma group_all name (r : value) txs :
  Forall (fun tx => field name tx = r) txs -> group name r txs = txs.
Proof.
  induction 1 as [|tx txs Htx Htxs IH]; [done|].
  unfold group in *. by rewrite filter_cons_True, IH.
Qed.

Lemma encounter_order_constant (r : value) (ks : list value) :
  ks <> [] -> Forall (fun k => k = r) ks -> encounter_order ks = [r].
Proof.
  induction ks as [|k ks IH] using rev_ind; [done|].
  intros _ Hall. apply Forall_app in Hall as [Hks Hk].
  apply Forall_singleton in Hk as ->.
  rewrite encounter_order_snoc.
  destruct ks as [|k' ks']; [done|].
  rewrite IH by done. rewrite decide_True; [done|by left].
Qed.

Lemma kept_has_customer tx v :
  parsed tx -> validate_tx tx = Ok (Some v) -> has_customer v = true.
Proof.
  intros (tid & date & pid & name & q & up & cid & region & ->).
  rewrite validate_tx_transaction_of.
  destruct (passes_checks _ _ _ _ _ _ _ _); [|done].
  destruct (float_of_int q) as [f|] eqn:E; simpl; [|done].
  intros [= <-]. unfold has_customer. by rewrite lookup_insert_ne by done.
Qed.

End SingleRegion.

(** X19: when every transaction is in the same region and the total
    revenue is a positive finite number, [region_wise_sales] returns one
    entry, whose total is the total revenue, whose count is the number of
    transactions and whose percentage is exactly 100.0. *)
Theorem region_wise_sales_single_region (txs : list dict) (r : value) :
  txs <> [] ->
  Forall (fun tx => well_typed tx = true) txs ->
  Forall (fun tx => field "Region" tx = r) txs ->
  PrimFloat.ltb 0 (sum_amounts txs) = true ->
  PrimFloat.ltb (sum_amounts txs) infinity = true ->
  calculate_total_revenue txs = Ok (sum_amounts txs) /\
  region_wise_sales txs =
    Ok [(r, {| entry_total_sales := sum_amounts txs;
               entry_transaction_count := len txs;
               entry_percentage := VFloat 100 |})].
Proof.
  intros Hne Hwt Hr Hpos Hfin.
  split; [by apply calculate_total_revenue_sum|].
  rewrite region_wise_sales_table by done.
  assert (Hks : distinct "Region" txs = [r]).
  { apply encounter_order_constant.
    - by destruct txs.
    - apply Forall_forall. intros k Hk.
      apply list_elem_of_In, in_map_iff in Hk as (tx & <- & Htx).
      rewrite Forall_forall in Hr. by apply Hr, list_elem_of_In. }
  rewrite Hks. cbn [map sort_desc foldr insert_desc].
  unfold region_entry_of. rewrite (group_all "Region" r txs Hr).
  unfold percentage_of. rewrite Hpos, float_div_self by done.
  reflexivity.
Qed.

(** Two sales in the North. *)
Lemma region_wise_sales_single_region_witness :
  let txs :=
    [transaction_of "T1" "2024-01-01" "P101" "Widget" 5 10%float "C1" "North";
     transaction_of "T3" "2024-01-01" "P103" "Gizmo" 2 10%float "C1" "North"] in
  calculate_total_revenue txs = Ok (sum_amounts txs) /\
  region_wise_sales txs =
    Ok [(VStr "North", {| entry_total_sales := sum_amounts txs;
                          entry_transaction_count := len txs;
                          entry_percentage := VFloat 100 |})].
Proof.
  intros txs. apply (region_wise_sales_single_region txs (VStr "North")).
  - discriminate.
  - repeat constructor.
  - repeat constructor.
  - reflexivity.
  - reflexivity.
Defined.

(** X20: the analysis of a parsed file.  When [parse_transactions] returns
    and the quantities fit the float format, [validate_and_filter] returns,
    and on its result the revenue, region, product and daily-trend
    functions all return, as does [customer_analysis] when the purchase
    counts fit the float format; [find_peak_sales_day] raises exactly when
    validation and filtering have left no transaction. *)
Theorem analysis_of_parsed
    (float_parse : string -> option float) (lines : list string)
    (txs : list dict) (region : option string) (lo hi : option float)
    (k t : Z) :
  parse_transactions float_parse lines = Ok txs ->
  Forall (fun tx => convertible tx = true) txs ->
  exists final n s,
    validate_and_filter txs region lo hi = Ok (final, n, s) /\
    is_ok (calculate_total_revenue final) = true /\
    is_ok (region_wise_sales final) = true /\
    is_ok (top_selling_products final k) = true /\
    is_ok (low_performing_products final (NInt t)) = true /\
    is_ok (daily_sales_trend final) = true /\
    (counts_fit final -> is_ok (customer_analysis final) = true) /\
    (is_ok (find_peak_sales_day final) = false <-> final = []).
Proof.
  intros Hparse Hconv.
  assert (Hp : Forall parsed txs).
  { apply parse_loop_Ok in Hparse as (new & -> & Hnew & _). simpl.
    apply Forall_forall. intros tx Htx.
    apply list_elem_of_lookup in Htx as [i Hi].
    destruct (Forall2_lookup_r _ _ _ _ _ Hnew Hi) as (line & _ & Hrec).
    by eapply record_of_parsed. }
  destruct (validation_loop_total txs [] 0 Hp Hconv) as (valid & n & Hloop).
  pose proof (validate_and_filter_after_validation
                txs region lo hi valid n Hp Hloop) as Hres.
  cbv zeta in Hres.
  set (final := max_pass hi (min_pass lo (region_pass region valid))) in *.
  set (s := {| total_input := len txs; invalid := n;
               filtered_by_region := _; filtered_by_amount := _;
               final_count := _ |}) in Hres.
  exists final, n, s. split; [done|].
  assert (Hwt : Forall (fun tx => well_typed tx = true) final)
    by (by eapply validate_and_filter_well_typed).
  assert (Hc : Forall (fun tx => has_customer tx = true) final).
  { pose proof (validate_and_filter_origin _ _ _ _ _ _ _ Hres) as Ho.
    rewrite Forall_forall in Ho, Hp |- *. intros v Hv.
    destruct (Ho v Hv) as (tx & Htx & Hval).
    eapply kept_has_customer; [by apply Hp|done]. }
  split; [by rewrite calculate_total_revenue_sum|].
  split; [by rewrite region_wise_sales_table|].
  split; [by rewrite top_selling_products_table|].
  split; [by rewrite low_performing_products_table|].
  split.
  { by destruct (daily_sales_trend_sorted final Hwt Hc) as (trend & -> & _). }
  split; [intros Hfit; by rewrite customer_analysis_table|].
  split.
  - intros Hfail. destruct final as [|tx l] eqn:E; [done|].
    destruct (find_peak_sales_day_char (tx :: l)) as (d & b & a & Hpk & _);
      [done..|].
    rewrite Hpk in Hfail. done.
  - intros ->. reflexivity.
Qed.

(** The header line removed, a file of two data lines, filtered by
    region. *)
Lemma analysis_of_parsed_witness :
  let lines := ["T1|2024-01-01|P101|Widget|5|10.0|C1|North";
                "T2|2024-01-02|P102|Gadget|7|10.0|C2|South"] in
  exists final n s,
    validate_and_filter
      [transaction_of "T1" "2024-01-01" "P101" "Widget" 5 10%float "C1" "North";
       transaction_of "T2" "2024-01-02" "P102" "Gadget" 7 10%float "C2" "South"]
      (Some "North") None None = Ok (final, n, s) /\
    is_ok (calculate_total_revenue final) = true /\
    is_ok (region_wise_sales final) = true /\
    is_ok (top_selling_products final 5) = true /\
    is_ok (low_performing_products final (NInt 10)) = true /\
    is_ok (daily_sales_trend final) = true /\
    (counts_fit final -> is_ok (customer_analysis final) = true) /\
    (is_ok (find_peak_sales_day final) = false <-> final = []).
Proof.
  intros lines.
  apply (analysis_of_parsed float_parse_sample lines _ (Some "North") None None
           5 10).
  - reflexivity.
  - repeat constructor.
Defined.

(** X21: the empty catalog.  [create_product_mapping] maps an empty list
    of products to the empty mapping, and with the empty mapping
    [enrich_sales_data] gives every transaction, whatever its ProductID,
    the record of a no-match: three nulls and [API_Match = False], the
    other fields unchanged. *)
Theorem enrich_sales_data_empty_catalog (txs : list dict) :
  create_product_mapping [] = Ok ∅ /\
  enrich_sales_data txs ∅
    = map (fun tx => set_api_fields tx VNone VNone VNone false) txs /\
  forall (i : nat) (e : dict), enrich_sales_data txs ∅ !! i = Some e ->
    api_fields_are e VNone VNone VNone false.
Proof.
  assert (E : enrich_sales_data txs ∅
              = map (fun tx => set_api_fields tx VNone VNone VNone false) txs).
  { rewrite enrich_sales_data_map. apply map_ext. intros tx.
    unfold enrich_tx. destruct (api_id_of tx) as [k|]; [|done].
    by rewrite lookup_empty. }
  split; [done|]. split; [done|].
  intros i e. rewrite E, list_lookup_fmap.
  destruct (txs !! i) as [tx|]; simpl; [|done].
  intros [= <-]. apply set_api_fields_are.
Qed.

(** ** The sign of the revenues *)

Section Signs.

Lemma shr_1_nonneg mrs : 0 <= shr_m mrs -> 0 <= shr_m (shr_1 mrs).
Proof.
  destruct mrs as [m r s]. simpl. destruct m as [|[p|p|]|p]; simpl; lia.
Qed.

Lemma iter_pos_nonneg (p : positive) : forall mrs,
  0 <= shr_m mrs -> 0 <= shr_m (SpecFloat.iter_pos shr_1 p mrs).
Proof.
  induction p as [p IH|p IH|]; intros mrs H; simpl.
  - apply IH, IH. by apply shr_1_nonneg.
  - by apply IH, IH.
  - by apply shr_1_nonneg.
Qed.

Lemma shr_fexp_nonneg m e l :
  0 <= m -> 0 <= shr_m (fst (shr_fexp prec emax m e l)).
Proof.
  intros H. unfold shr_fexp, shr.
  assert (H0 : 0 <= shr_m (shr_record_of_loc m l)).
  { by destruct l as [|[]]. }
  destruct (fexp prec emax (Zdigits2 m + e) - e); simpl; try done.
  by apply iter_pos_nonneg.
Qed.

Lemma round_nearest_even_nonneg m l : 0 <= m -> 0 <= round_nearest_even m l.
Proof.
  intros H. unfold round_nearest_even.
  destruct l as [|[]]; try done; [destruct (Z.even m)|]; lia.
Qed.

Lemma binary_round_aux_sign (s : bool) m e l :
  0 <= m ->
  match binary_round_aux prec emax s m e l with
  | S754_zero s' | S754_finite s' _ _ | S754_infinity s' => s' = s
  | S754_nan => False
  end.
Proof.
  intros H. unfold binary_round_aux.
  pose proof (shr_fexp_nonneg m e l H) as H1.
  destruct (shr_fexp prec emax m e l) as [mrs' e'].
  simpl in H1.
  pose proof (shr_fexp_nonneg _ e' loc_Exact
                (round_nearest_even_nonneg _ (loc_of_shr_record mrs') H1)) as H2.
  destruct (shr_fexp prec emax _ e' loc_Exact) as [mrs'' e''].
  simpl in H2. destruct (shr_m mrs'') as [|p|p]; [done| |lia].
  by destruct (e'' <=? emax - prec).
Qed.

Lemma binary_round_sign (s : bool) (m : positive) e :
  match binary_round prec emax s m e with
  | S754_zero s' | S754_finite s' _ _ | S754_infinity s' => s' = s
  | S754_nan => False
  end.
Proof.
  unfold binary_round.
  destruct (shl_align m e _) as [mz ez]. by apply binary_round_aux_sign.
Qed.

Lemma binary_normalize_nonneg m e :
  0 <= m -> sf_nonneg (binary_normalize prec emax m e false).
Proof.
  intros H. destruct m as [|p|p]; simpl; [done| |lia].
  pose proof (binary_round_sign false p e) as Hs.
  destruct (binary_round prec emax false p e) as [s|s| |s ? ?]; simpl in *;
    subst; done.
Qed.

Lemma SFadd_nonneg x y :
  sf_nonneg x -> sf_nonneg y -> sf_nonneg (SFadd prec emax x y).
Proof.
  destruct x as [sx|[]| |[] mx ex], y as [sy|[]| |[] my ey]; simpl; try done.
  - intros _ _. by destruct sx, sy.
  - intros _ _.
    match goal with
    | |- context [binary_round prec emax false ?p ?e] =>
        pose proof (binary_round_sign false p e) as Hs;
        destruct (binary_round prec emax false p e) as [s|s| |s ? ?]
    end; simpl in *; subst; done.
Qed.

Lemma SFmul_nonneg x (m : positive) (e : Z) :
  sf_nonneg x -> sf_nonneg (SFmul prec emax x (S754_finite false m e)).
Proof.
  destruct x as [sx|[]| |[] mx ex]; simpl; try done. intros _.
  pose proof (binary_round_aux_sign false (Z.pos (mx * m)) (ex + e) loc_Exact
                ltac:(lia)) as Hs.
  destruct (binary_round_aux _ _ _ _ _ _) as [s|s| |s ? ?]; simpl in *;
    subst; done.
Qed.

Lemma SFldexp_nonneg x e : sf_nonneg x -> sf_nonneg (SFldexp prec emax x e).
Proof.
  destruct x as [sx|[]| |[] mx ex]; simpl; try done. intros _.
  pose proof (binary_round_sign false mx (ex + e)) as Hs.
  destruct (binary_round prec emax false mx (ex + e)) as [s|s| |s ? ?];
    simpl in *; subst; done.
Qed.

Lemma SF2Prim_nonneg x : sf_nonneg x -> sf_nonneg (Prim2SF (SF2Prim x)).
Proof.
  destruct x as [[]|[]| |[] m e]; simpl; try done. intros _.
  unfold Z.ldexp. rewrite FloatAxioms.ldshiftexp_spec.
  apply SFldexp_nonneg. rewrite FloatAxioms.of_uint63_spec.
  apply binary_normalize_nonneg.
  apply Uint63.to_Z_bounded.
Qed.

Lemma float_nonneg x : PrimFloat.leb 0 x = true <-> sf_nonneg (Prim2SF x).
Proof.
  rewrite FloatAxioms.leb_spec. unfold SFleb.
  change (Prim2SF 0) with (S754_zero false).
  destruct (Prim2SF x) as [[]|[]| |[] m e]; simpl; split; done.
Qed.

Lemma float_add_nonneg x y :
  PrimFloat.leb 0 x = true -> PrimFloat.leb 0 y = true ->
  PrimFloat.leb 0 (x + y) = true.
Proof.
  rewrite !float_nonneg, FloatAxioms.add_spec. apply SFadd_nonneg.
Qed.

Lemma float_mul_nonneg x y :
  PrimFloat.leb 0 x = true ->
  PrimFloat.leb y 0 = false -> PrimFloat.ltb y infinity = true ->
  PrimFloat.leb 0 (x * y) = true.
Proof.
  rewrite !float_nonneg, FloatAxioms.mul_spec, FloatAxioms.leb_spec,
    FloatAxioms.ltb_spec.
  change (Prim2SF 0) with (S754_zero false).
  change (Prim2SF infinity) with (S754_infinity false).
  intros Hx Hy Hfin.
  destruct (Prim2SF y) as [[]|[]| |[] m e]; try discriminate.
  by apply SFmul_nonneg.
Qed.

Lemma float_of_int_nonneg (q : Z) (f : float) :
  0 <= q -> float_of_int q = Ok f -> PrimFloat.leb 0 f = true.
Proof.
  intros Hq. unfold float_of_int.
  pose proof (binary_normalize_nonneg q 0 Hq) as H. intros Hok.
  assert (E : f = SF2Prim (binary_normalize prec emax q 0 false)).
  { destruct (binary_normalize prec emax q 0 false); congruence. }
  rewrite E. by apply float_nonneg, SF2Prim_nonneg.
Qed.

End Signs.

Section NonNegative.

Implicit Types (tx v : dict) (txs : list dict).

Lemma sum_nonneg (l : list dict) : forall acc : float,
  PrimFloat.leb 0 acc = true ->
  Forall (fun tx => PrimFloat.leb 0 (amount_of tx) = true) l ->
  PrimFloat.leb 0 (fold_left (fun acc tx => PrimFloat.add acc (amount_of tx))
                             l acc) = true.
Proof.
  induction l as [|tx l IH]; intros acc Hacc Hl; [done|].
  inversion Hl as [|? ? Htx Hrest]; subst. simpl.
  apply IH; [by apply float_add_nonneg|done].
Qed.

Lemma sum_amounts_nonneg (l : list dict) :
  Forall (fun tx => PrimFloat.leb 0 (amount_of tx) = true) l ->
  PrimFloat.leb 0 (sum_amounts l) = true.
Proof. intros H. by apply sum_nonneg. Qed.

Lemma float_nonneg_number (x : float) :
  PrimFloat.leb 0 x = true -> is_number x = true.
Proof.
  unfold is_number. rewrite FloatAxioms.leb_spec, FloatAxioms.eqb_spec.
  unfold SFleb, SFeqb. change (Prim2SF 0) with (S754_zero false).
  destruct (Prim2SF x) as [[]|[]| |[] m e]; simpl; try done;
    intros _; by rewrite Z.compare_refl, Pos.compare_cont_refl.
Qed.

(** The amount of a kept transaction with a finite price is zero or
    positive. *)
Lemma kept_nonneg tx v :
  parsed tx -> finite_price tx = true -> validate_tx tx = Ok (Some v) ->
  PrimFloat.leb 0 (amount_of v) = true.
Proof.
  intros Hp Hfin Hv.
  destruct (kept_stored_amount tx v Hp Hv) as [_ ->].
  destruct Hp as (tid & date & pid & name & q & up & cid & region & ->).
  rewrite validate_tx_transaction_of in Hv.
  destruct (passes_checks _ _ _ _ _ _ _ _) eqn:Hpc; [|done].
  destruct (float_of_int q) as [f|] eqn:E; simpl in Hv; [|done].
  injection Hv as <-.
  unfold stored_amount. rewrite lookup_insert_eq.
  unfold passes_checks in Hpc.
  repeat (apply andb_true_iff in Hpc as [Hpc ?]).
  unfold finite_price in Hfin.
  change (transaction_of tid date pid name q up cid region !! "UnitPrice")
    with (Some (VFloat up)) in Hfin.
  apply andb_true_iff in Hfin as [Hfin _].
  apply float_mul_nonneg; [|by apply negb_true_iff|done].
  apply (float_of_int_nonneg q); [|done].
  assert ((q <=? 0) = false) as Hq by by apply negb_true_iff.
  apply Z.leb_gt in Hq. lia.
Qed.

Lemma validated_nonneg txs region lo hi final n s :
  Forall parsed txs -> Forall (fun tx => finite_price tx = true) txs ->
  validate_and_filter txs region lo hi = Ok (final, n, s) ->
  Forall (fun v => well_typed v = true /\ amount_of v = stored_amount v /\
                   PrimFloat.leb 0 (amount_of v) = true) final.
Proof.
  intros Hp Hfin Hres.
  pose proof (validate_and_filter_origin _ _ _ _ _ _ _ Hres) as Horigin.
  rewrite Forall_forall in Horigin, Hp, Hfin |- *. intros v Hv.
  destruct (Horigin v Hv) as (tx & Htx & Hval).
  destruct (kept_stored_amount tx v (Hp tx Htx) Hval) as [Hwt Hst].
  split; [done|]. split; [done|].
  by apply (kept_nonneg tx v (Hp tx Htx) (Hfin tx Htx)).
Qed.

End NonNegative.

(** X22: revenues are never negative.  For parsed transactions whose
    unit prices are finite numbers, every transaction that
    [validate_and_filter] returns has a stored amount that is zero or
    positive, and their total revenue is zero or positive (plus infinity
    included), hence a number. *)
Theorem validate_and_filter_nonneg
    (txs : list dict) (region : option string) (lo hi : option float)
    (final : list dict) (n : Z) (s : filter_summary) :
  Forall parsed txs ->
  Forall (fun tx => finite_price tx = true) txs ->
  validate_and_filter txs region lo hi = Ok (final, n, s) ->
  Forall (fun tx => PrimFloat.leb 0 (stored_amount tx) = true) final /\
  exists total,
    calculate_total_revenue final = Ok total /\
    PrimFloat.leb 0 total = true /\ is_number total = true.
Proof.
  intros Hp Hfin Hres.
  pose proof (validated_nonneg _ _ _ _ _ _ _ Hp Hfin Hres) as Hall.
  split.
  - eapply Forall_impl; [exact Hall|]. by intros v (_ & <- & ?).
  - exists (sum_amounts final).
    assert (Hpos : PrimFloat.leb 0 (sum_amounts final) = true).
    { apply sum_amounts_nonneg. eapply Forall_impl; [exact Hall|].
      by intros v (_ & _ & ?). }
    split; [|split; [done|by apply float_nonneg_number]].
    apply calculate_total_revenue_sum.
    eapply Forall_impl; [exact Hall|]. by intros v (? & _).
Qed.

Lemma validate_and_filter_nonneg_witness :
  let txs :=
    [transaction_of "T1" "2024-01-01" "P101" "Widget" 5 10%float "C1" "North";
     transaction_of "X2" "2024-01-02" "P102" "Gadget" 7 10%float "C2" "North";
     transaction_of "T3" "2024-01-01" "P103" "Gizmo" 2 10%float "C1" "South"] in
  let final :=
    [<["Amount" := VFloat 50]>
       (transaction_of "T1" "2024-01-01" "P101" "Widget" 5 10%float "C1" "North");
     <["Amount" := VFloat 20]>
       (transaction_of "T3" "2024-01-01" "P103" "Gizmo" 2 10%float "C1" "South")] in
  Forall (fun tx => PrimFloat.leb 0 (stored_amount tx) = true) final /\
  exists total,
    calculate_total_revenue final = Ok total /\
    PrimFloat.leb 0 total = true /\ is_number total = true.
Proof.
  intros txs final.
  apply (validate_and_filter_nonneg txs None None None final 1
           {| total_input := 3; invalid := 1; filtered_by_region := 0;
              filtered_by_amount := 0; final_count := 2 |}).
  - repeat constructor; by repeat eexists.
  - repeat constructor.
  - reflexivity.
Defined.

(** X23: for parsed transactions whose unit prices are finite numbers,
    [region_wise_sales] on the result of [validate_and_filter] returns
    entries whose totals are zero or positive, in non-increasing order of
    total. *)
Theorem region_wise_sales_validated
    (txs : list dict) (region : option string) (lo hi : option float)
    (final : list dict) (n : Z) (s : filter_summary) :
  Forall parsed txs ->
  Forall (fun tx => finite_price tx = true) txs ->
  validate_and_filter txs region lo hi = Ok (final, n, s) ->
  exists entries,
    region_wise_sales final = Ok entries /\
    Forall (fun item : value * region_entry =>
              PrimFloat.leb 0 (entry_total_sales item.2) = true) entries /\
    StronglySorted
      (fun a b : value * region_entry =>
         PrimFloat.leb (entry_total_sales b.2) (entry_total_sales a.2) = true)
      entries.
Proof.
  intros Hp Hfin Hres.
  pose proof (validated_nonneg _ _ _ _ _ _ _ Hp Hfin Hres) as Hall.
  assert (Hwt : Forall (fun v => well_typed v = true) final).
  { eapply Forall_impl; [exact Hall|]. by intros v (? & _). }
  assert (Hgroup : forall r, PrimFloat.leb 0 (sum_amounts (group "Region" r final))
                             = true).
  { intros r. apply sum_amounts_nonneg. apply Forall_forall. intros v Hv.
    apply list_elem_of_filter in Hv as [_ Hv].
    rewrite Forall_forall in Hall. by destruct (Hall v Hv) as (_ & _ & ?). }
  set (F := fun r => (r, region_entry_of final r)).
  set (ks := distinct "Region" final).
  assert (Hitems : forall item, item ∈ map F ks ->
            PrimFloat.leb 0 (entry_total_sales item.2) = true).
  { intros item Hitem.
    apply list_elem_of_In, in_map_iff in Hitem as (r & <- & _). apply Hgroup. }
  exists (sort_desc (fun item : value * region_entry =>
                       NFloat (entry_total_sales item.2)) (map F ks)).
  split; [by apply region_wise_sales_table|]. split.
  - apply Forall_forall. intros item Hitem.
    rewrite sort_desc_Permutation in Hitem. by apply Hitems.
  - apply (sort_desc_float_sorted
             (fun item : value * region_entry => entry_total_sales item.2)).
    intros item Hitem. by apply float_nonneg_number, Hitems.
Qed.

Lemma region_wise_sales_validated_witness :
  let txs :=
    [transaction_of "T1" "2024-01-01" "P101" "Widget" 5 10%float "C1" "North";
     transaction_of "X2" "2024-01-02" "P102" "Gadget" 7 10%float "C2" "North";
     transaction_of "T3" "2024-01-01" "P103" "Gizmo" 2 10%float "C1" "South"] in
  let final :=
    [<["Amount" := VFloat 50]>
       (transaction_of "T1" "2024-01-01" "P101" "Widget" 5 10%float "C1" "North");
     <["Amount" := VFloat 20]>
       (transaction_of "T3" "2024-01-01" "P103" "Gizmo" 2 10%float "C1" "South")] in
  exists entries,
    region_wise_sales final = Ok entries /\
    Forall (fun item : value * region_entry =>
              PrimFloat.leb 0 (entry_total_sales item.2) = true) entries /\
    StronglySorted
      (fun a b : value * region_entry =>
         PrimFloat.leb (entry_total_sales b.2) (entry_total_sales a.2) = true)
      entries.
Proof.
  intros txs final.
  apply (region_wise_sales_validated txs None None None final 1
           {| total_input := 3; invalid := 1; filtered_by_region := 0;
              filtered_by_amount := 0; final_count := 2 |}).
  - repeat constructor; by repeat eexists.
  - repeat constructor.
  - reflexivity.
Defined.

(** With a price that is not a number the property is lost, as is the
    order: the transaction is kept and its amount is NaN. *)
Lemma validate_and_filter_nan_amount :
  exists final n s,
    validate_and_filter
      [transaction_of "T1" "2024-01-01" "P101" "Widget" 5 nan "C1" "North"]
      None None None = Ok (final, n, s) /\
    calculate_total_revenue final = Ok nan.
Proof. do 3 eexists. split; reflexivity. Qed.

(** ** The percentages of [region_wise_sales] *)

Section Percentages.

Implicit Types (tx : dict) (txs : list dict) (x y : float).






End Percentages.



